(** * py2puml: the PlantUML script generators of [puml_generator.py]

    A shallow embedding of the classes [PUML_Generator] and
    [PUML_Generator_NS] and the properties of their rendering engine:
    the class prefix, deferred inheritance edges, namespace nesting,
    argument lists and option defaults.

    The generator is a Python object mutated in place that writes to two
    files, so its methods are embedded in a state-and-exception monad
    over a record [World] holding the object's attributes, the two
    output files, the log and the store of [ast.arguments] nodes. *)

From Stdlib Require Import ZArith Ascii String.
From stdpp Require Import base option list gmap strings.

Local Open Scope string_scope.
Local Open Scope list_scope.

(** ** Python strings

    Strings are sequences of bytes; white space and letter case are the
    ASCII ones. *)

Module Py.

(** [str.isspace] on one ASCII character. *)
Definition isspace (c : ascii) : bool :=
  let n := nat_of_ascii c in
  ((9 <=? n)%nat && (n <=? 13)%nat) || ((28 <=? n)%nat && (n <=? 32)%nat).

(** [s.rstrip()]: drops the trailing white space. *)
Fixpoint rstrip (s : string) : string :=
  match s with
  | EmptyString => EmptyString
  | String c r =>
      match rstrip r with
      | EmptyString => if isspace c then EmptyString else String c EmptyString
      | r' => String c r'
      end
  end.

(** [s.split(sep)] for a one-character separator; the result is never
    empty ([''.split('.')] is [['']]). *)
Fixpoint split (sep : ascii) (s : string) : list string :=
  match s with
  | EmptyString => [EmptyString]
  | String c r =>
      if Ascii.eqb c sep then EmptyString :: split sep r
      else match split sep r with
           | x :: xs => String c x :: xs
           | [] => [String c EmptyString]
           end
  end.

(** [s.startswith(p)]. *)
Fixpoint startswith (p s : string) : bool :=
  match p, s with
  | EmptyString, _ => true
  | String a p', String b s' => Ascii.eqb a b && startswith p' s'
  | String _ _, EmptyString => false
  end.

(** [sub in s]: substring test. *)
Fixpoint contains (sub s : string) : bool :=
  startswith sub s ||
  match s with
  | EmptyString => false
  | String _ r => contains sub r
  end.

(** [s.lower()] on ASCII letters. *)
Definition lower_ascii (c : ascii) : ascii :=
  let n := nat_of_ascii c in
  if (65 <=? n)%nat && (n <=? 90)%nat then ascii_of_nat (n + 32) else c.

Fixpoint lower (s : string) : string :=
  match s with
  | EmptyString => EmptyString
  | String c r => String (lower_ascii c) (lower r)
  end.

(** [s * n]. *)
Fixpoint repeat (s : string) (n : nat) : string :=
  match n with
  | O => EmptyString
  | S k => s +:+ repeat s k
  end.

(** [sep.join(l)]. *)
Fixpoint join (sep : string) (l : list string) : string :=
  match l with
  | [] => EmptyString
  | [x] => x
  | x :: rest => x +:+ sep +:+ join sep rest
  end.

(** [s.rfind(c)] for one character: the index of the last occurrence,
    or [-1]. *)
Fixpoint rfind_from (c : ascii) (s : string) (i : Z) (found : Z) : Z :=
  match s with
  | EmptyString => found
  | String a r => rfind_from c r (i + 1) (if Ascii.eqb a c then i else found)
  end.

Definition rfind (c : ascii) (s : string) : Z := rfind_from c s 0 (-1).

(** [s[:n]] and [s[n:]] for [0 <= n]. *)
Fixpoint take (n : nat) (s : string) : string :=
  match n, s with
  | S k, String a r => String a (take k r)
  | _, _ => EmptyString
  end.

Fixpoint drop (n : nat) (s : string) : string :=
  match n, s with
  | S k, String _ r => drop k r
  | _, _ => s
  end.

(** The loop of [genericpath._splitext] that skips leading dots: does
    some character of [s[i:j]] differ from the extension separator? *)
Definition has_non_dot (s : string) (i j : nat) : bool :=
  negb (forallb (fun c => Ascii.eqb c ".") (list_ascii_of_string (take (j - i) (drop i s)))).

(** [os.path.splitext(p)[0]] (posix). *)
Definition splitext_root (p : string) : string :=
  let sepIndex := rfind "/" p in
  let dotIndex := rfind "." p in
  if (sepIndex <? dotIndex)%Z
  then if has_non_dot p (Z.to_nat (sepIndex + 1)) (Z.to_nat dotIndex)
       then take (Z.to_nat dotIndex) p
       else p
  else p.

(** The text one [print] call writes: the arguments separated by one
    space, then the line end. *)
Definition print_text (args : list string) (end_ : string) : string :=
  join " " args +:+ end_.

End Py.

(** ** The syntax tree nodes the generator reads *)

(** Expressions: the generator tells [ast.Name] and [ast.Attribute]
    apart from every other node, which it only renders. *)
Inductive expr : Type :=
| Name (id : string)
| Attribute (value : expr) (attr : string)
| OtherExpr (node : nat).

(** [ast.arg] *)
Record ast_arg : Type := mk_arg {
  arg : string;
  annotation : option expr
}.

(** [ast.arguments].  [posonlyargs] holds the parameters before a [/]
    (Python 3.8 and later; no such parameter exists before); [args] the
    parameters that can be passed by position or by keyword. *)
Record ast_arguments : Type := mk_arguments {
  posonlyargs : list ast_arg;
  args : list ast_arg;
  vararg : option ast_arg;
  kwonlyargs : list ast_arg;
  kw_defaults : list (option expr);
  kwarg : option ast_arg;
  defaults : list expr
}.

(** A reference to an [ast.arguments] object of the store. *)
Definition loc : Type := nat.

(** [ast.FunctionDef], as far as it is read: [fdef.args] is a reference
    to a mutable [ast.arguments] object. *)
Record FunctionDef : Type := mk_fdef {
  fd_name : string;
  fd_args : loc;
  decorator_list : list expr;
  returns : option expr
}.

(** The class descriptor of the tree visitor ([classinfo]). *)
Record ClassInfo : Type := mk_classinfo {
  classname : string;
  bases : list expr;
  classvars : list string;
  members : list string;
  methods : list FunctionDef
}.

(** The module descriptor of the tree visitor ([codeinfo]). *)
Record CodeInfo : Type := mk_codeinfo {
  variables : list string;
  functions : list FunctionDef
}.

(** ** Python values, exceptions, configuration *)

(** The values the option accessors return. *)
Inductive pyval : Type :=
| PyNone
| PyBool (b : bool)
| PyStr (s : string)
| PyList (l : list string).

(** Truth value testing. *)
Definition truthy (v : pyval) : bool :=
  match v with
  | PyNone => false
  | PyBool b => b
  | PyStr s => negb (String.eqb s "")
  | PyList l => match l with [] => false | _ => true end
  end.

Inductive exn : Type :=
| IndexError
| AssertionError
| ValueError
| AttributeError
| TypeError
| EvalError
| InvalidReference   (* a reference to no object: not raised by Python *)
| OutOfFuel.         (* a loop cut short by the embedding: not raised by Python *)

(** A [ConfigParser], seen through [get]: the value of each
    (section, option) that [get] finds.  An absent key stands for
    [NoSectionError] or [NoOptionError], which a [fallback] absorbs.
    Such an object is always true ([len] counts the default section). *)
Definition cfg_get (cfg : gmap (string * string) string) (section option : string)
    (fallback : pyval) : pyval :=
  match cfg !! (section, option) with
  | Some v => PyStr v
  | None => fallback
  end.

(** [RawConfigParser.BOOLEAN_STATES] *)
Definition BOOLEAN_STATES (v : string) : option bool :=
  if String.eqb v "1" || String.eqb v "yes" || String.eqb v "true" || String.eqb v "on"
  then Some true
  else if String.eqb v "0" || String.eqb v "no" || String.eqb v "false" || String.eqb v "off"
  then Some false
  else None.

(** [ConfigParser.getboolean(section, option, fallback=...)]: a value
    that is not a boolean word raises [ValueError]. *)
Definition cfg_getboolean (cfg : gmap (string * string) string) (section option : string)
    (fallback : bool) : exn + bool :=
  match cfg !! (section, option) with
  | Some v =>
      match BOOLEAN_STATES (Py.lower v) with
      | Some b => inr b
      | None => inl ValueError
      end
  | None => inr fallback
  end.

(** ** The generator object and its world *)

Inductive pyclass : Type := PUML_Generator | PUML_Generator_NS.

(** A record of the module logger: level, message format, arguments. *)
Inductive loglevel : Type := INFO | WARNING.

Record World : Type := mk_world {
  klass : pyclass;                          (* the class of [self] *)
  dest : list string;                       (* texts printed to [self.dest], in order *)
  footer_dest : list string;                (* texts printed to [self.footer_dest] *)
  in_footer : bool;
  config : option (gmap (string * string) string);
  sourcename : option string;
  class_in_module : gmap string string;
  inherit_relations : list (string * string);
  root : string;                            (* [PUML_Generator_NS] only *)
  namespaces : list string;                 (* [PUML_Generator_NS] only *)
  heap : list ast_arguments;                (* the [ast.arguments] objects *)
  log : list (loglevel * string * list string)
}.

Definition set_dest (v : list string) (w : World) : World :=
  mk_world (klass w) v (footer_dest w) (in_footer w) (config w) (sourcename w)
    (class_in_module w) (inherit_relations w) (root w) (namespaces w) (heap w) (log w).
Definition set_footer_dest (v : list string) (w : World) : World :=
  mk_world (klass w) (dest w) v (in_footer w) (config w) (sourcename w)
    (class_in_module w) (inherit_relations w) (root w) (namespaces w) (heap w) (log w).
Definition set_in_footer (v : bool) (w : World) : World :=
  mk_world (klass w) (dest w) (footer_dest w) v (config w) (sourcename w)
    (class_in_module w) (inherit_relations w) (root w) (namespaces w) (heap w) (log w).
Definition set_sourcename (v : option string) (w : World) : World :=
  mk_world (klass w) (dest w) (footer_dest w) (in_footer w) (config w) v
    (class_in_module w) (inherit_relations w) (root w) (namespaces w) (heap w) (log w).
Definition set_class_in_module (v : gmap string string) (w : World) : World :=
  mk_world (klass w) (dest w) (footer_dest w) (in_footer w) (config w) (sourcename w)
    v (inherit_relations w) (root w) (namespaces w) (heap w) (log w).
Definition set_inherit_relations (v : list (string * string)) (w : World) : World :=
  mk_world (klass w) (dest w) (footer_dest w) (in_footer w) (config w) (sourcename w)
    (class_in_module w) v (root w) (namespaces w) (heap w) (log w).
Definition set_namespaces (v : list string) (w : World) : World :=
  mk_world (klass w) (dest w) (footer_dest w) (in_footer w) (config w) (sourcename w)
    (class_in_module w) (inherit_relations w) (root w) v (heap w) (log w).
Definition set_heap (v : list ast_arguments) (w : World) : World :=
  mk_world (klass w) (dest w) (footer_dest w) (in_footer w) (config w) (sourcename w)
    (class_in_module w) (inherit_relations w) (root w) (namespaces w) v (log w).
Definition set_log (v : list (loglevel * string * list string)) (w : World) : World :=
  mk_world (klass w) (dest w) (footer_dest w) (in_footer w) (config w) (sourcename w)
    (class_in_module w) (inherit_relations w) (root w) (namespaces w) (heap w) v.

(** ** The monad: state that survives a raised exception *)

Definition M (A : Type) : Type := World -> (exn + A) * World.

Definition ret {A} (a : A) : M A := fun w => (inr a, w).
Definition raise {A} (e : exn) : M A := fun w => (inl e, w).
Definition bind {A B} (m : M A) (k : A -> M B) : M B :=
  fun w =>
    match m w with
    | (inr a, w') => k a w'
    | (inl e, w') => (inl e, w')
    end.
Definition modify (f : World -> World) : M unit := fun w => (inr tt, f w).
Definition lift {A} (r : exn + A) : M A := fun w => (r, w).

Notation "x <- m ;; k" := (bind m (fun x => k))
  (at level 100, m at next level, right associativity).
Notation "m ;;; k" := (bind m (fun _ => k))
  (at level 100, right associativity).

(** [for x in l: body(x)] *)
Fixpoint for_each {A} (l : list A) (body : A -> M unit) : M unit :=
  match l with
  | [] => ret tt
  | x :: rest => body x ;;; for_each rest body
  end.

(** [for _ in range(n): body] *)
Fixpoint repeat_n (n : nat) (body : M unit) : M unit :=
  match n with
  | O => ret tt
  | S k => body ;;; repeat_n k body
  end.

Definition gets {A} (f : World -> A) : M A := fun w => (inr (f w), w).

(** ** What the module takes from outside

    [astor.to_source] on an expression and on an [ast.arguments] node,
    the [visibility] methods of the two descriptors (module
    [ast_visitor]), [os.path.relpath] of a source path and the root, which
    depends on the working directory, and [eval] on the text of the
    built-in-types option. *)
Class Externals : Type := {
  to_source : expr -> string;
  to_source_arguments : ast_arguments -> string;
  classinfo_visibility : string -> string;
  codeinfo_visibility : string -> string;
  relpath : string -> string -> string;
  py_eval : string -> exn + pyval
}.

(** puml printation unit *)
Definition TAB : string := "  ".

(** The line end. *)
Definition NL : string := String "010"%char EmptyString.

(** ** Helpers on syntax tree nodes *)

(** [for dec in meth.decorator_list: if isinstance(dec, ast.Name) and
    dec.id == 'staticmethod': return True]; falling off the end returns
    [None], which is false where the result is tested. *)
Fixpoint is_static_loop (decs : list expr) : bool :=
  match decs with
  | [] => false
  | dec :: rest =>
      match dec with
      | Name id => if String.eqb id "staticmethod" then true else is_static_loop rest
      | _ => is_static_loop rest
      end
  end.

Definition is_static_method (meth : FunctionDef) : bool :=
  is_static_loop (decorator_list meth).

Fixpoint has_decorator_loop (decs : list expr) (name : string) : bool :=
  match decs with
  | [] => false
  | dec :: rest =>
      match dec with
      | Name id => if Py.contains name id then true else has_decorator_loop rest name
      | Attribute _ attr => if Py.contains name attr then true else has_decorator_loop rest name
      | OtherExpr _ => has_decorator_loop rest name
      end
  end.

Definition has_decorator (meth : FunctionDef) (name : string) : bool :=
  has_decorator_loop (decorator_list meth) name.

(** [x in v] *)
Definition py_in (x : string) (v : pyval) : exn + bool :=
  match v with
  | PyList l => inr (bool_decide (x ∈ l))
  | PyStr s => inr (Py.contains x s)
  | _ => inl TypeError
  end.

(** [l[-1]] *)
Definition index_last (l : list string) : exn + string :=
  match last l with
  | Some x => inr x
  | None => inl IndexError
  end.

(** ** Option accessors *)

Definition opt_prolog : M pyval :=
  cfg <- gets config ;;
  match cfg with
  | None => ret PyNone
  | Some c => ret (cfg_get c "puml" "prolog" (PyStr ""))
  end.

Definition opt_epilog : M pyval :=
  cfg <- gets config ;;
  match cfg with
  | None => ret PyNone
  | Some c => ret (cfg_get c "puml" "epilog" (PyStr ""))
  end.

Definition opt_globals : M pyval :=
  cfg <- gets config ;;
  match cfg with
  | None => ret PyNone
  | Some c => b <- lift (cfg_getboolean c "module" "write-globals" false) ;; ret (PyBool b)
  end.

Definition opt_omit_self : M pyval :=
  cfg <- gets config ;;
  match cfg with
  | None => ret PyNone
  | Some c => b <- lift (cfg_getboolean c "methods" "omit-self" false) ;; ret (PyBool b)
  end.

Definition opt_write_arglist (section : string) : M pyval :=
  cfg <- gets config ;;
  match cfg with
  | None => ret (PyBool true)
  | Some c => b <- lift (cfg_getboolean c section "write-arg-list" true) ;; ret (PyBool b)
  end.

Definition opt_omit_defaults (section : string) : M pyval :=
  cfg <- gets config ;;
  match cfg with
  | None => ret PyNone
  | Some c => b <- lift (cfg_getboolean c section "omit-defaults" false) ;; ret (PyBool b)
  end.

(** ** Output *)

Definition PUML_Generator_output (args : list string) : M unit :=
  modify (fun w =>
    if in_footer w
    then set_footer_dest (footer_dest w ++ [Py.print_text args NL]) w
    else set_dest (dest w ++ [Py.print_text args NL]) w).

(** [depth]: levels of current namespace nesting. *)
Definition depth (w : World) : nat := length (namespaces w).

Definition PUML_Generator_NS_output (args : list string) : M unit :=
  ns <- gets namespaces ;;
  (match ns with
   | [] => ret tt
   | _ :: _ =>
       modify (fun w => set_dest (dest w ++ [Py.print_text [Py.repeat TAB (depth w)] ""]) w)
   end) ;;;
  PUML_Generator_output args.

(** [self.output(...)], resolved by the class of [self]. *)
Definition output (args : list string) : M unit :=
  fun w =>
    match klass w with
    | PUML_Generator => PUML_Generator_output args w
    | PUML_Generator_NS => PUML_Generator_NS_output args w
    end.

(** ** The store of [ast.arguments] objects *)

(** Reading the object behind a reference. *)
Definition load (l : loc) : M ast_arguments :=
  fun w =>
    match heap w !! l with
    | Some a => (inr a, w)
    | None => (inl InvalidReference, w)
    end.

(** [copy.deepcopy(node)]: a new object with equal contents; the node
    owns its lists, so none of them is shared with the copy. *)
Definition deepcopy (l : loc) : M loc :=
  a <- load l ;;
  fun w => (inr (length (heap w)), set_heap (heap w ++ [a]) w).

(** [args.args.pop(0)] on the object behind [l]. *)
Definition args_pop0 (l : loc) : M ast_arg :=
  a <- load l ;;
  match args a with
  | [] => raise IndexError
  | x :: rest =>
      modify (fun w => set_heap
        (<[l := mk_arguments (posonlyargs a) rest (vararg a) (kwonlyargs a)
                 (kw_defaults a) (kwarg a) (defaults a)]>
           (heap w)) w) ;;;
      ret x
  end.

(** [args.defaults = v] *)
Definition set_defaults (l : loc) (v : list expr) : M unit :=
  a <- load l ;;
  modify (fun w => set_heap
    (<[l := mk_arguments (posonlyargs a) (args a) (vararg a) (kwonlyargs a)
             (kw_defaults a) (kwarg a) v]>
       (heap w)) w).

(** [args.kw_defaults = v] *)
Definition set_kw_defaults (l : loc) (v : list (option expr)) : M unit :=
  a <- load l ;;
  modify (fun w => set_heap
    (<[l := mk_arguments (posonlyargs a) (args a) (vararg a) (kwonlyargs a)
             v (kwarg a) (defaults a)]>
       (heap w)) w).

(** [logger.warning(msg, *args)] and [logger.info(msg, *args)] *)
Definition logger_warning (msg : string) (margs : list string) : M unit :=
  modify (fun w => set_log (log w ++ [(WARNING, msg, margs)]) w).
Definition logger_info (msg : string) (margs : list string) : M unit :=
  modify (fun w => set_log (log w ++ [(INFO, msg, margs)]) w).

(** A sample environment, to run the generator on concrete inputs: names
    and attributes render as dotted names, visibility follows the leading
    underscores, paths are already relative to the root, and the
    built-in-types text evaluates to the empty list. *)
Fixpoint sample_source (e : expr) : string :=
  match e with
  | Name id => id
  | Attribute value attr => sample_source value +:+ "." +:+ attr
  | OtherExpr _ => "..."
  end.

Definition sample_visibility (name : string) : string :=
  if Py.startswith "__" name then "-"
  else if Py.startswith "_" name then "#"
  else "+".

Definition sample_externals : Externals := {|
  to_source := fun e => sample_source e +:+ NL;
  to_source_arguments := fun a => Py.join ", " (map arg (args a)) +:+ NL;
  classinfo_visibility := sample_visibility;
  codeinfo_visibility := sample_visibility;
  relpath := fun path _ => path;
  py_eval := fun _ => inr (PyList [])
|}.

(** The same environment with a built-in-types text that evaluates to
    the list of [int]. *)
Definition sample_externals_types : Externals := {|
  to_source := fun e => sample_source e +:+ NL;
  to_source_arguments := fun a => Py.join ", " (map arg (args a)) +:+ NL;
  classinfo_visibility := sample_visibility;
  codeinfo_visibility := sample_visibility;
  relpath := fun path _ => path;
  py_eval := fun src => if String.eqb src "['int']" then inr (PyList ["int"])
                        else inr (PyList [])
|}.

Section Generator.

Context `{Externals}.

(** ** class PUML_Generator

    All methods but [do_file], which only drives the tree visitor. *)

(** The constructor: [dest] is a fresh stream, [footer_dest] a file
    opened for writing. *)
Definition PUML_Generator_init (cfg : option (gmap (string * string) string))
    (h : list ast_arguments) : World :=
  mk_world PUML_Generator [] [] false cfg None ∅ [] "" [] h [].

Definition opt_builtin_types (section : string) : M pyval :=
  cfg <- gets config ;;
  match cfg with
  | None => ret (PyList [])
  | Some c =>
      match cfg_get c section "built-in-types" (PyStr "[]") with
      | PyStr src => lift (py_eval src)
      | _ => raise TypeError
      end
  end.

Definition PUML_Generator_start_file (sourcename_ : string) : M unit :=
  modify (set_sourcename (Some sourcename_)).

Definition end_file (sourcename_ : option string) : M unit :=
  logger_info "finished with %s" [default "None" sourcename_] ;;;
  modify (set_sourcename None).

Definition header : M unit :=
  cfg <- gets config ;;
  match cfg with
  | Some c =>
      match cfg_get c "puml" "prolog" PyNone with
      | PyStr prolog => if truthy (PyStr prolog) then output [prolog +:+ NL] else ret tt
      | _ => ret tt
      end
  | None => ret tt
  end.

(** The body of the loop of [footer] over the inheritance relations. *)
Definition footer_relation (rel : string * string) : M unit :=
  let '(base, derived) := rel in
  cim <- gets class_in_module ;;
  let fmt_base := match cim !! base with Some ns => ns +:+ base | None => base end in
  let fmt_derived := match cim !! derived with Some ns => ns +:+ derived | None => derived end in
  output [fmt_base; "<|--"; fmt_derived].

Definition PUML_Generator_footer : M unit :=
  modify (set_in_footer true) ;;;
  rels <- gets inherit_relations ;;
  for_each rels footer_relation ;;;
  cfg <- gets config ;;
  (match cfg with
   | Some c =>
       match cfg_get c "puml" "epilog" PyNone with
       | PyStr epilog => if truthy (PyStr epilog) then output [epilog +:+ NL] else ret tt
       | _ => ret tt
       end
   | None => ret tt
   end) ;;;
  modify (set_in_footer false).

(** helper function for functions decorators *)
Definition _deco_marker (dec : expr) : exn + string :=
  match dec with
  | Attribute _ _ => inr ("@" +:+ Py.rstrip (to_source dec))
  | Name id =>
      if String.eqb id "staticmethod" then inr "static"
      else if String.eqb id "abstractmethod" then inr "abstract"
      else inr ("@" +:+ id)
  | OtherExpr _ => inl AttributeError
  end.

(** [arglist]: builds the argument list string of a function or
    method, according to configured options. *)
Definition arglist (fdef : FunctionDef) (ismethod : bool) : M string :=
  let section := if ismethod then "methods" else "module" in
  wa <- opt_write_arglist section ;;
  if negb (truthy wa) then ret ""
  else
    args_ <- deepcopy (fd_args fdef) ;;
    omit <- (if ismethod
             then os <- opt_omit_self ;; ret (truthy os && negb (is_static_method fdef))
             else ret false) ;;
    (if omit : bool
     then self_arg <- args_pop0 args_ ;;
          if String.eqb (arg self_arg) "self" then ret tt
          else logger_warning "Unexpected name %r for method 'self' parameter in %s()"
                 [arg self_arg; fd_name fdef]
     else ret tt) ;;;
    od <- opt_omit_defaults section ;;
    (if truthy od
     then set_defaults args_ [] ;;; set_kw_defaults args_ []
     else ret tt) ;;;
    a <- load args_ ;;
    ret (Py.rstrip (to_source_arguments a)).

(** The loop of [print_classinfo] over the bases: it chooses the
    prefix and records the inheritance relations. *)
Fixpoint bases_loop (cn : string) (bs : list expr) (prefix : string) : M string :=
  match bs with
  | [] => ret prefix
  | base :: rest =>
      let expr_ := Py.rstrip (to_source base) in
      if String.eqb expr_ "object" then bases_loop cn rest prefix
      else if String.eqb expr_ "ABC" then bases_loop cn rest "abstract class"
      else if String.eqb expr_ "Enum" then bases_loop cn rest "enum"
      else
        b <- lift (index_last (Py.split "." expr_)) ;;
        modify (fun w => set_inherit_relations (inherit_relations w ++ [(b, cn)]) w) ;;;
        bases_loop cn rest prefix
  end.

(** The text of [m.returns], or the no-type literal. *)
Definition returns_text (m : FunctionDef) : string :=
  match returns m with
  | Some r => Py.rstrip (to_source r)
  | None => "None"
  end.

(** The first loop over the methods: properties shown as fields. *)
Definition property_field (m : FunctionDef) : M unit :=
  if has_decorator m "property"
  then
    let returns_ := returns_text m in
    bt <- opt_builtin_types "methods" ;;
    isin <- lift (py_in returns_ bt) ;;
    if isin : bool
    then output [TAB +:+ "+" +:+ fd_name m +:+ " : " +:+ returns_text m]
    else ret tt
  else ret tt.

(** [[... for dec in m.decorator_list]] *)
Fixpoint deco_markers (decs : list expr) : exn + list string :=
  match decs with
  | [] => inr []
  | dec :: rest =>
      match _deco_marker dec with
      | inl e => inl e
      | inr mk =>
          match deco_markers rest with
          | inl e => inl e
          | inr mks => inr (("{" +:+ mk +:+ "}") :: mks)
          end
      end
  end.

(** The second loop over the methods. *)
Definition method_line (cn : string) (m : FunctionDef) : M unit :=
  if has_decorator m "property" || has_decorator m "setter" then ret tt
  else if String.eqb (fd_name m) "__init__"
  then al <- arglist m true ;;
       output [TAB +:+ "+" +:+ cn +:+ "(" +:+ al +:+ ")"]
  else al <- arglist m true ;;
       mks <- lift (deco_markers (decorator_list m)) ;;
       output [TAB +:+ classinfo_visibility (fd_name m) +:+ fd_name m +:+ "(" +:+ al +:+ ")"
                 +:+ Py.join "," mks +:+ " : " +:+ returns_text m].

(** Prints class definition as plantuml script. *)
Definition PUML_Generator_print_classinfo (classinfo : ClassInfo) : M unit :=
  prefix <- bases_loop (classname classinfo) (bases classinfo) "class" ;;
  prefix <- (match classname classinfo with
             | EmptyString => raise IndexError
             | String c _ => if Ascii.eqb c "I" then ret "interface" else ret prefix
             end) ;;
  output [prefix; classname classinfo; "{"] ;;;
  for_each (classvars classinfo)
    (fun m => output [TAB +:+ "{static}"; classinfo_visibility m +:+ m]) ;;;
  for_each (members classinfo)
    (fun m => output [TAB +:+ classinfo_visibility m +:+ m]) ;;;
  for_each (methods classinfo) property_field ;;;
  for_each (methods classinfo) (method_line (classname classinfo)) ;;;
  output ["}" +:+ NL].

(** Prints module globals as plantuml script. *)
Definition print_codeinfo (codeinfo : CodeInfo) : M unit :=
  g <- opt_globals ;;
  if negb (truthy g) then raise AssertionError
  else
    output ["class"; "__module__"; "{"] ;;;
    for_each (variables codeinfo)
      (fun name => output [TAB +:+ codeinfo_visibility name +:+ name]) ;;;
    for_each (functions codeinfo)
      (fun fdef =>
         al <- arglist fdef false ;;
         output [TAB +:+ codeinfo_visibility (fd_name fdef) +:+ fd_name fdef
                   +:+ "(" +:+ al +:+ ")"]) ;;;
    output ["}" +:+ NL].

(** ** class PUML_Generator_NS *)

Definition PUML_Generator_NS_init (root_ : string)
    (cfg : option (gmap (string * string) string)) (h : list ast_arguments) : World :=
  mk_world PUML_Generator_NS [] [] false cfg None ∅ [] root_ [] h [].

(** Removes some inner namespaces. *)
Definition pop_ns (count : Z) : M unit :=
  repeat_n (Z.to_nat count)
    (ns <- gets namespaces ;;
     (match ns with
      | [] => raise IndexError
      | _ :: _ => modify (fun w => set_namespaces (removelast (namespaces w)) w)
      end) ;;;
     output ["}"]).

(** Adds an inner namespace to the context. *)
Definition push_ns (name : string) : M unit :=
  output ["namespace " +:+ name +:+ " {"] ;;;
  modify (fun w => set_namespaces (namespaces w ++ [name]) w).

(** The loop of [start_file] that determines the common path. *)
Fixpoint common_path (stack namespaces_ : list string) (n : nat) : nat :=
  match stack with
  | [] => n
  | d :: rest =>
      if (length namespaces_ <=? n)%nat then n
      else match namespaces_ !! n with
           | Some x => if String.eqb d x then common_path rest namespaces_ (S n) else n
           | None => n
           end
  end.

(** The namespace hierarchy of a source file, from the root. *)
Definition path_namespaces (root_ sourcename_ : string) : list string :=
  let names := Py.splitext_root (relpath sourcename_ root_) in
  Py.split "/" names.

Definition PUML_Generator_NS_start_file (sourcename_ : string) : M unit :=
  PUML_Generator_start_file sourcename_ ;;;
  root_ <- gets root ;;
  let namespaces_ := path_namespaces root_ sourcename_ in
  stack <- gets namespaces ;;
  let n := common_path stack namespaces_ 0 in
  pop_ns (Z.of_nat (length stack) - Z.of_nat n) ;;;
  for_each (drop n namespaces_) push_ns.

(** [for n in self.namespaces: full_ns += n; full_ns += '.'] *)
Fixpoint full_ns_loop (ns : list string) (full_ns : string) : string :=
  match ns with
  | [] => full_ns
  | n :: rest => full_ns_loop rest ((full_ns +:+ n) +:+ ".")
  end.

Definition PUML_Generator_NS_print_classinfo (classinfo : ClassInfo) : M unit :=
  ns <- gets namespaces ;;
  let full_ns := full_ns_loop ns "" in
  modify (fun w => set_class_in_module (<[classname classinfo := full_ns]> (class_in_module w)) w) ;;;
  PUML_Generator_print_classinfo classinfo.

(** [while self.namespaces: self.pop_ns(self.depth)] *)
Fixpoint close_namespaces (fuel : nat) : M unit :=
  match fuel with
  | O => raise OutOfFuel
  | S fuel' =>
      ns <- gets namespaces ;;
      match ns with
      | [] => ret tt
      | _ :: _ =>
          d <- gets depth ;;
          pop_ns (Z.of_nat d) ;;;
          close_namespaces fuel'
      end
  end.

(** Outputs file footer: close namespaces and marker.  Each turn of
    the loop shortens the non-empty stack, so one turn more than its
    depth is enough. *)
Definition PUML_Generator_NS_footer : M unit :=
  d <- gets depth ;;
  close_namespaces (S d) ;;;
  PUML_Generator_footer.

(** A run of the namespace tracker: the files in order, then the
    footer. *)
Definition run_files (files : list string) : M unit :=
  for_each files PUML_Generator_NS_start_file ;;;
  PUML_Generator_NS_footer.

(** ** Methods resolved by the class of [self] *)

Definition print_classinfo (classinfo : ClassInfo) : M unit :=
  fun w =>
    match klass w with
    | PUML_Generator => PUML_Generator_print_classinfo classinfo w
    | PUML_Generator_NS => PUML_Generator_NS_print_classinfo classinfo w
    end.

Definition start_file (sourcename_ : string) : M unit :=
  fun w =>
    match klass w with
    | PUML_Generator => PUML_Generator_start_file sourcename_ w
    | PUML_Generator_NS => PUML_Generator_NS_start_file sourcename_ w
    end.

Definition footer : M unit :=
  fun w =>
    match klass w with
    | PUML_Generator => PUML_Generator_footer w
    | PUML_Generator_NS => PUML_Generator_NS_footer w
    end.

(** ** Vocabulary of the properties *)

(** The stream [PUML_Generator.output] prints to. *)
Definition out_stream (w : World) : list string :=
  if in_footer w then footer_dest w else dest w.

(** What [PUML_Generator_NS.output] puts on that stream before the text
    of a line: the indentation, which always goes to [dest]. *)
Definition indent_chunks (w : World) : list string :=
  match klass w, namespaces w, in_footer w with
  | PUML_Generator_NS, _ :: _, false => [Py.print_text [Py.repeat TAB (depth w)] ""]
  | _, _, _ => []
  end.

(** The text a base renders to. *)
Definition render (base : expr) : string := Py.rstrip (to_source base).

(** An endpoint of an inheritance relation, qualified by the map. *)
Definition qualify (cim : gmap string string) (name : string) : string :=
  match cim !! name with
  | Some ns => ns +:+ name
  | None => name
  end.

(** The line of one inheritance relation. *)
Definition relation_line (cim : gmap string string) (rel : string * string) : string :=
  Py.print_text [qualify cim rel.1; "<|--"; qualify cim rel.2] NL.

(** The epilog text the footer prints, if any. *)
Definition epilog_chunks (w : World) : list string :=
  match config w with
  | Some c =>
      match c !! ("puml", "epilog") with
      | Some epilog => if String.eqb epilog "" then [] else [Py.print_text [epilog +:+ NL] NL]
      | None => []
      end
  | None => []
  end.

(** Namespace markers among printed texts. *)
Definition open_marker (name : string) : string :=
  Py.print_text ["namespace " +:+ name +:+ " {"] NL.
Definition close_marker : string := Py.print_text ["}"] NL.
Definition is_open_marker (chunk : string) : bool := Py.startswith "namespace " chunk.
Definition is_close_marker (chunk : string) : bool := String.eqb chunk close_marker.
Definition count_open (chunks : list string) : nat :=
  length (List.filter is_open_marker chunks).
Definition count_close (chunks : list string) : nat :=
  length (List.filter is_close_marker chunks).

(** The indentation printed before a line at nesting depth [d]. *)
Definition indent_at (d : nat) : list string :=
  match d with
  | O => []
  | S _ => [Py.print_text [Py.repeat TAB d] ""]
  end.

(** What closing [k] namespaces prints, starting from depth [d]. *)
Fixpoint close_chunks (d k : nat) : list string :=
  match k with
  | O => []
  | S k' => indent_at (d - 1) ++ [close_marker] ++ close_chunks (d - 1) k'
  end.

(** What opening the namespaces [names] prints, starting from depth [d]. *)
Fixpoint open_chunks (d : nat) (names : list string) : list string :=
  match names with
  | [] => []
  | name :: rest => indent_at d ++ [open_marker name] ++ open_chunks (S d) rest
  end.

(** The length of the longest prefix two paths share. *)
Fixpoint common_prefix_length (a b : list string) : nat :=
  match a, b with
  | x :: a', y :: b' => if String.eqb x y then S (common_prefix_length a' b') else O
  | _, _ => O
  end.

(** An [ast.arguments] node without its default expressions. *)
Definition clear_defaults (a : ast_arguments) : ast_arguments :=
  mk_arguments (posonlyargs a) (args a) (vararg a) (kwonlyargs a) [] (kwarg a) [].

(** The section of the options [arglist] reads. *)
Definition section_of (ismethod : bool) : string :=
  if ismethod then "methods" else "module".

(** A step of the body of a rendering method: the attributes that decide
    where and how lines are printed stay, the streams and the relations
    only grow. *)
Record body_step (w w' : World) : Prop := mk_body_step {
  step_klass : klass w' = klass w;
  step_in_footer : in_footer w' = in_footer w;
  step_config : config w' = config w;
  step_class_in_module : class_in_module w' = class_in_module w;
  step_namespaces : namespaces w' = namespaces w;
  step_root : root w' = root w;
  step_relations : exists t, inherit_relations w' = (inherit_relations w ++ t);
  step_dest : exists t, dest w' = (dest w ++ t);
  step_footer_dest : exists t, footer_dest w' = (footer_dest w ++ t)
}.

(** A step of the namespace tracker or of the footer: what is recorded
    about classes and relations stays; the streams and the namespace
    stack may change. *)
Record tracker_step (w w' : World) : Prop := mk_tracker_step {
  tstep_klass : klass w' = klass w;
  tstep_in_footer : in_footer w' = in_footer w;
  tstep_config : config w' = config w;
  tstep_class_in_module : class_in_module w' = class_in_module w;
  tstep_relations : inherit_relations w' = inherit_relations w;
  tstep_root : root w' = root w;
  tstep_heap : heap w' = heap w
}.

(** An action all of whose runs are such steps. *)
Definition steps {A} (m : M A) : Prop :=
  forall w, body_step w (snd (m w)).

(** An [ast.arguments] node after [args.pop(0)]. *)
Definition drop_first (a : ast_arguments) : ast_arguments :=
  mk_arguments (posonlyargs a) (tail (args a)) (vararg a) (kwonlyargs a)
    (kw_defaults a) (kwarg a) (defaults a).

(** Does [arglist] pop the first entry of [args.args]?  [os] is the value of
    [opt_omit_self]. *)
Definition omit_self_applies (fdef : FunctionDef) (ismethod : bool) (os : pyval) : bool :=
  ismethod && truthy os && negb (is_static_method fdef).

(** The node [arglist] hands to [astor.to_source]: the copy, after the
    drop and the clearing that apply. *)
Definition rendered_node (a : ast_arguments) (omit od : bool) : ast_arguments :=
  let a1 := if omit then drop_first a else a in
  if od then clear_defaults a1 else a1.

(** A property of the world that an action keeps. *)
Definition preserves {A} (P : World -> Prop) (m : M A) : Prop :=
  forall w, P w -> P (snd (m w)).

(** The store is [h] and one more object. *)
Definition has_copy (h : list ast_arguments) (w : World) : Prop :=
  exists b, heap w = h ++ [b].

(** The exceptions an action may raise all satisfy [E]. *)
Definition may_raise {A} (E : exn -> Prop) (m : M A) : Prop :=
  forall w e, fst (m w) = inl e -> E e.

(** The prefix the loop over the rendered bases leaves. *)
Fixpoint prefix_after (rendered : list string) (prefix : string) : string :=
  match rendered with
  | [] => prefix
  | e :: rest =>
      if String.eqb e "object" then prefix_after rest prefix
      else if String.eqb e "ABC" then prefix_after rest "abstract class"
      else if String.eqb e "Enum" then prefix_after rest "enum"
      else prefix_after rest prefix
  end.

(** The exceptions of [arglist]: a malformed boolean option, the pop on
    an empty parameter list, a reference to no object. *)
Definition arglist_exn (e : exn) : Prop :=
  e = ValueError \/ e = IndexError \/ e = InvalidReference.

Create HintDb steps.

(** ** Sample inputs *)

(** [def area(self, x=None)], [def run()] and [def make(x, y=zero)]. *)
Definition sample_store : list ast_arguments :=
  [ mk_arguments [] [mk_arg "self" None; mk_arg "x" None] None [] [] None [Name "None"];
    mk_arguments [] [] None [] [] None [];
    mk_arguments [] [mk_arg "x" None; mk_arg "y" None] None [] [] None [Name "zero"] ].

Definition sample_method : FunctionDef := mk_fdef "area" 0 [] None.
Definition sample_noargs : FunctionDef := mk_fdef "run" 1 [] None.
Definition sample_static : FunctionDef := mk_fdef "make" 2 [Name "staticmethod"] None.

(** [class Foo(ABC, Enum)] and [class IShape(ABC)]. *)
Definition sample_class : ClassInfo :=
  mk_classinfo "Foo" [Name "ABC"; Name "Enum"] [] [] [].
Definition sample_interface : ClassInfo :=
  mk_classinfo "IShape" [Name "ABC"] [] [] [sample_method].

(** Configurations: self and defaults omitted; self omitted and argument
    lists switched off; module globals written. *)
Definition sample_config_omit : gmap (string * string) string :=
  list_to_map [(("methods", "omit-self"), "true"); (("methods", "omit-defaults"), "yes")].
Definition sample_config_quiet : gmap (string * string) string :=
  list_to_map [(("methods", "omit-self"), "true"); (("methods", "write-arg-list"), "off")].
Definition sample_config_globals : gmap (string * string) string :=
  list_to_map [(("module", "write-globals"), "true")].

Definition sample_world : World := PUML_Generator_init None sample_store.
Definition sample_world_omit : World := PUML_Generator_init (Some sample_config_omit) sample_store.
Definition sample_world_quiet : World := PUML_Generator_init (Some sample_config_quiet) sample_store.
Definition sample_world_ns : World := PUML_Generator_NS_init "." None sample_store.

(** The namespace tracker after the file [a/b/c.py]. *)
Definition sample_world_abc : World :=
  mk_world PUML_Generator_NS
    (open_chunks 0 ["a"; "b"; "c"]) [] false None (Some "a/b/c.py") ∅ [] "." ["a"; "b"; "c"]
    sample_store [].

(** The namespace tracker with the relation of [class Bar(Foo)], of
    package [pkg], recorded before [Foo] itself is rendered. *)
Definition sample_world_late : World :=
  mk_world PUML_Generator_NS [] [] false None None {["Bar" := "pkg."]} [("Foo", "Bar")]
    "." ["pkg"] sample_store [].

(** ** Vocabulary of the further properties *)

(** The name [has_decorator] looks into: the identifier of a name, the
    attribute of an attribute access, nothing for any other node. *)
Definition simple_name (dec : expr) : option string :=
  match dec with
  | Name id => Some id
  | Attribute _ attr => Some attr
  | OtherExpr _ => None
  end.

(** An action that keeps the value of an attribute of the world. *)
Definition keeps {X A} (f : World -> X) (m : M A) : Prop :=
  forall w, f (snd (m w)) = f w.

(** An attribute that does not depend on the streams. *)
Definition stream_blind {X} (f : World -> X) : Prop :=
  (forall d w, f (set_dest d w) = f w) /\ (forall d w, f (set_footer_dest d w) = f w).

(** An attribute that does not depend on the store and the log. *)
Definition store_blind {X} (f : World -> X) : Prop :=
  (forall h w, f (set_heap h w) = f w) /\ (forall l w, f (set_log l w) = f w).

(** An action that raises in every world. *)
Definition always_fails {A} (m : M A) : Prop :=
  forall w, exists e, fst (m w) = inl e.

(** The bases [print_classinfo] does not record as relations. *)
Definition is_marker_base (e : string) : bool :=
  String.eqb e "object" || String.eqb e "ABC" || String.eqb e "Enum".

(** [expr.split('.')[-1]] *)
Definition last_segment (e : string) : string :=
  default "" (last (Py.split "." e)).

(** The relations the loop over the bases records for a class. *)
Definition recorded_relations (cn : string) (rendered : list string) : list (string * string) :=
  map (fun e => (last_segment e, cn))
      (List.filter (fun e => negb (is_marker_base e)) rendered).

(** A path with its separators turned into dots. *)
Fixpoint dotted (s : string) : string :=
  match s with
  | EmptyString => EmptyString
  | String c r => String (if Ascii.eqb c "/" then "."%char else c) (dotted r)
  end.

Create HintDb keeps.

(** The record logged when the entry popped from [args.args] is not
    named [self]. *)
Definition self_warning (fdef : FunctionDef) (a : ast_arguments) (omit : bool)
    : list (loglevel * string * list string) :=
  if omit then
    match args a with
    | x :: _ =>
        if String.eqb (arg x) "self" then []
        else [(WARNING, "Unexpected name %r for method 'self' parameter in %s()",
               [arg x; fd_name fdef])]
    | [] => []
    end
  else [].

(** The texts a stream receives when each of [lines] is printed at the
    indentation of [w]. *)
Definition printed_lines (w : World) (lines : list string) : list string :=
  flat_map (fun l => indent_chunks w ++ [l]) lines.

(** An action that prints whole lines, each at the current indentation;
    when it returns, the lines it printed satisfy [Q]. *)
Definition prints {A} (Q : list string -> Prop) (m : M A) : Prop :=
  forall w,
    body_step w (snd (m w)) /\
    exists lines,
      out_stream (snd (m w)) = out_stream w ++ printed_lines w lines /\
      (forall a, fst (m w) = inr a -> Q lines).

(** The lines of two actions in sequence. *)
Definition lines_then (Q1 Q2 : list string -> Prop) (lines : list string) : Prop :=
  exists l1 l2, lines = l1 ++ l2 /\ Q1 l1 /\ Q2 l2.

(** The lines of a class block and of the module block. *)
Definition static_line (m : string) : string :=
  Py.print_text [TAB +:+ "{static}"; classinfo_visibility m +:+ m] NL.
Definition member_line (m : string) : string :=
  Py.print_text [TAB +:+ classinfo_visibility m +:+ m] NL.
Definition variable_line (name : string) : string :=
  Py.print_text [TAB +:+ codeinfo_visibility name +:+ name] NL.
Definition block_end : string := Py.print_text ["}" +:+ NL] NL.

(** The prolog text the header prints, if any, and the epilog text of a
    configuration. *)
Definition prolog_text (cfg : option (gmap (string * string) string)) : list string :=
  match cfg with
  | Some c =>
      match c !! ("puml", "prolog") with
      | Some prolog => if String.eqb prolog "" then [] else [Py.print_text [prolog +:+ NL] NL]
      | None => []
      end
  | None => []
  end.
Definition epilog_text (cfg : option (gmap (string * string) string)) : list string :=
  match cfg with
  | Some c =>
      match c !! ("puml", "epilog") with
      | Some epilog => if String.eqb epilog "" then [] else [Py.print_text [epilog +:+ NL] NL]
      | None => []
      end
  | None => []
  end.

(** Further sample inputs: a property, a method decorated by a call, a
    class method whose first parameter is not [self], and the classes
    [View], with the decorated method, and [Bar(pkg.Foo, object)]. *)
Definition sample_property : FunctionDef :=
  mk_fdef "size" 0 [Name "property"] (Some (Name "int")).
Definition sample_route : FunctionDef := mk_fdef "index" 0 [OtherExpr 0] None.
Definition sample_classmethod : FunctionDef := mk_fdef "build" 2 [Name "classmethod"] None.
Definition sample_view : ClassInfo := mk_classinfo "View" [] [] [] [sample_route].
Definition sample_derived : ClassInfo :=
  mk_classinfo "Bar" [Attribute (Name "pkg") "Foo"; Name "object"] [] [] [].

(** A configuration with built-in types, and a constructor decorated by
    a call. *)
Definition sample_config_types : gmap (string * string) string :=
  list_to_map [(("methods", "built-in-types"), "['int']")].
Definition sample_world_types : World :=
  PUML_Generator_init (Some sample_config_types) sample_store.
Definition sample_constructor : FunctionDef := mk_fdef "__init__" 0 [OtherExpr 0] None.

(** Parameters of other kinds: [gather], whose only parameter is the
    starred [rest], and [move], whose [self] is positional-only and is
    followed by [x]. *)
Definition sample_store_kinds : list ast_arguments :=
  [ mk_arguments [] [] (Some (mk_arg "rest" None)) [] [] None [];
    mk_arguments [mk_arg "self" None] [mk_arg "x" None] None [] [] None [] ].
Definition sample_gather : FunctionDef := mk_fdef "gather" 0 [] None.
Definition sample_move : FunctionDef := mk_fdef "move" 1 [] None.
Definition sample_world_kinds : World :=
  PUML_Generator_init (Some sample_config_omit) sample_store_kinds.

(** * Properties *)

(** ** The monad *)

#[local] Arguments Py.print_text : simpl never.
#[local] Arguments Py.repeat : simpl never.

Ltac unfold_monad :=
  unfold bind, ret, raise, gets, modify, lift in *.

Lemma body_step_refl (w : World) : body_step w w.
Proof.
  constructor; try reflexivity; exists []; symmetry; apply app_nil_r.
Qed.

Lemma body_step_trans (w1 w2 w3 : World) :
  body_step w1 w2 -> body_step w2 w3 -> body_step w1 w3.
Proof.
  intros [k1 f1 c1 m1 n1 r1 [tr1 R1] [td1 D1] [tf1 F1]]
         [k2 f2 c2 m2 n2 r2 [tr2 R2] [td2 D2] [tf2 F2]].
  constructor; try congruence.
  - exists (tr1 ++ tr2). rewrite R2, R1. symmetry. apply app_assoc.
  - exists (td1 ++ td2). rewrite D2, D1. symmetry. apply app_assoc.
  - exists (tf1 ++ tf2). rewrite F2, F1. symmetry. apply app_assoc.
Qed.

Lemma bind_run {A B} (m : M A) (k : A -> M B) (w : World) :
  bind m k w = match m w with (inr a, w') => k a w' | (inl e, w') => (inl e, w') end.
Proof. reflexivity. Qed.

Lemma steps_bind {A B} (m : M A) (k : A -> M B) :
  steps m -> (forall a, steps (k a)) -> steps (bind m k).
Proof.
  intros Hm Hk w. unfold bind. specialize (Hm w).
  destruct (m w) as [[e | a] w1]; simpl in *.
  - exact Hm.
  - eapply body_step_trans; [exact Hm | apply Hk].
Qed.

Lemma steps_for_each {A} (body : A -> M unit) (l : list A) :
  (forall a, steps (body a)) -> steps (for_each l body).
Proof.
  intros Hbody. induction l as [| x rest IH]; simpl.
  - intros w. apply body_step_refl.
  - apply steps_bind; [apply Hbody | intros _; apply IH].
Qed.

Lemma steps_ret {A} (a : A) : steps (ret a).
Proof. intros w. apply body_step_refl. Qed.

Lemma steps_raise {A} (e : exn) : steps (@raise A e).
Proof. intros w. apply body_step_refl. Qed.

Lemma steps_lift {A} (r : exn + A) : steps (lift r).
Proof. intros w. apply body_step_refl. Qed.

Lemma steps_gets {A} (f : World -> A) : steps (gets f).
Proof. intros w. apply body_step_refl. Qed.

(** An action that only reads the world. *)
Lemma steps_reads {A} (m : M A) : (forall w, m w = (fst (m w), w)) -> steps m.
Proof. intros E w. rewrite E. apply body_step_refl. Qed.

(** ** Output *)

Lemma steps_output (args_ : list string) : steps (output args_).
Proof.
  intros w. unfold output, PUML_Generator_NS_output, PUML_Generator_output, depth.
  unfold_monad.
  destruct w as [k d fd f c sn cim ir r ns h lg].
  destruct k, ns, f; simpl;
    constructor; simpl; try reflexivity;
    try (exists []; symmetry; apply app_nil_r);
    try (eexists; reflexivity);
    try (eexists; rewrite <- app_assoc; reflexivity).
Qed.

(** One [output] call puts the indentation, if any, then its line on
    the current stream. *)
Lemma output_out_stream (args_ : list string) (w : World) :
  fst (output args_ w) = inr tt /\
  out_stream (snd (output args_ w)) =
    out_stream w ++ indent_chunks w ++ [Py.print_text args_ NL].
Proof.
  unfold output, PUML_Generator_NS_output, PUML_Generator_output, out_stream,
    indent_chunks, depth.
  unfold_monad.
  destruct w as [k d fd f c sn cim ir r ns h lg].
  destruct k, ns, f; simpl; split; try reflexivity;
    rewrite <- ?app_assoc; reflexivity.
Qed.

Lemma body_step_out_stream (w w' : World) :
  body_step w w' -> exists t, out_stream w' = (out_stream w ++ t).
Proof.
  intros [k f c m n r _ D F]. unfold out_stream. rewrite f.
  destruct (in_footer w); assumption.
Qed.

(** ** Option accessors *)

(** The accessors only read [self.config]. *)
Lemma opt_globals_reads (w : World) : opt_globals w = (fst (opt_globals w), w).
Proof.
  unfold opt_globals. unfold_monad. destruct (config w) as [c |]; [| reflexivity].
  destruct (cfg_getboolean c "module" "write-globals" false); reflexivity.
Qed.

Lemma opt_omit_self_reads (w : World) : opt_omit_self w = (fst (opt_omit_self w), w).
Proof.
  unfold opt_omit_self. unfold_monad. destruct (config w) as [c |]; [| reflexivity].
  destruct (cfg_getboolean c "methods" "omit-self" false); reflexivity.
Qed.

Lemma opt_write_arglist_reads (section : string) (w : World) :
  opt_write_arglist section w = (fst (opt_write_arglist section w), w).
Proof.
  unfold opt_write_arglist. unfold_monad. destruct (config w) as [c |]; [| reflexivity].
  destruct (cfg_getboolean c section "write-arg-list" true); reflexivity.
Qed.

Lemma opt_omit_defaults_reads (section : string) (w : World) :
  opt_omit_defaults section w = (fst (opt_omit_defaults section w), w).
Proof.
  unfold opt_omit_defaults. unfold_monad. destruct (config w) as [c |]; [| reflexivity].
  destruct (cfg_getboolean c section "omit-defaults" false); reflexivity.
Qed.

Lemma opt_builtin_types_reads (section : string) (w : World) :
  opt_builtin_types section w = (fst (opt_builtin_types section w), w).
Proof.
  unfold opt_builtin_types. unfold_monad. destruct (config w) as [c |]; [| reflexivity].
  simpl. destruct (cfg_get c section "built-in-types" (PyStr "[]")); reflexivity.
Qed.

(** Their value depends on the configuration alone. *)
Lemma opt_omit_self_config (w1 w2 : World) :
  config w1 = config w2 -> fst (opt_omit_self w1) = fst (opt_omit_self w2).
Proof.
  intros E. unfold opt_omit_self. unfold_monad. rewrite E.
  destruct (config w2) as [c |]; [| reflexivity].
  destruct (cfg_getboolean c "methods" "omit-self" false); reflexivity.
Qed.

Lemma opt_omit_defaults_config (section : string) (w1 w2 : World) :
  config w1 = config w2 ->
  fst (opt_omit_defaults section w1) = fst (opt_omit_defaults section w2).
Proof.
  intros E. unfold opt_omit_defaults. unfold_monad. rewrite E.
  destruct (config w2) as [c |]; [| reflexivity].
  destruct (cfg_getboolean c section "omit-defaults" false); reflexivity.
Qed.

(** The boolean accessors raise nothing but [ValueError]. *)
Lemma opt_globals_raises (w : World) (e : exn) :
  fst (opt_globals w) = inl e -> e = ValueError.
Proof.
  unfold opt_globals, cfg_getboolean. unfold_monad.
  destruct (config w) as [c |]; [| discriminate]. simpl.
  destruct (c !! ("module", "write-globals")) as [v |]; [| discriminate].
  destruct (BOOLEAN_STATES (Py.lower v)); simpl; congruence.
Qed.

Lemma opt_omit_self_raises (w : World) (e : exn) :
  fst (opt_omit_self w) = inl e -> e = ValueError.
Proof.
  unfold opt_omit_self, cfg_getboolean. unfold_monad.
  destruct (config w) as [c |]; [| discriminate]. simpl.
  destruct (c !! ("methods", "omit-self")) as [v |]; [| discriminate].
  destruct (BOOLEAN_STATES (Py.lower v)); simpl; congruence.
Qed.

Lemma opt_write_arglist_raises (section : string) (w : World) (e : exn) :
  fst (opt_write_arglist section w) = inl e -> e = ValueError.
Proof.
  unfold opt_write_arglist, cfg_getboolean. unfold_monad.
  destruct (config w) as [c |]; [| discriminate]. simpl.
  destruct (c !! (section, "write-arg-list")) as [v |]; [| discriminate].
  destruct (BOOLEAN_STATES (Py.lower v)); simpl; congruence.
Qed.

Lemma opt_omit_defaults_raises (section : string) (w : World) (e : exn) :
  fst (opt_omit_defaults section w) = inl e -> e = ValueError.
Proof.
  unfold opt_omit_defaults, cfg_getboolean. unfold_monad.
  destruct (config w) as [c |]; [| discriminate]. simpl.
  destruct (c !! (section, "omit-defaults")) as [v |]; [| discriminate].
  destruct (BOOLEAN_STATES (Py.lower v)); simpl; congruence.
Qed.

(** C8 (as amended): without a configuration source no accessor raises
    or changes the generator; [opt_write_arglist] returns [True] and
    [opt_builtin_types] the empty list; [opt_globals], [opt_omit_defaults]
    and [opt_omit_self] return a false value, so these options read as
    off; [opt_prolog] and [opt_epilog] return a false value that is not
    a string, so not the empty string. *)
Theorem options_without_config (w : World) (section : string) :
  config w = None ->
  opt_write_arglist section w = (inr (PyBool true), w) /\
  opt_builtin_types section w = (inr (PyList []), w) /\
  (exists g d s,
     opt_globals w = (inr g, w) /\ opt_omit_defaults section w = (inr d, w) /\
     opt_omit_self w = (inr s, w) /\
     truthy g = false /\ truthy d = false /\ truthy s = false) /\
  (exists p e,
     opt_prolog w = (inr p, w) /\ opt_epilog w = (inr e, w) /\
     truthy p = false /\ truthy e = false /\
     (forall t, p <> PyStr t) /\ (forall t, e <> PyStr t)).
Proof.
  intros E.
  unfold opt_globals, opt_write_arglist, opt_omit_defaults, opt_omit_self,
    opt_builtin_types, opt_prolog, opt_epilog.
  unfold_monad. rewrite E.
  split; [reflexivity |]. split; [reflexivity |]. split.
  - exists PyNone, PyNone, PyNone. repeat split.
  - exists PyNone, PyNone.
    split; [reflexivity |]. split; [reflexivity |].
    split; [reflexivity |]. split; [reflexivity |].
    split; intros t; discriminate.
Qed.

(** ** Decorators *)

(** A method is static exactly when it carries the simple name
    [staticmethod] as a decorator. *)
Lemma is_static_method_spec (meth : FunctionDef) :
  is_static_method meth = true <-> In (Name "staticmethod") (decorator_list meth).
Proof.
  unfold is_static_method. induction (decorator_list meth) as [| dec rest IH]; simpl.
  - split; [discriminate | intros []].
  - destruct dec as [id | value attr | node].
    + destruct (String.eqb_spec id "staticmethod") as [-> | Hne].
      * split; [intros _; left; reflexivity | reflexivity].
      * rewrite IH. split; [intros Hin; right; exact Hin |].
        intros [Heq | Hin]; [injection Heq as ->; contradiction | exact Hin].
    + rewrite IH. split; [intros Hin; right; exact Hin |].
      intros [Heq | Hin]; [discriminate | exact Hin].
    + rewrite IH. split; [intros Hin; right; exact Hin |].
      intros [Heq | Hin]; [discriminate | exact Hin].
Qed.

(** ** The store and [arglist] *)

Lemma lookup_new {A} (h : list A) (a : A) : (h ++ [a]) !! length h = Some a.
Proof. apply list_lookup_middle. reflexivity. Qed.

Lemma insert_new {A} (h : list A) (a b : A) : <[length h := b]> (h ++ [a]) = h ++ [b].
Proof.
  replace (length h) with (length h + 0) by lia.
  rewrite insert_app_r. reflexivity.
Qed.

Lemma deepcopy_run (l : loc) (a : ast_arguments) (w : World) :
  heap w !! l = Some a ->
  deepcopy l w = (inr (length (heap w)), set_heap (heap w ++ [a]) w).
Proof. intros E. unfold deepcopy, load, bind. rewrite E. reflexivity. Qed.

Lemma deepcopy_fail (l : loc) (w : World) :
  heap w !! l = None -> deepcopy l w = (inl InvalidReference, w).
Proof. intros E. unfold deepcopy, load, bind. rewrite E. reflexivity. Qed.

Lemma load_new (h : list ast_arguments) (b : ast_arguments) (w : World) :
  heap w = h ++ [b] -> load (length h) w = (inr b, w).
Proof. intros E. unfold load. rewrite E, lookup_new. reflexivity. Qed.

Lemma args_pop0_new (h : list ast_arguments) (b : ast_arguments) (w : World) :
  heap w = h ++ [b] ->
  args_pop0 (length h) w =
    match args b with
    | [] => (inl IndexError, w)
    | x :: _ => (inr x, set_heap (h ++ [drop_first b]) w)
    end.
Proof.
  intros E. unfold args_pop0. rewrite bind_run, (load_new h b w E).
  destruct (args b) as [| x rest] eqn:Ea; [reflexivity |].
  unfold bind, modify, ret, drop_first. rewrite E, insert_new, Ea. reflexivity.
Qed.

Lemma clear_defaults_new (h : list ast_arguments) (b : ast_arguments) (w : World) :
  heap w = h ++ [b] ->
  (set_defaults (length h) [] ;;; set_kw_defaults (length h) []) w =
    (inr tt, set_heap (h ++ [clear_defaults b]) w).
Proof.
  intros E. unfold set_defaults, set_kw_defaults.
  rewrite bind_run, bind_run, (load_new h b w E). unfold modify at 1.
  rewrite bind_run.
  erewrite load_new; [| simpl; rewrite E, insert_new; reflexivity ].
  unfold modify. simpl. rewrite E, insert_new, insert_new. reflexivity.
Qed.

Lemma preserves_bind {A B} (P : World -> Prop) (m : M A) (k : A -> M B) :
  preserves P m -> (forall a, preserves P (k a)) -> preserves P (bind m k).
Proof.
  intros Hm Hk w Pw. unfold bind. specialize (Hm w Pw).
  destruct (m w) as [[e | a] w1]; simpl in *; [exact Hm | apply Hk, Hm].
Qed.

Lemma preserves_reads {A} (P : World -> Prop) (m : M A) :
  (forall w, m w = (fst (m w), w)) -> preserves P m.
Proof. intros E w Pw. rewrite E. exact Pw. Qed.

Lemma arglist_tail_copy (h : list ast_arguments) (fdef : FunctionDef) (ism : bool) :
  preserves (has_copy h)
    (omit <- (if ism
               then os <- opt_omit_self ;; ret (truthy os && negb (is_static_method fdef))
               else ret false) ;;
      (if omit : bool
       then self_arg <- args_pop0 (length h) ;;
            if String.eqb (arg self_arg) "self" then ret tt
            else logger_warning "Unexpected name %r for method 'self' parameter in %s()"
                   [arg self_arg; fd_name fdef]
       else ret tt) ;;;
      od <- opt_omit_defaults (if ism then "methods" else "module") ;;
      (if truthy od
       then set_defaults (length h) [] ;;; set_kw_defaults (length h) []
       else ret tt) ;;;
      a <- load (length h) ;;
      ret (Py.rstrip (to_source_arguments a))).
Proof.
  apply preserves_bind.
  { destruct ism.
    - apply preserves_bind; [apply preserves_reads, opt_omit_self_reads |].
      intros os w Pw; exact Pw.
    - intros w Pw; exact Pw. }
  intros omit. apply preserves_bind.
  { destruct omit; [| intros w Pw; exact Pw].
    apply preserves_bind.
    - intros w [b E]. rewrite (args_pop0_new h b w E).
      destruct (args b); [exists b; exact E |]. eexists. reflexivity.
    - intros x. destruct (String.eqb (arg x) "self"); intros w [b E]; exists b; exact E. }
  intros _. apply preserves_bind; [apply preserves_reads, opt_omit_defaults_reads |].
  intros od. apply preserves_bind.
  { destruct (truthy od); [| intros w Pw; exact Pw].
    intros w [b E]. rewrite (clear_defaults_new h b w E). eexists. reflexivity. }
  intros _. apply preserves_bind.
  - intros w [b E]. rewrite (load_new h b w E). exists b. exact E.
  - intros a w Pw. exact Pw.
Qed.

Lemma arglist_suppressed fdef ism w wa :
  fst (opt_write_arglist (section_of ism) w) = inr wa -> truthy wa = false ->
  arglist fdef ism w = (inr "", w).
Proof.
  intros Hwa Ht. unfold arglist. fold (section_of ism).
  rewrite bind_run, opt_write_arglist_reads, Hwa, Ht. reflexivity.
Qed.

Lemma arglist_eval fdef ism a w wa os od :
  heap w !! fd_args fdef = Some a ->
  fst (opt_write_arglist (section_of ism) w) = inr wa -> truthy wa = true ->
  (if ism then fst (opt_omit_self w) else inr PyNone) = inr os ->
  fst (opt_omit_defaults (section_of ism) w) = inr od ->
  (omit_self_applies fdef ism os = true -> args a <> []) ->
  fst (arglist fdef ism w) =
    inr (Py.rstrip (to_source_arguments
           (rendered_node a (omit_self_applies fdef ism os) (truthy od)))) /\
  heap (snd (arglist fdef ism w)) =
    heap w ++ [rendered_node a (omit_self_applies fdef ism os) (truthy od)].
Proof.
  intros Hl Hwa Ht Hos Hod Hne. unfold arglist. fold (section_of ism).
  rewrite bind_run, opt_write_arglist_reads, Hwa, Ht. simpl.
  rewrite bind_run, (deepcopy_run _ a w Hl).
  set (w1 := set_heap (heap w ++ [a]) w).
  assert (E1 : heap w1 = heap w ++ [a]) by reflexivity.
  rewrite bind_run.
  assert (Eomit :
    (if ism
     then os <- opt_omit_self;; ret (truthy os && negb (is_static_method fdef))
     else ret false) w1 = (inr (omit_self_applies fdef ism os), w1)).
  { unfold omit_self_applies. destruct ism; simpl.
    - rewrite bind_run, opt_omit_self_reads.
      rewrite (opt_omit_self_config w1 w eq_refl), Hos. reflexivity.
    - reflexivity. }
  rewrite Eomit. clear Eomit.
  rewrite bind_run.
  assert (Epop : exists w2,
    (if omit_self_applies fdef ism os
     then self_arg <- args_pop0 (length (heap w)) ;;
          if String.eqb (arg self_arg) "self" then ret tt
          else logger_warning "Unexpected name %r for method 'self' parameter in %s()"
                 [arg self_arg; fd_name fdef]
     else ret tt) w1 = (inr tt, w2) /\ config w2 = config w /\
    heap w2 = heap w ++ [if omit_self_applies fdef ism os then drop_first a else a]).
  { destruct (omit_self_applies fdef ism os).
    - rewrite bind_run, (args_pop0_new (heap w) a w1 E1).
      destruct (args a) as [| x rest]; [exfalso; apply Hne; reflexivity |].
      destruct (String.eqb (arg x) "self"); eexists; repeat split.
    - eexists; repeat split. }
  destruct Epop as (w2 & Epop & Ec2 & Eh2). rewrite Epop. clear Epop.
  rewrite bind_run, opt_omit_defaults_reads.
  rewrite (opt_omit_defaults_config _ w2 w Ec2), Hod.
  rewrite bind_run. unfold rendered_node. cbv zeta.
  destruct (truthy od).
  - rewrite (clear_defaults_new (heap w) _ w2 Eh2).
    rewrite bind_run. erewrite load_new by reflexivity. split; reflexivity.
  - unfold ret. cbv beta iota. rewrite bind_run, (load_new (heap w) _ w2 Eh2).
    split; [reflexivity | exact Eh2].
Qed.

Lemma arglist_pop_empty fdef a w wa os :
  heap w !! fd_args fdef = Some a ->
  fst (opt_write_arglist "methods" w) = inr wa -> truthy wa = true ->
  fst (opt_omit_self w) = inr os ->
  omit_self_applies fdef true os = true -> args a = [] ->
  fst (arglist fdef true w) = inl IndexError.
Proof.
  intros Hl Hwa Ht Hos Homit Ha. unfold arglist.
  rewrite bind_run, opt_write_arglist_reads, Hwa, Ht. simpl.
  rewrite bind_run, (deepcopy_run _ a w Hl).
  set (w1 := set_heap (heap w ++ [a]) w).
  rewrite bind_run, bind_run, opt_omit_self_reads.
  rewrite (opt_omit_self_config w1 w eq_refl), Hos.
  unfold omit_self_applies in Homit. simpl in Homit. unfold ret at 1. rewrite Homit.
  rewrite bind_run, bind_run, (args_pop0_new (heap w) a w1 eq_refl), Ha. reflexivity.
Qed.

Lemma arglist_store_cases (fdef : FunctionDef) (ism : bool) (w : World) :
  heap (snd (arglist fdef ism w)) = heap w \/
  exists a b, heap w !! fd_args fdef = Some a /\
              heap (snd (arglist fdef ism w)) = heap w ++ [b].
Proof.
  unfold arglist. rewrite bind_run, opt_write_arglist_reads.
  destruct (fst (opt_write_arglist _ w)) as [e | wa]; [left; reflexivity |].
  destruct (negb (truthy wa)); [left; reflexivity |].
  rewrite bind_run.
  destruct (heap w !! fd_args fdef) as [a |] eqn:El.
  - rewrite (deepcopy_run _ a w El). right.
    destruct (arglist_tail_copy (heap w) fdef ism (set_heap (heap w ++ [a]) w)) as [b Eb].
    + exists a. reflexivity.
    + exists a, b. split; [reflexivity | exact Eb].
  - rewrite (deepcopy_fail _ w El). left; reflexivity.
Qed.

(** C7: [arglist] leaves the descriptor unchanged.  The object behind
    [fdef.args], with its parameter list and its default expressions, is
    the same before and after the call, whatever the options and whether
    the call returns or raises: the store only grows, by the copy. *)
Theorem arglist_keeps_descriptor (fdef : FunctionDef) (ismethod : bool) (w : World) :
  heap (snd (arglist fdef ismethod w)) !! fd_args fdef = heap w !! fd_args fdef /\
  exists t, heap (snd (arglist fdef ismethod w)) = heap w ++ t.
Proof.
  destruct (arglist_store_cases fdef ismethod w) as [E | (a & b & El & E)]; rewrite E.
  - split; [reflexivity | exists []; symmetry; apply app_nil_r].
  - split; [| exists [b]; reflexivity].
    rewrite El. apply lookup_app_l_Some. exact El.
Qed.

(** C5 (as amended): with omit-self enabled, [arglist] on a method that
    carries the exact [staticmethod] decorator drops no parameter.  When
    argument lists are written, the node it renders has every parameter
    of the descriptor, of every kind; when they are switched off, the
    empty text is returned and no parameter is rendered at all. *)
Theorem arglist_static_keeps_parameters (fdef : FunctionDef) (a : ast_arguments)
    (w : World) (wa os od : pyval) :
  heap w !! fd_args fdef = Some a ->
  In (Name "staticmethod") (decorator_list fdef) ->
  fst (opt_omit_self w) = inr os -> truthy os = true ->
  fst (opt_write_arglist "methods" w) = inr wa ->
  fst (opt_omit_defaults "methods" w) = inr od ->
  exists a',
    posonlyargs a' = posonlyargs a /\ args a' = args a /\ vararg a' = vararg a /\
    kwonlyargs a' = kwonlyargs a /\ kwarg a' = kwarg a /\
    fst (arglist fdef true w) =
      inr (if truthy wa then Py.rstrip (to_source_arguments a') else "") /\
    (truthy wa = true -> heap (snd (arglist fdef true w)) = heap w ++ [a']) /\
    (truthy wa = false -> arglist fdef true w = (inr "", w)).
Proof.
  intros Hl Hdec Hos Hto Hwa Hod.
  assert (Hst : is_static_method fdef = true) by (apply is_static_method_spec; exact Hdec).
  assert (Eomit : omit_self_applies fdef true os = false).
  { unfold omit_self_applies. rewrite Hst, Hto. reflexivity. }
  exists (rendered_node a false (truthy od)).
  assert (Hfields : forall b : bool,
    posonlyargs (rendered_node a false b) = posonlyargs a /\
    args (rendered_node a false b) = args a /\ vararg (rendered_node a false b) = vararg a /\
    kwonlyargs (rendered_node a false b) = kwonlyargs a /\
    kwarg (rendered_node a false b) = kwarg a).
  { intros []; repeat split. }
  destruct (Hfields (truthy od)) as (F0 & F1 & F2 & F3 & F4).
  repeat (split; [assumption |]).
  destruct (truthy wa) eqn:Ht.
  - destruct (arglist_eval fdef true a w wa os od Hl Hwa Ht Hos Hod) as [E1 E2].
    + rewrite Eomit. discriminate.
    + rewrite Eomit in E1, E2.
      split; [exact E1 |]. split; [intros _; exact E2 | discriminate].
  - rewrite (arglist_suppressed fdef true w wa Hwa Ht).
    split; [reflexivity |]. split; [discriminate | reflexivity].
Qed.

(** C6: with omit-defaults enabled for the section, the text [arglist]
    returns is rendered from a node whose default expressions, positional
    and keyword, are all cleared; that node is the same as for a
    descriptor that declares no default at all. *)
Theorem arglist_omit_defaults (fdef : FunctionDef) (ismethod : bool) (a : ast_arguments)
    (w : World) (wa os od : pyval) :
  heap w !! fd_args fdef = Some a ->
  fst (opt_omit_defaults (section_of ismethod) w) = inr od -> truthy od = true ->
  fst (opt_write_arglist (section_of ismethod) w) = inr wa ->
  (if ismethod then fst (opt_omit_self w) else inr PyNone) = inr os ->
  (omit_self_applies fdef ismethod os = true -> args a <> []) ->
  exists a',
    defaults a' = [] /\ kw_defaults a' = [] /\
    a' = rendered_node (clear_defaults a) (omit_self_applies fdef ismethod os) true /\
    fst (arglist fdef ismethod w) =
      inr (if truthy wa then Py.rstrip (to_source_arguments a') else "").
Proof.
  intros Hl Hod Hto Hwa Hos Hne.
  exists (rendered_node a (omit_self_applies fdef ismethod os) true).
  split; [reflexivity |]. split; [reflexivity |].
  split; [destruct (omit_self_applies fdef ismethod os); reflexivity |].
  destruct (truthy wa) eqn:Ht.
  - destruct (arglist_eval fdef ismethod a w wa os od Hl Hwa Ht Hos Hod Hne) as [E1 _].
    rewrite Hto in E1. exact E1.
  - rewrite (arglist_suppressed fdef ismethod w wa Hwa Ht). reflexivity.
Qed.

(** C9 (as amended): [arglist] is partial.  On a method without the
    [staticmethod] decorator, with omit-self enabled and argument lists
    written, an empty [args.args] list makes [args.args.pop(0)] raise
    [IndexError], whatever positional-only, starred and keyword-only
    parameters the method declares; with a non-empty [args.args] list
    and a well-formed omit-defaults option the call returns. *)
Theorem arglist_pop_needs_parameter (fdef : FunctionDef) (a : ast_arguments)
    (w : World) (wa os : pyval) :
  heap w !! fd_args fdef = Some a ->
  ~ In (Name "staticmethod") (decorator_list fdef) ->
  fst (opt_omit_self w) = inr os -> truthy os = true ->
  fst (opt_write_arglist "methods" w) = inr wa -> truthy wa = true ->
  (args a = [] -> fst (arglist fdef true w) = inl IndexError) /\
  (args a <> [] ->
   forall od, fst (opt_omit_defaults "methods" w) = inr od ->
   exists s, fst (arglist fdef true w) = inr s).
Proof.
  intros Hl Hdec Hos Hto Hwa Htw.
  assert (Hst : is_static_method fdef = false).
  { destruct (is_static_method fdef) eqn:Est; [| reflexivity].
    exfalso. apply Hdec, is_static_method_spec. exact Est. }
  assert (Eomit : omit_self_applies fdef true os = true).
  { unfold omit_self_applies. rewrite Hst, Hto. reflexivity. }
  split.
  - intros Ha. exact (arglist_pop_empty fdef a w wa os Hl Hwa Htw Hos Eomit Ha).
  - intros Ha od Hod.
    destruct (arglist_eval fdef true a w wa os od Hl Hwa Htw Hos Hod) as [E1 _].
    + intros _. exact Ha.
    + eexists. exact E1.
Qed.

(** ** Frames of the primitive actions *)

Lemma steps_modify_heap (f : World -> list ast_arguments) :
  steps (modify (fun w => set_heap (f w) w)).
Proof.
  intros w. simpl. constructor; simpl; try reflexivity; exists []; symmetry; apply app_nil_r.
Qed.

Lemma steps_modify_log (f : World -> list (loglevel * string * list string)) :
  steps (modify (fun w => set_log (f w) w)).
Proof.
  intros w. simpl. constructor; simpl; try reflexivity; exists []; symmetry; apply app_nil_r.
Qed.

Lemma steps_modify_relations (x : string * string) :
  steps (modify (fun w => set_inherit_relations (inherit_relations w ++ [x]) w)).
Proof.
  intros w. simpl. constructor; simpl; try reflexivity;
    try (exists []; symmetry; apply app_nil_r).
  exists [x]. reflexivity.
Qed.

Lemma steps_load (l : loc) : steps (load l).
Proof.
  intros w. unfold load. destruct (heap w !! l); apply body_step_refl.
Qed.

#[local] Hint Resolve steps_ret steps_raise steps_lift steps_gets steps_output
  steps_modify_heap steps_modify_log steps_modify_relations steps_load : steps.

Ltac steps_auto :=
  repeat (intros;
    lazymatch goal with
    | |- steps (bind _ _) => apply steps_bind
    | |- steps (for_each _ _) => apply steps_for_each
    | |- steps (if ?b then _ else _) => destruct b
    | |- steps (match ?x with _ => _ end) => destruct x
    | |- steps _ => solve [auto with steps]
    end).

Lemma steps_deepcopy (l : loc) : steps (deepcopy l).
Proof.
  unfold deepcopy. apply steps_bind; [apply steps_load |].
  intros a w. simpl. constructor; simpl; try reflexivity; exists []; symmetry; apply app_nil_r.
Qed.

Lemma steps_args_pop0 (l : loc) : steps (args_pop0 l).
Proof. unfold args_pop0. steps_auto. Qed.

Lemma steps_set_defaults (l : loc) (v : list expr) : steps (set_defaults l v).
Proof. unfold set_defaults. steps_auto. Qed.

Lemma steps_set_kw_defaults (l : loc) (v : list (option expr)) : steps (set_kw_defaults l v).
Proof. unfold set_kw_defaults. steps_auto. Qed.

Lemma steps_logger_warning (msg : string) (margs : list string) :
  steps (logger_warning msg margs).
Proof. unfold logger_warning. steps_auto. Qed.

Lemma steps_opt_globals : steps opt_globals.
Proof. apply steps_reads, opt_globals_reads. Qed.

Lemma steps_opt_omit_self : steps opt_omit_self.
Proof. apply steps_reads, opt_omit_self_reads. Qed.

Lemma steps_opt_write_arglist (section : string) : steps (opt_write_arglist section).
Proof. apply steps_reads, opt_write_arglist_reads. Qed.

Lemma steps_opt_omit_defaults (section : string) : steps (opt_omit_defaults section).
Proof. apply steps_reads, opt_omit_defaults_reads. Qed.

Lemma steps_opt_builtin_types (section : string) : steps (opt_builtin_types section).
Proof. apply steps_reads, opt_builtin_types_reads. Qed.

#[local] Hint Resolve steps_deepcopy steps_args_pop0 steps_set_defaults
  steps_set_kw_defaults steps_logger_warning steps_opt_globals steps_opt_omit_self
  steps_opt_write_arglist steps_opt_omit_defaults steps_opt_builtin_types : steps.

Lemma steps_arglist (fdef : FunctionDef) (ism : bool) : steps (arglist fdef ism).
Proof. unfold arglist. steps_auto. Qed.

#[local] Hint Resolve steps_arglist : steps.

(** ** Exceptions of the primitive actions *)

Lemma may_raise_bind {A B} (E : exn -> Prop) (m : M A) (k : A -> M B) :
  may_raise E m -> (forall a, may_raise E (k a)) -> may_raise E (bind m k).
Proof.
  intros Hm Hk w e. unfold bind. specialize (Hm w).
  destruct (m w) as [[e1 | a] w1]; simpl in *.
  - intros [= <-]. apply Hm. reflexivity.
  - apply Hk.
Qed.

Lemma may_raise_for_each {A} (E : exn -> Prop) (body : A -> M unit) (l : list A) :
  (forall a, may_raise E (body a)) -> may_raise E (for_each l body).
Proof.
  intros Hbody. induction l as [| x rest IH]; simpl.
  - intros w e. discriminate.
  - apply may_raise_bind; [apply Hbody | intros _; apply IH].
Qed.

Lemma may_raise_ret {A} (E : exn -> Prop) (a : A) : may_raise E (ret a).
Proof. intros w e. discriminate. Qed.

Lemma may_raise_gets {A} (E : exn -> Prop) (f : World -> A) : may_raise E (gets f).
Proof. intros w e. discriminate. Qed.

Lemma may_raise_modify (E : exn -> Prop) (f : World -> World) : may_raise E (modify f).
Proof. intros w e. discriminate. Qed.

Lemma may_raise_raise {A} (E : exn -> Prop) (e : exn) : E e -> may_raise E (@raise A e).
Proof. intros He w e'. simpl. intros [= <-]. exact He. Qed.

Lemma may_raise_output (E : exn -> Prop) (args_ : list string) : may_raise E (output args_).
Proof.
  intros w e. destruct (output_out_stream args_ w) as [Eo _]. rewrite Eo. discriminate.
Qed.

Lemma may_raise_load (E : exn -> Prop) (l : loc) : E InvalidReference -> may_raise E (load l).
Proof.
  intros He w e. unfold load. destruct (heap w !! l); simpl; [discriminate |].
  intros [= <-]. exact He.
Qed.

(** An accessor that raises nothing but [ValueError]. *)
Lemma may_raise_value_error {A} (E : exn -> Prop) (m : M A) :
  (forall w e, fst (m w) = inl e -> e = ValueError) -> E ValueError -> may_raise E m.
Proof. intros Hm He w e Hr. rewrite (Hm w e Hr). exact He. Qed.

Lemma may_raise_arglist (fdef : FunctionDef) (ism : bool) :
  may_raise arglist_exn (arglist fdef ism).
Proof.
  assert (V : arglist_exn ValueError) by (left; reflexivity).
  assert (I : arglist_exn IndexError) by (right; left; reflexivity).
  assert (R : arglist_exn InvalidReference) by (right; right; reflexivity).
  unfold arglist.
  apply may_raise_bind;
    [apply may_raise_value_error; [apply opt_write_arglist_raises | exact V] |].
  intros wa. destruct (negb (truthy wa)); [apply may_raise_ret |].
  unfold deepcopy, args_pop0, set_defaults, set_kw_defaults, logger_warning.
  repeat first
    [ apply may_raise_value_error; [apply opt_omit_self_raises | exact V]
    | apply may_raise_value_error; [apply opt_omit_defaults_raises | exact V]
    | apply may_raise_load; exact R
    | apply may_raise_bind; [| intros ?]
    | apply may_raise_raise; exact I
    | apply may_raise_ret | apply may_raise_modify
    | match goal with
      | |- may_raise _ (if ?b then _ else _) => destruct b
      | |- may_raise _ (match ?x with _ => _ end) => destruct x
      end ].
  all: intros w e; simpl; discriminate.
Qed.

Lemma may_raise_weaken {A} (E E' : exn -> Prop) (m : M A) :
  (forall e, E e -> E' e) -> may_raise E m -> may_raise E' m.
Proof. intros HE Hm w e Hr. apply HE, (Hm w e Hr). Qed.

(** A line printed first, then actions that only add to the streams. *)
Lemma output_then {A} (args_ : list string) (k : M A) (w : World) :
  steps k ->
  exists tail,
    out_stream (snd ((output args_ ;;; k) w)) =
      out_stream w ++ indent_chunks w ++ [Py.print_text args_ NL] ++ tail.
Proof.
  intros Hk. rewrite bind_run.
  destruct (output_out_stream args_ w) as [Er Eo].
  destruct (output args_ w) as [r w1]. simpl in Er, Eo. subst r.
  destruct (body_step_out_stream _ _ (Hk w1)) as [t Et].
  exists t. rewrite Et, Eo. rewrite <- !app_assoc. reflexivity.
Qed.

(** ** [print_codeinfo] *)

(** C10: [print_codeinfo] asserts the globals option first.  It fails
    with [AssertionError] exactly when [opt_globals] returns a false
    value, as it does without a configuration; then nothing is printed.
    When the option is on, the assertion passes and the module block is
    opened. *)
Theorem print_codeinfo_requires_globals (codeinfo : CodeInfo) (w : World) :
  (fst (print_codeinfo codeinfo w) = inl AssertionError <->
   exists v, fst (opt_globals w) = inr v /\ truthy v = false) /\
  (fst (print_codeinfo codeinfo w) = inl AssertionError ->
   snd (print_codeinfo codeinfo w) = w) /\
  (config w = None -> print_codeinfo codeinfo w = (inl AssertionError, w)) /\
  (forall v, fst (opt_globals w) = inr v -> truthy v = true ->
   exists tail,
     out_stream (snd (print_codeinfo codeinfo w)) =
       out_stream w ++ indent_chunks w ++
       [Py.print_text ["class"; "__module__"; "{"] NL] ++ tail).
Proof.
  set (block :=
    output ["class"; "__module__"; "{"] ;;;
    for_each (variables codeinfo)
      (fun name => output [TAB +:+ codeinfo_visibility name +:+ name]) ;;;
    for_each (functions codeinfo)
      (fun fdef =>
         al <- arglist fdef false ;;
         output [TAB +:+ codeinfo_visibility (fd_name fdef) +:+ fd_name fdef
                   +:+ "(" +:+ al +:+ ")"]) ;;;
    output ["}" +:+ NL]).
  assert (Hrun : print_codeinfo codeinfo w =
    match fst (opt_globals w) with
    | inl e => (inl e, w)
    | inr v => if truthy v then block w else (inl AssertionError, w)
    end).
  { unfold print_codeinfo. rewrite bind_run, opt_globals_reads.
    destruct (fst (opt_globals w)) as [e | v]; simpl; [reflexivity |].
    destruct (truthy v); reflexivity. }
  assert (Hblock : may_raise (fun e => e <> AssertionError) block).
  { unfold block.
    repeat first
      [ apply may_raise_output
      | apply may_raise_for_each; intros ?
      | apply (may_raise_weaken arglist_exn); [| apply may_raise_arglist]
      | apply may_raise_bind; [| intros ?] ].
    intros e [-> | [-> | ->]]; discriminate. }
  assert (Hsteps : steps
    (for_each (variables codeinfo)
      (fun name => output [TAB +:+ codeinfo_visibility name +:+ name]) ;;;
    for_each (functions codeinfo)
      (fun fdef =>
         al <- arglist fdef false ;;
         output [TAB +:+ codeinfo_visibility (fd_name fdef) +:+ fd_name fdef
                   +:+ "(" +:+ al +:+ ")"]) ;;;
    output ["}" +:+ NL])) by steps_auto.
  rewrite Hrun. clear Hrun.
  destruct (fst (opt_globals w)) as [e | v] eqn:Eg.
  - pose proof (opt_globals_raises w e Eg) as ->. simpl.
    split; [split | split; [| split]].
    + discriminate.
    + intros (v & Ev & _). discriminate.
    + discriminate.
    + intros Ec. unfold opt_globals in Eg. unfold_monad. rewrite Ec in Eg. discriminate.
    + intros v Ev. discriminate.
  - destruct (truthy v) eqn:Ht; simpl.
    + split; [split | split; [| split]].
      * intros Hr. exfalso. exact (Hblock w _ Hr eq_refl).
      * intros (v' & Ev & Hf). injection Ev as <-. congruence.
      * intros Hr. exfalso. exact (Hblock w _ Hr eq_refl).
      * intros Ec. unfold opt_globals in Eg. unfold_monad. rewrite Ec in Eg.
        simpl in Eg. injection Eg as <-. discriminate.
      * intros _ _ _. unfold block. apply output_then. exact Hsteps.
    + split; [split | split; [| split]].
      * intros _. exists v. split; [reflexivity | exact Ht].
      * reflexivity.
      * reflexivity.
      * reflexivity.
      * intros v' Ev Ht'. injection Ev as <-. congruence.
Qed.

(** ** [print_classinfo]: the prefix *)

Lemma split_last (sep : ascii) (s : string) :
  exists x, last (Py.split sep s) = Some x.
Proof.
  induction s as [| c r [x IH]]; simpl.
  - exists EmptyString. reflexivity.
  - destruct (Ascii.eqb c sep).
    + destruct (Py.split sep r) as [| y ys] eqn:E; [discriminate |].
      exists x. rewrite <- IH. reflexivity.
    + destruct (Py.split sep r) as [| y ys] eqn:E; [discriminate |].
      destruct ys as [| z zs].
      * eexists. reflexivity.
      * exists x. rewrite <- IH. reflexivity.
Qed.

Lemma body_step_indent (w w' : World) :
  body_step w w' -> indent_chunks w' = indent_chunks w.
Proof.
  intros [k f c m n r _ _ _]. unfold indent_chunks, depth. rewrite k, f, n. reflexivity.
Qed.

(** The loop over the bases prints nothing and leaves the prefix that
    [prefix_after] computes. *)
Lemma bases_loop_run (cn : string) (bs : list expr) (prefix : string) (w : World) :
  exists w1,
    bases_loop cn bs prefix w = (inr (prefix_after (map render bs) prefix), w1) /\
    body_step w w1 /\ dest w1 = dest w /\ footer_dest w1 = footer_dest w.
Proof.
  revert prefix w. induction bs as [| base rest IH]; intros prefix w; simpl.
  - exists w. split; [reflexivity |]. split; [apply body_step_refl |]. split; reflexivity.
  - change (render base) with (Py.rstrip (to_source base)).
    destruct (String.eqb (Py.rstrip (to_source base)) "object"); [apply IH |].
    destruct (String.eqb (Py.rstrip (to_source base)) "ABC"); [apply IH |].
    destruct (String.eqb (Py.rstrip (to_source base)) "Enum"); [apply IH |].
    destruct (split_last "." (Py.rstrip (to_source base))) as [b Eb].
    rewrite bind_run. unfold index_last, lift. rewrite Eb.
    rewrite bind_run. unfold modify at 1.
    destruct (IH prefix (set_inherit_relations (inherit_relations w ++ [(b, cn)]) w))
      as (w1 & E1 & S1 & D1 & F1).
    exists w1. split; [exact E1 |]. split; [| split; assumption].
    eapply body_step_trans; [| exact S1].
    apply (steps_modify_relations (b, cn) w).
Qed.

Lemma prefix_after_app (pre post : list string) (prefix : string) :
  prefix_after (pre ++ post) prefix = prefix_after post (prefix_after pre prefix).
Proof.
  revert prefix. induction pre as [| e pre IH]; intros prefix; simpl; [reflexivity |].
  destruct (String.eqb e "object"); [apply IH |].
  destruct (String.eqb e "ABC"); [apply IH |].
  destruct (String.eqb e "Enum"); apply IH.
Qed.

Lemma prefix_after_plain (rendered : list string) (prefix : string) :
  (forall e, e ∈ rendered -> e <> "ABC" /\ e <> "Enum") ->
  prefix_after rendered prefix = prefix.
Proof.
  induction rendered as [| e rest IH]; intros Hall; simpl; [reflexivity |].
  assert (Hrest : forall x, x ∈ rest -> x <> "ABC" /\ x <> "Enum").
  { intros x Hx. apply Hall. right. exact Hx. }
  destruct (Hall e) as [Ha He]; [left |].
  apply String.eqb_neq in Ha. apply String.eqb_neq in He. rewrite Ha, He.
  destruct (String.eqb e "object"); apply IH, Hrest.
Qed.

Lemma prefix_after_abstract (post : list string) :
  (forall e, e ∈ post -> e <> "Enum") ->
  prefix_after post "abstract class" = "abstract class".
Proof.
  induction post as [| e rest IH]; intros Hall; simpl; [reflexivity |].
  assert (Hrest : forall x, x ∈ rest -> x <> "Enum").
  { intros x Hx. apply Hall. right. exact Hx. }
  assert (He : e <> "Enum") by (apply Hall; left).
  apply String.eqb_neq in He. rewrite He.
  destruct (String.eqb e "object"); [apply IH, Hrest |].
  destruct (String.eqb e "ABC"); apply IH, Hrest.
Qed.

Lemma prefix_after_enum (post : list string) :
  (forall e, e ∈ post -> e <> "ABC") ->
  prefix_after post "enum" = "enum".
Proof.
  induction post as [| e rest IH]; intros Hall; simpl; [reflexivity |].
  assert (Hrest : forall x, x ∈ rest -> x <> "ABC").
  { intros x Hx. apply Hall. right. exact Hx. }
  assert (He : e <> "ABC") by (apply Hall; left).
  apply String.eqb_neq in He. rewrite He.
  destruct (String.eqb e "object"); [apply IH, Hrest |].
  destruct (String.eqb e "Enum"); apply IH, Hrest.
Qed.

Lemma steps_property_field (m : FunctionDef) : steps (property_field m).
Proof. unfold property_field. steps_auto. Qed.

Lemma steps_method_line (cn : string) (m : FunctionDef) : steps (method_line cn m).
Proof. unfold method_line. steps_auto. Qed.

#[local] Hint Resolve steps_property_field steps_method_line : steps.

(** The first line [PUML_Generator.print_classinfo] prints. *)
Lemma base_print_classinfo_first_line (classinfo : ClassInfo) (w : World)
    (c : ascii) (rest : string) :
  classname classinfo = String c rest ->
  exists tail,
    out_stream (snd (PUML_Generator_print_classinfo classinfo w)) =
      out_stream w ++ indent_chunks w ++
      [Py.print_text
         [if Ascii.eqb c "I" then "interface"
          else prefix_after (map render (bases classinfo)) "class";
          classname classinfo; "{"] NL] ++ tail.
Proof.
  intros Ecn. unfold PUML_Generator_print_classinfo.
  destruct (bases_loop_run (classname classinfo) (bases classinfo) "class" w)
    as (w1 & E1 & S1 & D1 & F1).
  rewrite bind_run, E1. cbv beta iota.
  assert (Eo : out_stream w1 = out_stream w).
  { unfold out_stream. rewrite (step_in_footer _ _ S1), D1, F1. reflexivity. }
  rewrite <- Eo, <- (body_step_indent _ _ S1).
  rewrite bind_run. rewrite Ecn. cbv iota.
  destruct (Ascii.eqb c "I"); unfold ret at 1; cbv beta iota;
    apply output_then; steps_auto.

Qed.

Lemma in_rendered (bs : list expr) (e : string) :
  e ∈ map render bs -> exists b, In b bs /\ render b = e.
Proof.
  intros He. apply list_elem_of_In, in_map_iff in He.
  destruct He as (b & Eb & Hb). exists b. split; assumption.
Qed.

(** C1 (as amended): the block prefix [print_classinfo] prints, for a
    class with a non-empty name.  A name that begins with [I] gives
    [interface], whatever the bases.  Otherwise bases none of which
    renders to [ABC] or [Enum] (none at all, or only [object]) give
    [class], and the last base that renders to [ABC] or [Enum] decides
    between [abstract class] and [enum]. *)
Theorem print_classinfo_prefix (classinfo : ClassInfo) (w : World)
    (c : ascii) (rest : string) :
  classname classinfo = String c rest ->
  exists prefix tail,
    out_stream (snd (print_classinfo classinfo w)) =
      out_stream w ++ indent_chunks w ++
      [Py.print_text [prefix; classname classinfo; "{"] NL] ++ tail /\
    (c = "I"%char -> prefix = "interface") /\
    (c <> "I"%char ->
     ((forall b, In b (bases classinfo) -> render b <> "ABC" /\ render b <> "Enum") ->
      prefix = "class") /\
     (forall pre b post,
        bases classinfo = pre ++ b :: post -> render b = "ABC" ->
        (forall x, In x post -> render x <> "Enum") -> prefix = "abstract class") /\
     (forall pre b post,
        bases classinfo = pre ++ b :: post -> render b = "Enum" ->
        (forall x, In x post -> render x <> "ABC") -> prefix = "enum")).
Proof.
  intros Ecn.
  exists (if Ascii.eqb c "I" then "interface"
          else prefix_after (map render (bases classinfo)) "class").
  assert (Hline : forall w0,
    out_stream w0 = out_stream w -> indent_chunks w0 = indent_chunks w ->
    exists tail,
      out_stream (snd (PUML_Generator_print_classinfo classinfo w0)) =
        out_stream w ++ indent_chunks w ++
        [Py.print_text
           [if Ascii.eqb c "I" then "interface"
            else prefix_after (map render (bases classinfo)) "class";
            classname classinfo; "{"] NL] ++ tail).
  { intros w0 Eo Ei.
    destruct (base_print_classinfo_first_line classinfo w0 c rest Ecn) as [tail Et].
    exists tail. rewrite Et, Eo, Ei. reflexivity. }
  assert (Hout : exists tail,
    out_stream (snd (print_classinfo classinfo w)) =
      out_stream w ++ indent_chunks w ++
      [Py.print_text
         [if Ascii.eqb c "I" then "interface"
          else prefix_after (map render (bases classinfo)) "class";
          classname classinfo; "{"] NL] ++ tail).
  { unfold print_classinfo. destruct (klass w) eqn:Ek.
    - apply Hline; reflexivity.
    - unfold PUML_Generator_NS_print_classinfo.
      rewrite bind_run. unfold gets at 1. cbv beta iota.
      rewrite bind_run. unfold modify at 1. cbv beta iota.
      apply Hline; reflexivity. }
  destruct Hout as [tail Et]. exists tail. split; [exact Et |]. split.
  - intros ->. reflexivity.
  - intros Hc. apply Ascii.eqb_neq in Hc. rewrite Hc. split; [| split].
    + intros Hplain. apply prefix_after_plain. intros e He.
      destruct (in_rendered _ _ He) as (b & Hb & <-). apply Hplain, Hb.
    + intros pre b post Eb Hr Hpost. rewrite Eb, map_app, prefix_after_app. simpl.
      rewrite Hr. simpl. apply prefix_after_abstract. intros e He.
      destruct (in_rendered _ _ He) as (x & Hx & <-). apply Hpost, Hx.
    + intros pre b post Eb Hr Hpost. rewrite Eb, map_app, prefix_after_app. simpl.
      rewrite Hr. simpl. apply prefix_after_enum. intros e He.
      destruct (in_rendered _ _ He) as (x & Hx & <-). apply Hpost, Hx.
Qed.

(** ** The namespace tracker *)

Lemma tracker_step_refl (w : World) : tracker_step w w.
Proof. constructor; reflexivity. Qed.

Lemma tracker_step_trans (w1 w2 w3 : World) :
  tracker_step w1 w2 -> tracker_step w2 w3 -> tracker_step w1 w3.
Proof. intros [] []. constructor; congruence. Qed.

(** One [output] call of the namespace tracker outside the footer. *)
Lemma output_ns_body (args_ : list string) (w : World) :
  klass w = PUML_Generator_NS -> in_footer w = false ->
  exists w',
    output args_ w = (inr tt, w') /\
    dest w' = dest w ++ indent_at (depth w) ++ [Py.print_text args_ NL] /\
    namespaces w' = namespaces w /\ footer_dest w' = footer_dest w /\
    tracker_step w w'.
Proof.
  destruct w as [k d fd f c sn cim ir r ns h lg]. simpl. intros -> ->.
  unfold output, PUML_Generator_NS_output, PUML_Generator_output, depth, indent_at.
  unfold bind, gets, modify, ret. simpl.
  destruct ns as [| n ns]; simpl; eexists; (split; [reflexivity |]); simpl;
    rewrite <- ?app_assoc; repeat split.
Qed.

(** One [output] call in the footer. *)
Lemma output_footer_mode (args_ : list string) (w : World) :
  in_footer w = true ->
  exists w',
    output args_ w = (inr tt, w') /\
    footer_dest w' = footer_dest w ++ [Py.print_text args_ NL] /\
    namespaces w' = namespaces w /\
    (namespaces w = [] -> dest w' = dest w) /\
    tracker_step w w'.
Proof.
  destruct w as [k d fd f c sn cim ir r ns h lg]. simpl. intros ->.
  unfold output, PUML_Generator_NS_output, PUML_Generator_output, depth.
  unfold bind, gets, modify, ret. simpl.
  destruct k, ns as [| n ns]; simpl; eexists; (split; [reflexivity |]); simpl;
    repeat split; try reflexivity; try discriminate.
Qed.

Lemma push_ns_run (name : string) (w : World) :
  klass w = PUML_Generator_NS -> in_footer w = false ->
  exists w',
    push_ns name w = (inr tt, w') /\
    namespaces w' = namespaces w ++ [name] /\
    dest w' = dest w ++ indent_at (depth w) ++ [open_marker name] /\
    footer_dest w' = footer_dest w /\
    tracker_step w w'.
Proof.
  intros Hk Hf. unfold push_ns.
  destruct (output_ns_body ["namespace " +:+ name +:+ " {"] w Hk Hf)
    as (w1 & E1 & D1 & N1 & F1 & S1).
  rewrite bind_run, E1. unfold modify. eexists. split; [reflexivity |]. simpl.
  rewrite N1, D1, F1. split; [reflexivity |]. split; [reflexivity |]. split; [reflexivity |].
  destruct S1. constructor; simpl; assumption.
Qed.

Lemma pop_ns_nat (k : nat) :
  pop_ns (Z.of_nat k) =
  repeat_n k
    (ns <- gets namespaces ;;
     (match ns with
      | [] => raise IndexError
      | _ :: _ => modify (fun w => set_namespaces (removelast (namespaces w)) w)
      end) ;;;
     output ["}"]).
Proof. unfold pop_ns. rewrite Nat2Z.id. reflexivity. Qed.

Lemma removelast_take {A} (l : list A) : removelast l = take (length l - 1) l.
Proof.
  rewrite removelast_firstn_len. f_equal. lia.
Qed.

Lemma pop_ns_run (k : nat) (w : World) :
  klass w = PUML_Generator_NS -> in_footer w = false -> k <= depth w ->
  exists w',
    pop_ns (Z.of_nat k) w = (inr tt, w') /\
    namespaces w' = take (depth w - k) (namespaces w) /\
    dest w' = dest w ++ close_chunks (depth w) k /\
    footer_dest w' = footer_dest w /\
    tracker_step w w'.
Proof.
  rewrite pop_ns_nat. revert w. induction k as [| k IH]; intros w Hk Hf Hle.
  - exists w. simpl. rewrite Nat.sub_0_r, app_nil_r. unfold depth.
    rewrite firstn_all. split; [reflexivity |]. split; [reflexivity |].
    split; [reflexivity |]. split; [reflexivity |]. apply tracker_step_refl.
  - simpl repeat_n. rewrite bind_run, bind_run. unfold gets at 1. cbv beta iota.
    destruct (namespaces w) as [| n ns] eqn:En.
    { unfold depth in Hle. rewrite En in Hle. simpl in Hle. lia. }
    rewrite bind_run. unfold modify at 1. cbv beta iota.
    set (w1 := set_namespaces (removelast (namespaces w)) w).
    destruct (output_ns_body ["}"] w1 Hk Hf) as (w2 & E2 & D2 & N2 & F2 & S2).
    rewrite E2.
    assert (Ed : depth w2 = depth w - 1).
    { unfold depth. rewrite N2. unfold w1. simpl. rewrite removelast_take.
      rewrite length_take. lia. }
    destruct (IH w2) as (w3 & E3 & N3 & D3 & F3 & S3).
    + destruct S2 as [K2 _ _ _ _ _ _]. rewrite K2. exact Hk.
    + destruct S2 as [_ I2 _ _ _ _ _]. rewrite I2. exact Hf.
    + rewrite Ed. lia.
    + exists w3. split; [exact E3 |]. split; [| split; [| split]].
      * rewrite N3, N2, Ed. unfold w1. simpl. rewrite removelast_take, take_take.
        f_equal; [unfold depth; lia | congruence].
      * assert (Ed1 : depth w1 = depth w - 1).
        { unfold depth, w1. simpl. rewrite removelast_take, length_take. lia. }
        rewrite D3, D2, Ed, Ed1. change (dest w1) with (dest w).
        simpl close_chunks. unfold close_marker. rewrite <- !app_assoc. reflexivity.
      * rewrite F3, F2. reflexivity.
      * eapply tracker_step_trans; [| exact S3].
        eapply tracker_step_trans; [| exact S2].
        constructor; reflexivity.
Qed.

Lemma push_all_run (names : list string) (w : World) :
  klass w = PUML_Generator_NS -> in_footer w = false ->
  exists w',
    for_each names push_ns w = (inr tt, w') /\
    namespaces w' = namespaces w ++ names /\
    dest w' = dest w ++ open_chunks (depth w) names /\
    footer_dest w' = footer_dest w /\
    tracker_step w w'.
Proof.
  revert w. induction names as [| name rest IH]; intros w Hk Hf; simpl.
  - exists w. rewrite !app_nil_r. split; [reflexivity |]. split; [reflexivity |].
    split; [reflexivity |]. split; [reflexivity |]. apply tracker_step_refl.
  - destruct (push_ns_run name w Hk Hf) as (w1 & E1 & N1 & D1 & F1 & S1).
    rewrite bind_run, E1.
    destruct (IH w1) as (w2 & E2 & N2 & D2 & F2 & S2).
    + rewrite (tstep_klass _ _ S1). exact Hk.
    + rewrite (tstep_in_footer _ _ S1). exact Hf.
    + exists w2. split; [exact E2 |]. split; [| split; [| split]].
      * rewrite N2, N1, <- app_assoc. reflexivity.
      * rewrite D2, D1. unfold depth at 2. rewrite N1, length_app. simpl.
        replace (length (namespaces w) + 1) with (S (depth w)) by (unfold depth; lia).
        rewrite <- !app_assoc. reflexivity.
      * rewrite F2, F1. reflexivity.
      * eapply tracker_step_trans; eassumption.
Qed.

(** The loop of [start_file] computes the longest shared prefix. *)
Lemma common_path_spec (stack new : list string) (k : nat) :
  common_path stack new k = k + common_prefix_length stack (drop k new).
Proof.
  revert k. induction stack as [| d rest IH]; intros k; simpl.
  - lia.
  - destruct (Nat.leb_spec (length new) k) as [Hle | Hlt].
    + rewrite drop_ge by lia. lia.
    + destruct (lookup_lt_is_Some_2 new k Hlt) as [x Ex].
      rewrite Ex, (drop_S _ _ _ Ex).
      destruct (String.eqb d x); [rewrite IH |]; lia.
Qed.

Lemma common_prefix_length_le (a b : list string) :
  common_prefix_length a b <= length a /\ common_prefix_length a b <= length b.
Proof.
  revert b. induction a as [| x a IH]; intros [| y b]; simpl; try lia.
  destruct (String.eqb x y); [| lia]. specialize (IH b). lia.
Qed.

Lemma common_prefix_length_take (a b : list string) :
  take (common_prefix_length a b) a = take (common_prefix_length a b) b.
Proof.
  revert b. induction a as [| x a IH]; intros [| y b]; simpl; try reflexivity.
  destruct (String.eqb_spec x y) as [-> | Hne]; [| reflexivity].
  simpl. rewrite IH. reflexivity.
Qed.

(** Counting markers. *)
Lemma count_open_app (l1 l2 : list string) :
  count_open (l1 ++ l2) = count_open l1 + count_open l2.
Proof. unfold count_open. rewrite List.filter_app, length_app. reflexivity. Qed.

Lemma count_close_app (l1 l2 : list string) :
  count_close (l1 ++ l2) = count_close l1 + count_close l2.
Proof. unfold count_close. rewrite List.filter_app, length_app. reflexivity. Qed.

Lemma count_open_cons (x : string) (l : list string) :
  count_open (x :: l) = (if is_open_marker x then 1 else 0) + count_open l.
Proof. unfold count_open. simpl. destruct (is_open_marker x); reflexivity. Qed.

Lemma count_close_cons (x : string) (l : list string) :
  count_close (x :: l) = (if is_close_marker x then 1 else 0) + count_close l.
Proof. unfold count_close. simpl. destruct (is_close_marker x); reflexivity. Qed.

Lemma indent_at_no_marker (d : nat) :
  count_open (indent_at d) = 0 /\ count_close (indent_at d) = 0.
Proof.
  destruct d as [| d]; [split; reflexivity |].
  unfold indent_at, count_open, count_close, is_open_marker, is_close_marker,
    close_marker, Py.print_text, Py.repeat, TAB.
  simpl. split; reflexivity.
Qed.

Lemma open_marker_counts (name : string) :
  is_open_marker (open_marker name) = true /\ is_close_marker (open_marker name) = false.
Proof.
  unfold is_open_marker, is_close_marker, open_marker, close_marker, Py.print_text.
  simpl. split; reflexivity.
Qed.

Lemma close_marker_counts :
  is_open_marker close_marker = false /\ is_close_marker close_marker = true.
Proof. split; reflexivity. Qed.

Lemma close_chunks_counts (d k : nat) :
  count_open (close_chunks d k) = 0 /\ count_close (close_chunks d k) = k.
Proof.
  revert d. induction k as [| k IH]; intros d; simpl; [split; reflexivity |].
  rewrite count_open_app, count_close_app, count_open_cons, count_close_cons.
  destruct (indent_at_no_marker (d - 1)) as [-> ->].
  destruct (IH (d - 1)) as [-> ->].
  destruct close_marker_counts as [-> ->].
  split; reflexivity.
Qed.

Lemma open_chunks_counts (d : nat) (names : list string) :
  count_open (open_chunks d names) = length names /\
  count_close (open_chunks d names) = 0.
Proof.
  revert d. induction names as [| name rest IH]; intros d; simpl; [split; reflexivity |].
  rewrite count_open_app, count_close_app, count_open_cons, count_close_cons.
  destruct (indent_at_no_marker d) as [-> ->].
  destruct (IH (S d)) as [-> ->].
  destruct (open_marker_counts name) as [-> ->]. split; reflexivity.
Qed.

(** [PUML_Generator_NS.start_file], run. *)
Lemma ns_start_file_run (sourcename_ : string) (w : World) (new : list string) (n : nat) :
  klass w = PUML_Generator_NS -> in_footer w = false ->
  new = path_namespaces (root w) sourcename_ ->
  n = common_prefix_length (namespaces w) new ->
  exists w',
    PUML_Generator_NS_start_file sourcename_ w = (inr tt, w') /\
    namespaces w' = new /\
    dest w' = dest w ++ close_chunks (depth w) (depth w - n) ++ open_chunks n (drop n new) /\
    footer_dest w' = footer_dest w /\
    tracker_step w w'.
Proof.
  intros Hk Hf Enew En.
  destruct (common_prefix_length_le (namespaces w) new) as [Hn1 Hn2]. rewrite <- En in Hn1, Hn2.
  pose proof (common_prefix_length_take (namespaces w) new) as Ht. rewrite <- En in Ht.
  unfold PUML_Generator_NS_start_file.
  rewrite bind_run. unfold PUML_Generator_start_file, modify at 1. cbv beta iota.
  set (w0 := set_sourcename (Some sourcename_) w).
  rewrite bind_run. unfold gets at 1. cbv beta iota zeta.
  rewrite bind_run. unfold gets at 1. cbv beta iota zeta.
  change (root w0) with (root w). change (namespaces w0) with (namespaces w).
  rewrite <- Enew, common_path_spec, drop_0, Nat.add_0_l, <- En.
  rewrite <- Nat2Z.inj_sub by exact Hn1.
  destruct (pop_ns_run (length (namespaces w) - n) w0 Hk Hf) as (w1 & E1 & N1 & D1 & F1 & S1).
  { unfold depth. simpl. lia. }
  rewrite bind_run, E1.
  assert (Hk1 : klass w1 = PUML_Generator_NS) by (rewrite (tstep_klass _ _ S1); exact Hk).
  assert (Hf1 : in_footer w1 = false) by (rewrite (tstep_in_footer _ _ S1); exact Hf).
  destruct (push_all_run (drop n new) w1 Hk1 Hf1) as (w2 & E2 & N2 & D2 & F2 & S2).
  change (depth w0) with (depth w) in N1, D1. change (namespaces w0) with (namespaces w) in N1.
  change (dest w0) with (dest w) in D1. change (footer_dest w0) with (footer_dest w) in F1.
  assert (Ens1 : namespaces w1 = take n (namespaces w)).
  { rewrite N1. f_equal. unfold depth. lia. }
  assert (Ed1 : depth w1 = n).
  { unfold depth. rewrite Ens1, length_take. lia. }
  exists w2. split; [exact E2 |]. split; [| split; [| split]].
  - rewrite N2, Ens1, Ht. apply take_drop.
  - rewrite D2, D1, Ed1, <- app_assoc. reflexivity.
  - rewrite F2, F1. reflexivity.
  - eapply tracker_step_trans; [| exact S2].
    eapply tracker_step_trans; [| exact S1].
    constructor; reflexivity.
Qed.

(** C3: entering a file closes and opens only below the path it shares
    with the open namespaces.  With [n] the length of the longest prefix
    the stack and the decomposition of the new path share, [start_file]
    prints the closing of the [depth - n] innermost namespaces and then
    the opening of the segments after the first [n], nothing for the
    shared segments, and leaves the decomposition as the stack. *)
Theorem start_file_keeps_common_prefix (sourcename_ : string) (w : World)
    (new : list string) (n : nat) :
  klass w = PUML_Generator_NS -> in_footer w = false ->
  new = path_namespaces (root w) sourcename_ ->
  n = common_prefix_length (namespaces w) new ->
  exists w',
    start_file sourcename_ w = (inr tt, w') /\
    namespaces w' = new /\
    take n (namespaces w') = take n (namespaces w) /\
    dest w' = dest w ++ close_chunks (depth w) (depth w - n) ++ open_chunks n (drop n new) /\
    count_close (close_chunks (depth w) (depth w - n) ++ open_chunks n (drop n new)) =
      depth w - n /\
    count_open (close_chunks (depth w) (depth w - n) ++ open_chunks n (drop n new)) =
      length new - n.
Proof.
  intros Hk Hf Enew En.
  destruct (ns_start_file_run sourcename_ w new n Hk Hf Enew En) as (w' & E & N & D & _).
  exists w'. unfold start_file. rewrite Hk.
  split; [exact E |]. split; [exact N |]. split; [| split; [exact D | split]].
  - rewrite N, En. symmetry. apply common_prefix_length_take.
  - rewrite count_close_app.
    destruct (close_chunks_counts (depth w) (depth w - n)) as [_ ->].
    destruct (open_chunks_counts n (drop n new)) as [_ ->]. lia.
  - rewrite count_open_app.
    destruct (close_chunks_counts (depth w) (depth w - n)) as [-> _].
    destruct (open_chunks_counts n (drop n new)) as [-> _]. rewrite length_drop. lia.
Qed.

(** ** The footer *)

Lemma footer_relations_run (rels : list (string * string)) (w : World) :
  in_footer w = true ->
  exists w',
    for_each rels footer_relation w = (inr tt, w') /\
    footer_dest w' = footer_dest w ++ map (relation_line (class_in_module w)) rels /\
    namespaces w' = namespaces w /\
    (namespaces w = [] -> dest w' = dest w) /\
    tracker_step w w'.
Proof.
  revert w. induction rels as [| [base derived] rest IH]; intros w Hf; simpl.
  - exists w. rewrite app_nil_r. split; [reflexivity |]. split; [reflexivity |].
    split; [reflexivity |]. split; [reflexivity |]. apply tracker_step_refl.
  - rewrite bind_run, bind_run. unfold gets at 1. cbv beta iota.
    destruct (output_footer_mode
                [qualify (class_in_module w) base; "<|--"; qualify (class_in_module w) derived]
                w Hf) as (w1 & E1 & F1 & N1 & D1 & S1).
    unfold qualify in E1. rewrite E1.
    destruct (IH w1) as (w2 & E2 & F2 & N2 & D2 & S2).
    { rewrite (tstep_in_footer _ _ S1). exact Hf. }
    exists w2. split; [exact E2 |]. split; [| split; [| split]].
    + rewrite F2, F1, (tstep_class_in_module _ _ S1), <- app_assoc. reflexivity.
    + rewrite N2, N1. reflexivity.
    + intros En. rewrite D2, D1; [reflexivity | exact En | rewrite N1; exact En].
    + eapply tracker_step_trans; eassumption.
Qed.

Lemma base_footer_run (w : World) :
  exists w',
    PUML_Generator_footer w = (inr tt, w') /\
    footer_dest w' =
      footer_dest w ++ map (relation_line (class_in_module w)) (inherit_relations w)
        ++ epilog_chunks w /\
    in_footer w' = false /\
    namespaces w' = namespaces w /\
    (namespaces w = [] -> dest w' = dest w) /\
    klass w' = klass w /\
    class_in_module w' = class_in_module w /\
    inherit_relations w' = inherit_relations w.
Proof.
  unfold PUML_Generator_footer.
  rewrite bind_run. unfold modify at 1. cbv beta iota.
  set (w0 := set_in_footer true w).
  rewrite bind_run. unfold gets at 1. cbv beta iota.
  destruct (footer_relations_run (inherit_relations w0) w0 eq_refl)
    as (w1 & E1 & F1 & N1 & D1 & S1).
  rewrite bind_run, E1.
  rewrite bind_run. unfold gets at 1. cbv beta iota.
  rewrite bind_run.
  change (footer_dest w0) with (footer_dest w) in F1.
  change (class_in_module w0) with (class_in_module w) in F1.
  change (inherit_relations w0) with (inherit_relations w) in F1.
  change (namespaces w0) with (namespaces w) in N1, D1.
  change (dest w0) with (dest w) in D1.
  assert (Hf1 : in_footer w1 = true) by (rewrite (tstep_in_footer _ _ S1); reflexivity).
  assert (Hepi : exists w2,
    match config w1 with
    | Some c =>
        match cfg_get c "puml" "epilog" PyNone with
        | PyStr epilog => if truthy (PyStr epilog) then output [epilog +:+ NL] else ret tt
        | _ => ret tt
        end
    | None => ret tt
    end w1 = (inr tt, w2) /\
    footer_dest w2 = footer_dest w1 ++ epilog_chunks w /\
    namespaces w2 = namespaces w1 /\
    (namespaces w1 = [] -> dest w2 = dest w1) /\
    tracker_step w1 w2).
  { unfold epilog_chunks. rewrite (tstep_config _ _ S1). change (config w0) with (config w).
    assert (Hnone : exists w2,
      ret tt w1 = (inr tt, w2) /\ footer_dest w2 = footer_dest w1 ++ [] /\
      namespaces w2 = namespaces w1 /\ (namespaces w1 = [] -> dest w2 = dest w1) /\
      tracker_step w1 w2).
    { exists w1. rewrite app_nil_r. split; [reflexivity |]. split; [reflexivity |].
      split; [reflexivity |]. split; [reflexivity |]. apply tracker_step_refl. }
    destruct (config w) as [c |]; [| exact Hnone].
    unfold cfg_get. destruct (c !! ("puml", "epilog")) as [epilog |]; [| exact Hnone].
    unfold truthy. destruct (String.eqb epilog ""); simpl; [exact Hnone |].
    apply output_footer_mode. exact Hf1. }
  destruct Hepi as (w2 & E2 & F2 & N2 & D2 & S2). rewrite E2.
  unfold modify. eexists. split; [reflexivity |]. simpl.
  split; [rewrite F2, F1, <- app_assoc; reflexivity |].
  split; [reflexivity |].
  split; [rewrite N2, N1; reflexivity |].
  split; [intros En; rewrite D2, D1; [reflexivity | exact En | rewrite N1; exact En] |].
  split; [rewrite (tstep_klass _ _ S2), (tstep_klass _ _ S1); reflexivity |].
  split; [rewrite (tstep_class_in_module _ _ S2), (tstep_class_in_module _ _ S1); reflexivity |].
  rewrite (tstep_relations _ _ S2), (tstep_relations _ _ S1). reflexivity.
Qed.

(** The loop of [PUML_Generator_NS.footer] ends: with the stack empty
    one turn is enough, otherwise two are. *)
Lemma close_namespaces_run (fuel : nat) (w : World) :
  klass w = PUML_Generator_NS -> in_footer w = false ->
  2 <= fuel \/ (1 <= fuel /\ namespaces w = []) ->
  exists w',
    close_namespaces fuel w = (inr tt, w') /\
    namespaces w' = [] /\
    dest w' = dest w ++ close_chunks (depth w) (depth w) /\
    footer_dest w' = footer_dest w /\
    tracker_step w w'.
Proof.
  intros Hk Hf Hfuel.
  assert (Hempty : forall fuel' w0, 1 <= fuel' -> namespaces w0 = [] ->
    close_namespaces fuel' w0 = (inr tt, w0) /\
    dest w0 = dest w0 ++ close_chunks (depth w0) (depth w0)).
  { intros fuel' w0 Hge En. destruct fuel' as [| fuel']; [lia |]. simpl.
    rewrite bind_run. unfold gets at 1. cbv beta iota. rewrite En.
    unfold depth. rewrite En. simpl. rewrite app_nil_r. split; reflexivity. }
  destruct (namespaces w) as [| n ns] eqn:En.
  - destruct (Hempty fuel w) as [E D]; [lia | exact En |].
    exists w. split; [exact E |]. split; [exact En |]. split; [exact D |].
    split; [reflexivity |]. apply tracker_step_refl.
  - destruct Hfuel as [Hfuel | [_ Habs]]; [| discriminate].
    destruct fuel as [| fuel]; [lia |]. simpl.
    rewrite bind_run. unfold gets at 1. cbv beta iota. rewrite En.
    rewrite bind_run. unfold gets at 1. cbv beta iota.
    destruct (pop_ns_run (depth w) w Hk Hf (le_n _)) as (w1 & E1 & N1 & D1 & F1 & S1).
    rewrite bind_run, E1. rewrite Nat.sub_diag in N1. rewrite take_0 in N1.
    destruct (Hempty fuel w1) as [E2 _]; [lia | exact N1 |].
    exists w1. split; [exact E2 |]. split; [exact N1 |]. split; [exact D1 |].
    split; [exact F1 | exact S1].
Qed.

Lemma footer_run (w : World) :
  in_footer w = false ->
  exists w',
    footer w = (inr tt, w') /\
    footer_dest w' =
      footer_dest w ++ map (relation_line (class_in_module w)) (inherit_relations w)
        ++ epilog_chunks w /\
    in_footer w' = false /\
    (klass w = PUML_Generator_NS ->
     namespaces w' = [] /\ dest w' = dest w ++ close_chunks (depth w) (depth w)).
Proof.
  intros Hf. unfold footer. destruct (klass w) eqn:Hk.
  - destruct (base_footer_run w) as (w' & E & F & I & _).
    exists w'. split; [exact E |]. split; [exact F |]. split; [exact I |]. discriminate.
  - unfold PUML_Generator_NS_footer.
    rewrite bind_run. unfold gets at 1. cbv beta iota.
    destruct (close_namespaces_run (S (depth w)) w Hk Hf) as (w1 & E1 & N1 & D1 & F1 & S1).
    { unfold depth. destruct (namespaces w); simpl; [right; split; [lia | reflexivity] | left; lia]. }
    rewrite bind_run, E1.
    destruct (base_footer_run w1) as (w' & E & F & I & N & D & _).
    exists w'. split; [exact E |].
    split; [rewrite F, F1, (tstep_class_in_module _ _ S1), (tstep_relations _ _ S1) |].
    { unfold epilog_chunks. rewrite (tstep_config _ _ S1). reflexivity. }
    split; [exact I |]. intros _.
    split; [rewrite N; exact N1 | rewrite (D N1); exact D1].
Qed.

Lemma steps_bases_loop (cn : string) (bs : list expr) (prefix : string) :
  steps (bases_loop cn bs prefix).
Proof.
  intros w. destruct (bases_loop_run cn bs prefix w) as (w1 & E & S & _).
  rewrite E. exact S.
Qed.

#[local] Hint Resolve steps_bases_loop : steps.

Lemma steps_base_print_classinfo (classinfo : ClassInfo) :
  steps (PUML_Generator_print_classinfo classinfo).
Proof. unfold PUML_Generator_print_classinfo. steps_auto. Qed.

(** What rendering a class leaves of the run's records: the relations
    recorded before stay, and the namespace tracker has recorded the
    prefix of the class. *)
Lemma print_classinfo_records (classinfo : ClassInfo) (w : World) :
  in_footer (snd (print_classinfo classinfo w)) = in_footer w /\
  (exists t, inherit_relations (snd (print_classinfo classinfo w)) = inherit_relations w ++ t) /\
  class_in_module (snd (print_classinfo classinfo w)) =
    match klass w with
    | PUML_Generator => class_in_module w
    | PUML_Generator_NS =>
        <[classname classinfo := full_ns_loop (namespaces w) ""]> (class_in_module w)
    end.
Proof.
  unfold print_classinfo. destruct (klass w).
  - destruct (steps_base_print_classinfo classinfo w) as [_ F _ C _ _ R _ _].
    split; [exact F |]. split; [exact R | exact C].
  - unfold PUML_Generator_NS_print_classinfo.
    rewrite bind_run. unfold gets at 1. cbv beta iota.
    rewrite bind_run. unfold modify at 1. cbv beta iota.
    match goal with
    | |- context [PUML_Generator_print_classinfo classinfo ?w0] =>
        destruct (steps_base_print_classinfo classinfo w0) as [_ F _ C _ _ R _ _]
    end.
    split; [exact F |]. split; [exact R | exact C].
Qed.

(** C2: the footer prints one line [base <|-- derived] for every recorded
    inheritance relation, each endpoint qualified by the class-in-module
    map as it is when the footer runs: a name that is no key of the map
    stays unqualified, and a class rendered after the relation was
    recorded still qualifies it. *)
Theorem footer_qualifies_relations (w : World) :
  in_footer w = false ->
  exists w',
    footer w = (inr tt, w') /\
    footer_dest w' =
      footer_dest w ++ map (relation_line (class_in_module w)) (inherit_relations w)
        ++ epilog_chunks w /\
    (forall base derived, In (base, derived) (inherit_relations w) ->
       In (Py.print_text [qualify (class_in_module w) base; "<|--";
                          qualify (class_in_module w) derived] NL)
          (footer_dest w')) /\
    (forall name, class_in_module w !! name = None ->
       qualify (class_in_module w) name = name) /\
    (forall name ns, class_in_module w !! name = Some ns ->
       qualify (class_in_module w) name = ns +:+ name) /\
    (forall classinfo, exists r w1 w2,
       print_classinfo classinfo w = (r, w1) /\
       footer w1 = (inr tt, w2) /\
       (klass w = PUML_Generator_NS ->
        class_in_module w1 =
          <[classname classinfo := full_ns_loop (namespaces w) ""]> (class_in_module w)) /\
       forall base derived, In (base, derived) (inherit_relations w) ->
         In (Py.print_text [qualify (class_in_module w1) base; "<|--";
                            qualify (class_in_module w1) derived] NL)
            (footer_dest w2)).
Proof.
  assert (Hlines : forall w0 w0',
    footer_dest w0' =
      footer_dest w0 ++ map (relation_line (class_in_module w0)) (inherit_relations w0)
        ++ epilog_chunks w0 ->
    forall base derived, In (base, derived) (inherit_relations w0) ->
      In (Py.print_text [qualify (class_in_module w0) base; "<|--";
                         qualify (class_in_module w0) derived] NL)
         (footer_dest w0')).
  { intros w0 w0' E base derived Hin. rewrite E.
    apply in_or_app. right. apply in_or_app. left.
    exact (in_map (relation_line (class_in_module w0)) _ _ Hin). }
  intros Hf. destruct (footer_run w Hf) as (w' & E & F & _).
  exists w'. split; [exact E |]. split; [exact F |].
  split; [exact (Hlines w w' F) |].
  split; [intros name En; unfold qualify; rewrite En; reflexivity |].
  split; [intros name ns En; unfold qualify; rewrite En; reflexivity |].
  intros classinfo.
  destruct (print_classinfo_records classinfo w) as (F1 & [t R1] & C1).
  destruct (print_classinfo classinfo w) as [r w1] eqn:E1. simpl in F1, R1, C1.
  destruct (footer_run w1) as (w2 & E2 & F2 & _); [rewrite F1; exact Hf |].
  exists r, w1, w2. split; [reflexivity |]. split; [exact E2 |]. split.
  - intros Hk. rewrite C1, Hk. reflexivity.
  - intros base derived Hin. apply (Hlines w1 w2 F2).
    rewrite R1. apply in_or_app. left. exact Hin.
Qed.

(** ** A run of the namespace tracker *)

Lemma start_files_run (files : list string) (w : World) :
  klass w = PUML_Generator_NS -> in_footer w = false ->
  exists w' emitted,
    for_each files PUML_Generator_NS_start_file w = (inr tt, w') /\
    klass w' = PUML_Generator_NS /\ in_footer w' = false /\
    dest w' = dest w ++ emitted /\
    count_open emitted + depth w = count_close emitted + depth w'.
Proof.
  revert w. induction files as [| file rest IH]; intros w Hk Hf; simpl.
  - exists w, []. rewrite app_nil_r. repeat split; assumption.
  - destruct (ns_start_file_run file w _ _ Hk Hf eq_refl eq_refl)
      as (w1 & E1 & N1 & D1 & _ & S1).
    rewrite bind_run, E1.
    assert (Hk1 : klass w1 = PUML_Generator_NS) by (rewrite (tstep_klass _ _ S1); exact Hk).
    assert (Hf1 : in_footer w1 = false) by (rewrite (tstep_in_footer _ _ S1); exact Hf).
    destruct (IH w1 Hk1 Hf1) as (w2 & e2 & E2 & K2 & I2 & D2 & C2).
    eexists w2, _. split; [exact E2 |]. split; [exact K2 |]. split; [exact I2 |].
    split; [rewrite D2, D1, <- !app_assoc; reflexivity |].
    set (new := path_namespaces (root w) file) in *.
    set (n := common_prefix_length (namespaces w) new) in *.
    destruct (common_prefix_length_le (namespaces w) new) as [Hn1 Hn2]. fold n in Hn1, Hn2.
    rewrite !count_open_app, !count_close_app.
    destruct (close_chunks_counts (depth w) (depth w - n)) as [-> ->].
    destruct (open_chunks_counts n (drop n new)) as [-> ->].
    rewrite length_drop.
    assert (Ed1 : depth w1 = length new) by (unfold depth; rewrite N1; reflexivity).
    rewrite Ed1 in C2. unfold depth in *. lia.
Qed.

(** C4: the namespace markers balance.  Each [push_ns] prints one
    opening marker and each namespace removed by [pop_ns] one closing
    marker; over a run of the tracker from its construction, through any
    files and the footer, as many closing as opening markers are printed
    and no namespace stays open. *)
Theorem namespace_markers_balanced (root_ : string)
    (cfg : option (gmap (string * string) string)) (h : list ast_arguments)
    (files : list string) :
  (forall w name, klass w = PUML_Generator_NS -> in_footer w = false ->
     exists w' emitted,
       push_ns name w = (inr tt, w') /\
       namespaces w' = namespaces w ++ [name] /\
       dest w' = dest w ++ emitted /\
       count_open emitted = 1 /\ count_close emitted = 0) /\
  (forall w k, klass w = PUML_Generator_NS -> in_footer w = false -> k <= depth w ->
     exists w' emitted,
       pop_ns (Z.of_nat k) w = (inr tt, w') /\
       length (namespaces w') = depth w - k /\
       dest w' = dest w ++ emitted /\
       count_close emitted = k /\ count_open emitted = 0) /\
  (exists w',
     run_files files (PUML_Generator_NS_init root_ cfg h) = (inr tt, w') /\
     namespaces w' = [] /\
     count_open (dest w') = count_close (dest w')).
Proof.
  split; [| split].
  - intros w name Hk Hf.
    destruct (push_ns_run name w Hk Hf) as (w' & E & N & D & _).
    exists w', (indent_at (depth w) ++ [open_marker name]).
    split; [exact E |]. split; [exact N |]. split; [exact D |].
    rewrite count_open_app, count_close_app, count_open_cons, count_close_cons.
    destruct (indent_at_no_marker (depth w)) as [-> ->].
    destruct (open_marker_counts name) as [-> ->]. split; reflexivity.
  - intros w k Hk Hf Hle.
    destruct (pop_ns_run k w Hk Hf Hle) as (w' & E & N & D & _).
    exists w', (close_chunks (depth w) k).
    split; [exact E |]. split; [| split; [exact D |]].
    + rewrite N, length_take. unfold depth. lia.
    + destruct (close_chunks_counts (depth w) k) as [-> ->]. split; reflexivity.
  - unfold run_files.
    set (w0 := PUML_Generator_NS_init root_ cfg h).
    destruct (start_files_run files w0 eq_refl eq_refl) as (w1 & e1 & E1 & K1 & I1 & D1 & C1).
    rewrite bind_run, E1.
    destruct (footer_run w1 I1) as (w2 & E2 & _ & _ & Hns).
    destruct (Hns K1) as [N2 D2].
    unfold footer in E2. rewrite K1 in E2.
    exists w2. split; [exact E2 |]. split; [exact N2 |].
    rewrite D2, D1. change (dest w0) with (@nil string). simpl.
    rewrite count_open_app, count_close_app.
    destruct (close_chunks_counts (depth w1) (depth w1)) as [-> ->].
    change (depth w0) with 0 in C1. lia.
Qed.

(** * Further properties *)

(** ** Strings *)

Lemma append_nil_r (s : string) : s +:+ "" = s.
Proof.
  induction s as [| c r IH]; [reflexivity |].
  change (String c (r +:+ "") = String c r). f_equal. exact IH.
Qed.

Lemma append_assoc (a b c : string) : (a +:+ b) +:+ c = a +:+ b +:+ c.
Proof.
  induction a as [| x a IH]; [reflexivity |].
  change (String x ((a +:+ b) +:+ c) = String x (a +:+ b +:+ c)). f_equal. exact IH.
Qed.

Lemma startswith_spec (p s : string) :
  Py.startswith p s = true <-> exists post, s = p +:+ post.
Proof.
  revert s. induction p as [| a p IH]; intros s; simpl.
  - split; [intros _; exists s; reflexivity | reflexivity].
  - destruct s as [| b s].
    + split; [discriminate | intros [post E]; discriminate].
    + rewrite andb_true_iff, Ascii.eqb_eq, IH. split.
      * intros [-> [post ->]]. exists post. reflexivity.
      * intros [post E]. injection E as -> ->. split; [reflexivity | exists post; reflexivity].
Qed.

(** [sub in s] holds exactly when [sub] occurs in [s]. *)
Lemma contains_spec (sub s : string) :
  Py.contains sub s = true <-> exists pre post, s = pre +:+ sub +:+ post.
Proof.
  induction s as [| c r IH]; simpl.
  - rewrite orb_false_r, startswith_spec. split.
    + intros [post E]. exists "", post. exact E.
    + intros (pre & post & E). destruct pre as [| x pre]; [| discriminate].
      exists post. exact E.
  - rewrite orb_true_iff, startswith_spec, IH. split.
    + intros [[post E] | (pre & post & E)].
      * exists "", post. exact E.
      * exists (String c pre), post. simpl. rewrite E. reflexivity.
    + intros (pre & post & E). destruct pre as [| x pre].
      * left. exists post. exact E.
      * right. simpl in E. injection E as -> ->. exists pre, post. reflexivity.
Qed.

(** ** Decorators, continued *)

(** X1: [has_decorator] matches by substring: it holds exactly when the
    name of some decorator, the identifier of a plain name or the last
    attribute of a dotted one, contains the tag; a decorator that is a
    call or any other expression never matches. *)
Theorem has_decorator_substring (meth : FunctionDef) (name : string) :
  has_decorator meth name = true <->
  exists dec pre post,
    In dec (decorator_list meth) /\ simple_name dec = Some (pre +:+ name +:+ post).
Proof.
  unfold has_decorator. induction (decorator_list meth) as [| dec rest IH]; simpl.
  - split; [discriminate | intros (dec & pre & post & [] & _)].
  - assert (Hrest : has_decorator_loop rest name = true ->
      exists dec0 pre post,
        (dec = dec0 \/ In dec0 rest) /\ simple_name dec0 = Some (pre +:+ name +:+ post)).
    { intros Hr. apply IH in Hr. destruct Hr as (d & pre & post & Hin & Hn).
      exists d, pre, post. split; [right; exact Hin | exact Hn]. }
    assert (Hback : forall d pre post,
      In d rest -> simple_name d = Some (pre +:+ name +:+ post) ->
      has_decorator_loop rest name = true).
    { intros d pre post Hin Hn. apply IH. exists d, pre, post. split; assumption. }
    destruct dec as [id | value attr | node]; simpl.
    + destruct (Py.contains name id) eqn:Ec.
      * split; [intros _ | reflexivity].
        apply contains_spec in Ec. destruct Ec as (pre & post & ->).
        exists (Name (pre +:+ name +:+ post)), pre, post. split; [left |]; reflexivity.
      * split; [exact Hrest |].
        intros (d & pre & post & [<- | Hin] & Hn); [| exact (Hback d pre post Hin Hn)].
        simpl in Hn. injection Hn as ->.
        assert (Ht : Py.contains name (pre +:+ name +:+ post) = true)
          by (apply contains_spec; exists pre, post; reflexivity).
        congruence.
    + destruct (Py.contains name attr) eqn:Ec.
      * split; [intros _ | reflexivity].
        apply contains_spec in Ec. destruct Ec as (pre & post & ->).
        exists (Attribute value (pre +:+ name +:+ post)), pre, post.
        split; [left |]; reflexivity.
      * split; [exact Hrest |].
        intros (d & pre & post & [<- | Hin] & Hn); [| exact (Hback d pre post Hin Hn)].
        simpl in Hn. injection Hn as ->.
        assert (Ht : Py.contains name (pre +:+ name +:+ post) = true)
          by (apply contains_spec; exists pre, post; reflexivity).
        congruence.
    + split; [exact Hrest |].
      intros (d & pre & post & [<- | Hin] & Hn); [discriminate | exact (Hback d pre post Hin Hn)].
Qed.

(** The markers of a decorator list: a call or other expression makes
    them fail, names and attributes never do. *)
Lemma deco_markers_other (decs : list expr) (node : nat) :
  In (OtherExpr node) decs -> deco_markers decs = inl AttributeError.
Proof.
  induction decs as [| dec rest IH]; simpl; [intros [] |].
  intros [-> | Hin]; [reflexivity |].
  destruct (_deco_marker dec) as [e | mk] eqn:Em.
  - destruct dec; simpl in Em; try discriminate.
    + destruct (String.eqb id "staticmethod"); [discriminate |].
      destruct (String.eqb id "abstractmethod"); discriminate.
    + injection Em as <-. reflexivity.
  - rewrite (IH Hin). reflexivity.
Qed.

Lemma deco_markers_names (decs : list expr) :
  (forall dec, In dec decs -> simple_name dec <> None) ->
  exists mks, deco_markers decs = inr mks /\ length mks = length decs.
Proof.
  induction decs as [| dec rest IH]; simpl; intros Hall.
  - exists []. split; reflexivity.
  - destruct IH as (mks & E & L); [intros d Hd; apply Hall; right; exact Hd |].
    rewrite E.
    assert (Hd : simple_name dec <> None) by (apply Hall; left; reflexivity).
    destruct dec as [id | value attr | node]; simpl.
    + destruct (String.eqb id "staticmethod");
        [| destruct (String.eqb id "abstractmethod")];
        eexists; (split; [reflexivity | simpl; rewrite L; reflexivity]).
    + eexists; (split; [reflexivity | simpl; rewrite L; reflexivity]).
    + exfalso. apply Hd. reflexivity.
Qed.

(** X2: the method line carries the marker [{static}] exactly for the
    methods [arglist] treats as static. *)
Theorem static_marker_iff_static_method (meth : FunctionDef) (mks : list string) :
  deco_markers (decorator_list meth) = inr mks ->
  (In "{static}" mks <-> is_static_method meth = true).
Proof.
  unfold is_static_method. revert mks.
  induction (decorator_list meth) as [| dec rest IH]; simpl; intros mks E.
  - injection E as <-. split; [intros [] | discriminate].
  - destruct (_deco_marker dec) as [e | mk] eqn:Em; [discriminate |].
    destruct (deco_markers rest) as [e | mks'] eqn:Er; [discriminate |].
    injection E as <-. specialize (IH mks' eq_refl).
    destruct dec as [id | value attr | node]; simpl in Em.
    + destruct (String.eqb id "staticmethod") eqn:Es.
      * injection Em as <-. split; [reflexivity | intros _; left; reflexivity].
      * destruct (String.eqb id "abstractmethod"); injection Em as <-; rewrite <- IH;
          (split; [intros [Habs | Hin]; [discriminate | exact Hin] | intros Hin; right; exact Hin]).
    + injection Em as <-. rewrite <- IH.
      split; [intros [Habs | Hin]; [discriminate | exact Hin] | intros Hin; right; exact Hin].
    + discriminate.
Qed.

(** ** Attributes an action keeps *)

Lemma keeps_bind {X A B} (f : World -> X) (m : M A) (k : A -> M B) :
  keeps f m -> (forall a, keeps f (k a)) -> keeps f (bind m k).
Proof.
  intros Hm Hk w. unfold bind. specialize (Hm w).
  destruct (m w) as [[e | a] w1]; simpl in *; [exact Hm |].
  rewrite Hk. exact Hm.
Qed.

Lemma keeps_for_each {X A} (f : World -> X) (body : A -> M unit) (l : list A) :
  (forall a, keeps f (body a)) -> keeps f (for_each l body).
Proof.
  intros Hbody. induction l as [| x rest IH]; simpl.
  - intros w. reflexivity.
  - apply keeps_bind; [apply Hbody | intros _; apply IH].
Qed.

Lemma keeps_ret {X A} (f : World -> X) (a : A) : keeps f (ret a).
Proof. intros w. reflexivity. Qed.

Lemma keeps_raise {X A} (f : World -> X) (e : exn) : keeps f (@raise A e).
Proof. intros w. reflexivity. Qed.

Lemma keeps_lift {X A} (f : World -> X) (r : exn + A) : keeps f (lift r).
Proof. intros w. reflexivity. Qed.

Lemma keeps_gets {X A} (f : World -> X) (g : World -> A) : keeps f (gets g).
Proof. intros w. reflexivity. Qed.

Lemma keeps_reads {X A} (f : World -> X) (m : M A) :
  (forall w, m w = (fst (m w), w)) -> keeps f m.
Proof. intros E w. rewrite E. reflexivity. Qed.

Lemma keeps_load {X} (f : World -> X) (l : loc) : keeps f (load l).
Proof. intros w. unfold load. destruct (heap w !! l); reflexivity. Qed.

Lemma keeps_modify_heap {X} (f : World -> X) (g : World -> list ast_arguments) :
  store_blind f -> keeps f (modify (fun w => set_heap (g w) w)).
Proof. intros [Hh _] w. apply Hh. Qed.

Lemma keeps_modify_log {X} (f : World -> X)
    (g : World -> list (loglevel * string * list string)) :
  store_blind f -> keeps f (modify (fun w => set_log (g w) w)).
Proof. intros [_ Hl] w. apply Hl. Qed.

Lemma keeps_output {X} (f : World -> X) (args_ : list string) :
  stream_blind f -> keeps f (output args_).
Proof.
  intros [Hd Hf] w.
  unfold output, PUML_Generator_NS_output, PUML_Generator_output. unfold_monad.
  destruct (klass w); [destruct (in_footer w); [apply Hf | apply Hd] |].
  destruct (namespaces w); simpl.
  - destruct (in_footer w); [apply Hf | apply Hd].
  - destruct (in_footer w); simpl; rewrite ?Hf, ?Hd; reflexivity.
Qed.

Lemma keeps_opt_omit_self {X} (f : World -> X) : keeps f opt_omit_self.
Proof. apply keeps_reads, opt_omit_self_reads. Qed.

Lemma keeps_opt_write_arglist {X} (f : World -> X) (section : string) :
  keeps f (opt_write_arglist section).
Proof. apply keeps_reads, opt_write_arglist_reads. Qed.

Lemma keeps_opt_omit_defaults {X} (f : World -> X) (section : string) :
  keeps f (opt_omit_defaults section).
Proof. apply keeps_reads, opt_omit_defaults_reads. Qed.

Lemma keeps_opt_builtin_types {X} (f : World -> X) (section : string) :
  keeps f (opt_builtin_types section).
Proof. apply keeps_reads, opt_builtin_types_reads. Qed.

#[local] Hint Resolve keeps_ret keeps_raise keeps_lift keeps_gets keeps_load
  keeps_modify_heap keeps_modify_log keeps_output keeps_opt_omit_self
  keeps_opt_write_arglist keeps_opt_omit_defaults keeps_opt_builtin_types : keeps.

Ltac keeps_auto :=
  repeat (intros;
    lazymatch goal with
    | |- keeps _ (bind _ _) => apply keeps_bind
    | |- keeps _ (for_each _ _) => apply keeps_for_each
    | |- keeps _ (if ?b then _ else _) => destruct b
    | |- keeps _ (match ?x with _ => _ end) => destruct x
    | |- keeps _ _ => solve [auto with keeps]
    end).

(** [arglist] touches nothing but the store and the log. *)
Lemma keeps_arglist {X} (f : World -> X) (fdef : FunctionDef) (ism : bool) :
  store_blind f -> keeps f (arglist fdef ism).
Proof.
  intros Hb.
  assert (Hcopy : forall a, keeps f (fun w => (inr (length (heap w)) : exn + loc,
                                              set_heap (heap w ++ [a]) w))).
  { intros a w. apply Hb. }
  unfold arglist, deepcopy, args_pop0, set_defaults, set_kw_defaults, logger_warning.
  keeps_auto.
Qed.

#[local] Hint Resolve keeps_arglist : keeps.

Lemma keeps_property_field {X} (f : World -> X) (m : FunctionDef) :
  stream_blind f -> keeps f (property_field m).
Proof. intros Hs. unfold property_field. keeps_auto. Qed.

Lemma keeps_method_line {X} (f : World -> X) (cn : string) (m : FunctionDef) :
  stream_blind f -> store_blind f -> keeps f (method_line cn m).
Proof. intros Hs Hb. unfold method_line. keeps_auto. Qed.

#[local] Hint Resolve keeps_property_field keeps_method_line : keeps.

Lemma stream_blind_relations : stream_blind inherit_relations.
Proof. split; intros; reflexivity. Qed.

Lemma store_blind_relations : store_blind inherit_relations.
Proof. split; intros; reflexivity. Qed.

Lemma store_blind_dest : store_blind dest.
Proof. split; intros; reflexivity. Qed.

Lemma store_blind_footer_dest : store_blind footer_dest.
Proof. split; intros; reflexivity. Qed.

(** ** Actions that fail *)

Lemma always_fails_bind_r {A B} (m : M A) (k : A -> M B) :
  (forall a, always_fails (k a)) -> always_fails (bind m k).
Proof.
  intros Hk w. unfold bind. destruct (m w) as [[e | a] w1]; [exists e; reflexivity |].
  apply Hk.
Qed.

Lemma always_fails_bind_l {A B} (m : M A) (k : A -> M B) :
  always_fails m -> always_fails (bind m k).
Proof.
  intros Hm w. unfold bind. destruct (Hm w) as [e He].
  destruct (m w) as [[e1 | a] w1]; simpl in He; [exists e1; reflexivity | discriminate].
Qed.

Lemma always_fails_for_each {A} (body : A -> M unit) (l : list A) (x : A) :
  In x l -> always_fails (body x) -> always_fails (for_each l body).
Proof.
  intros Hin Hx. induction l as [| y rest IH]; simpl; [destruct Hin |].
  destruct Hin as [-> | Hin].
  - apply always_fails_bind_l. exact Hx.
  - apply always_fails_bind_r. intros _. apply IH. exact Hin.
Qed.

(** ** Methods of a class *)

Lemma method_line_call_decorator (cn : string) (m : FunctionDef) (node : nat) (w : World) :
  has_decorator m "property" = false -> has_decorator m "setter" = false ->
  fd_name m <> "__init__" ->
  In (OtherExpr node) (decorator_list m) ->
  exists e,
    fst (method_line cn m w) = inl e /\
    (e = AttributeError \/ fst (arglist m true w) = inl e) /\
    dest (snd (method_line cn m w)) = dest w /\
    footer_dest (snd (method_line cn m w)) = footer_dest w.
Proof.
  intros Hp Hs Hn Hin. apply String.eqb_neq in Hn.
  pose proof (keeps_arglist dest m true store_blind_dest w) as Hd.
  pose proof (keeps_arglist footer_dest m true store_blind_footer_dest w) as Hf.
  unfold method_line. rewrite Hp, Hs, Hn. simpl.
  rewrite bind_run. destruct (arglist m true w) as [[e | al] w1]; simpl in *.
  - exists e. split; [reflexivity |]. split; [right; reflexivity |]. split; assumption.
  - rewrite bind_run. unfold lift. rewrite (deco_markers_other _ node Hin).
    exists AttributeError. split; [reflexivity |]. split; [left; reflexivity |].
    split; assumption.
Qed.

(** X3: a method that is neither a property, a setter nor the
    constructor and carries a decorator that is a call (or any expression
    but a name or an attribute) cannot be rendered: its line raises,
    [AttributeError] unless [arglist] failed first, prints nothing, and
    so [print_classinfo] raises for every class with such a method. *)
Theorem call_decorator_breaks_rendering (classinfo : ClassInfo) (m : FunctionDef)
    (node : nat) (w : World) :
  In m (methods classinfo) ->
  has_decorator m "property" = false -> has_decorator m "setter" = false ->
  fd_name m <> "__init__" ->
  In (OtherExpr node) (decorator_list m) ->
  (exists e, fst (print_classinfo classinfo w) = inl e) /\
  (forall cn w0, exists e,
     fst (method_line cn m w0) = inl e /\
     (e = AttributeError \/ fst (arglist m true w0) = inl e) /\
     dest (snd (method_line cn m w0)) = dest w0 /\
     footer_dest (snd (method_line cn m w0)) = footer_dest w0).
Proof.
  intros Hm Hp Hs Hn Hin. split.
  - assert (Hline : forall cn, always_fails (method_line cn m)).
    { intros cn w0.
      destruct (method_line_call_decorator cn m node w0 Hp Hs Hn Hin) as (e & E & _).
      exists e. exact E. }
    assert (Hbase : always_fails (PUML_Generator_print_classinfo classinfo)).
    { unfold PUML_Generator_print_classinfo.
      do 6 (apply always_fails_bind_r; intros ?).
      apply always_fails_bind_l.
      apply (always_fails_for_each _ _ m Hm), Hline. }
    unfold print_classinfo. destruct (klass w); [apply Hbase |].
    unfold PUML_Generator_NS_print_classinfo.
    do 2 (apply always_fails_bind_r; intros ?). apply Hbase.
  - intros cn w0. exact (method_line_call_decorator cn m node w0 Hp Hs Hn Hin).
Qed.

(** X4: without a configuration a property is printed nowhere: the
    pass over the properties finds no built-in type to show it as a
    field, and the pass over the methods skips properties and setters. *)
Theorem property_without_config_is_hidden (cn : string) (m : FunctionDef) (w : World) :
  config w = None ->
  has_decorator m "property" = true \/ has_decorator m "setter" = true ->
  property_field m w = (inr tt, w) /\ method_line cn m w = (inr tt, w).
Proof.
  intros Ec Hdec. split.
  - unfold property_field. destruct (has_decorator m "property"); [| reflexivity].
    unfold opt_builtin_types. unfold_monad. rewrite Ec. reflexivity.
  - unfold method_line.
    destruct Hdec as [-> | ->]; [reflexivity | rewrite orb_true_r; reflexivity].
Qed.

(** ** The relations a class records *)

Lemma split_not_nil (sep : ascii) (s : string) : Py.split sep s <> [].
Proof.
  destruct s as [| c r]; simpl; [discriminate |].
  destruct (Ascii.eqb c sep); [discriminate |].
  destruct (Py.split sep r); discriminate.
Qed.

(** Joining what [split] gives returns the string. *)
Lemma join_split (sep : ascii) (s : string) :
  Py.join (String sep "") (Py.split sep s) = s.
Proof.
  induction s as [| c r IH]; [reflexivity |]. simpl Py.split.
  pose proof (split_not_nil sep r) as Hne.
  destruct (Ascii.eqb_spec c sep) as [-> | Hc].
  - destruct (Py.split sep r) as [| y ys]; [contradiction |].
    change (Py.join (String sep "") ("" :: y :: ys))
      with (String sep (Py.join (String sep "") (y :: ys))).
    rewrite IH. reflexivity.
  - destruct (Py.split sep r) as [| y ys]; [contradiction |].
    destruct ys as [| z zs].
    + simpl in *. rewrite IH. reflexivity.
    + change (Py.join (String sep "") (String c y :: z :: zs))
        with (String c (Py.join (String sep "") (y :: z :: zs))).
      rewrite IH. reflexivity.
Qed.

(** No piece that [split] gives holds the separator. *)
Lemma split_no_separator (sep : ascii) (s x : string) :
  In x (Py.split sep s) -> ~ In sep (list_ascii_of_string x).
Proof.
  revert x. induction s as [| c r IH]; simpl; intros x.
  - intros [<- | []]. intros [].
  - destruct (Ascii.eqb_spec c sep) as [-> | Hc].
    + intros [<- | Hin]; [intros [] | exact (IH x Hin)].
    + destruct (Py.split sep r) as [| y ys].
      * intros [<- | []]. simpl. intros [E | []]. exact (Hc E).
      * intros [<- | Hin]; [| apply IH; right; exact Hin].
        simpl. intros [E | Hy]; [exact (Hc E) |]. exact (IH y (or_introl eq_refl) Hy).
Qed.

Lemma join_snoc (sep : string) (l : list string) (x : string) :
  Py.join sep (l ++ [x]) =
    match l with
    | [] => x
    | _ :: _ => Py.join sep l +:+ sep +:+ x
    end.
Proof.
  induction l as [| y ys IH]; [reflexivity |].
  destruct ys as [| z zs]; [reflexivity |].
  change (Py.join sep ((y :: z :: zs) ++ [x]))
    with (y +:+ sep +:+ Py.join sep ((z :: zs) ++ [x])).
  rewrite IH.
  change (Py.join sep (y :: z :: zs)) with (y +:+ sep +:+ Py.join sep (z :: zs)).
  rewrite !append_assoc. reflexivity.
Qed.

(** The last dotted segment: a dot-free suffix, the whole text or what
    follows its last dot. *)
Lemma last_segment_spec (e : string) :
  ~ In "."%char (list_ascii_of_string (last_segment e)) /\
  (e = last_segment e \/ exists pre, e = pre +:+ "." +:+ last_segment e).
Proof.
  unfold last_segment.
  pose proof (join_split "." e) as Hj.
  pose proof (split_no_separator "." e) as Hn.
  destruct (Py.split "." e) as [| y ys] using rev_ind.
  - simpl. split; [intros [] |]. left. simpl in Hj. symmetry. exact Hj.
  - rewrite last_snoc. simpl. split.
    + apply Hn. apply in_or_app. right. left. reflexivity.
    + rewrite join_snoc in Hj. destruct ys as [| z zs].
      * left. symmetry. exact Hj.
      * right. exists (Py.join "." (z :: zs)). symmetry. exact Hj.
Qed.

Lemma bases_loop_relations (cn : string) (bs : list expr) (prefix : string) (w : World) :
  inherit_relations (snd (bases_loop cn bs prefix w)) =
    inherit_relations w ++ recorded_relations cn (map render bs).
Proof.
  revert prefix w. induction bs as [| base rest IH]; intros prefix w; simpl.
  - symmetry. apply app_nil_r.
  - change (render base) with (Py.rstrip (to_source base)).
    unfold recorded_relations, is_marker_base. simpl.
    destruct (String.eqb (Py.rstrip (to_source base)) "object"); [apply IH |].
    destruct (String.eqb (Py.rstrip (to_source base)) "ABC"); [apply IH |].
    destruct (String.eqb (Py.rstrip (to_source base)) "Enum"); [apply IH |].
    simpl.
    destruct (split_last "." (Py.rstrip (to_source base))) as [b Eb].
    rewrite bind_run. unfold index_last, lift, last_segment. rewrite Eb. simpl.
    rewrite bind_run. unfold modify at 1. cbv beta iota.
    rewrite IH. simpl. rewrite <- app_assoc. reflexivity.
Qed.

Lemma base_print_classinfo_relations (classinfo : ClassInfo) (w : World) :
  inherit_relations (snd (PUML_Generator_print_classinfo classinfo w)) =
    inherit_relations w ++
    recorded_relations (classname classinfo) (map render (bases classinfo)).
Proof.
  unfold PUML_Generator_print_classinfo. rewrite bind_run.
  rewrite <- (bases_loop_relations (classname classinfo) (bases classinfo) "class" w).
  destruct (bases_loop (classname classinfo) (bases classinfo) "class" w) as [[e | prefix] w1];
    [reflexivity |].
  cbv beta iota. simpl snd.
  match goal with
  | |- inherit_relations (snd (?m w1)) = _ =>
      assert (Hk : keeps inherit_relations m)
  end.
  { pose proof stream_blind_relations. pose proof store_blind_relations. keeps_auto. }
  apply Hk.
Qed.

Lemma print_classinfo_relations (classinfo : ClassInfo) (w : World) :
  inherit_relations (snd (print_classinfo classinfo w)) =
    inherit_relations w ++
    recorded_relations (classname classinfo) (map render (bases classinfo)).
Proof.
  unfold print_classinfo. destruct (klass w).
  - apply base_print_classinfo_relations.
  - unfold PUML_Generator_NS_print_classinfo.
    rewrite bind_run. unfold gets at 1. cbv beta iota.
    rewrite bind_run. unfold modify at 1. cbv beta iota.
    rewrite base_print_classinfo_relations. reflexivity.
Qed.

(** X5: rendering a class records one inheritance relation for each
    base that renders to none of [object], [ABC] and [Enum], in the order
    of the bases, whether or not the rest of the rendering succeeds.  The
    base end of a relation is the last dotted segment of the rendered
    base: it holds no dot, and the rendered base is that segment or ends
    with a dot followed by it. *)
Theorem print_classinfo_records_relations (classinfo : ClassInfo) (w : World) :
  inherit_relations (snd (print_classinfo classinfo w)) =
    inherit_relations w ++
    map (fun e => (last_segment e, classname classinfo))
      (List.filter (fun e => negb (is_marker_base e)) (map render (bases classinfo))) /\
  (forall e,
     ~ In "."%char (list_ascii_of_string (last_segment e)) /\
     (e = last_segment e \/ exists pre, e = pre +:+ "." +:+ last_segment e)).
Proof.
  split; [apply print_classinfo_relations | apply last_segment_spec].
Qed.

(** ** The prefix a class is recorded with *)

Lemma full_ns_loop_join (ns : list string) (acc : string) :
  ns <> [] -> full_ns_loop ns acc = acc +:+ Py.join "." ns +:+ ".".
Proof.
  revert acc. induction ns as [| n rest IH]; intros acc Hne; [contradiction |].
  destruct rest as [| m rest].
  - simpl. apply append_assoc.
  - change (full_ns_loop (n :: m :: rest) acc)
      with (full_ns_loop (m :: rest) ((acc +:+ n) +:+ ".")).
    rewrite IH by discriminate.
    change (Py.join "." (n :: m :: rest)) with (n +:+ "." +:+ Py.join "." (m :: rest)).
    rewrite !append_assoc. reflexivity.
Qed.

Lemma join_dot_split_slash (s : string) :
  Py.join "." (Py.split "/" s) = dotted s.
Proof.
  induction s as [| c r IH]; [reflexivity |]. simpl Py.split. simpl dotted.
  pose proof (split_not_nil "/" r) as Hne.
  destruct (Ascii.eqb c "/").
  - destruct (Py.split "/" r) as [| y ys]; [contradiction |].
    change (Py.join "." ("" :: y :: ys)) with (String "." (Py.join "." (y :: ys))).
    rewrite IH. reflexivity.
  - destruct (Py.split "/" r) as [| y ys]; [contradiction |].
    destruct ys as [| z zs].
    + simpl in *. rewrite IH. reflexivity.
    + change (Py.join "." (String c y :: z :: zs))
        with (String c (Py.join "." (y :: z :: zs))).
      rewrite IH. reflexivity.
Qed.

(** X6: a class rendered by the namespace tracker after [start_file] is
    recorded with the path of the file relative to the root, without its
    extension, separators turned into dots, and a final dot; the
    prefixes recorded for classes of other names stay. *)
Theorem class_prefix_is_dotted_path (sourcename_ : string) (classinfo : ClassInfo)
    (w : World) :
  klass w = PUML_Generator_NS -> in_footer w = false ->
  exists w1 r w2,
    start_file sourcename_ w = (inr tt, w1) /\
    print_classinfo classinfo w1 = (r, w2) /\
    class_in_module w2 !! classname classinfo =
      Some (dotted (Py.splitext_root (relpath sourcename_ (root w))) +:+ ".") /\
    (forall other, other <> classname classinfo ->
       class_in_module w2 !! other = class_in_module w !! other).
Proof.
  intros Hk Hf.
  destruct (ns_start_file_run sourcename_ w _ _ Hk Hf eq_refl eq_refl)
    as (w1 & E1 & N1 & _ & _ & S1).
  assert (Hk1 : klass w1 = PUML_Generator_NS) by (rewrite (tstep_klass _ _ S1); exact Hk).
  destruct (print_classinfo_records classinfo w1) as (_ & _ & C2).
  rewrite Hk1 in C2.
  destruct (print_classinfo classinfo w1) as [r w2] eqn:E2. simpl in C2.
  exists w1, r, w2. unfold start_file. rewrite Hk.
  split; [exact E1 |]. split; [exact E2 |].
  rewrite C2, (tstep_class_in_module _ _ S1). split.
  - rewrite lookup_insert_eq. f_equal.
    rewrite N1. unfold path_namespaces.
    rewrite full_ns_loop_join by apply split_not_nil.
    rewrite join_dot_split_slash. reflexivity.
  - intros other Hne. apply lookup_insert_ne. congruence.
Qed.


(** ** The footer, again *)

Lemma keeps_footer_relation {X} (f : World -> X) (rel : string * string) :
  stream_blind f -> keeps f (footer_relation rel).
Proof. intros Hs. destruct rel as [base derived]. unfold footer_relation. keeps_auto. Qed.

#[local] Hint Resolve keeps_footer_relation : keeps.

Lemma keeps_base_footer {X} (f : World -> X) :
  stream_blind f -> (forall b w, f (set_in_footer b w) = f w) ->
  keeps f PUML_Generator_footer.
Proof.
  intros Hs Hi.
  assert (Hm : forall b, keeps f (modify (set_in_footer b))) by (intros b w; apply Hi).
  unfold PUML_Generator_footer. keeps_auto.
Qed.

(** X8: the footer does not consume what the run recorded: the
    relations and the class-in-module map are the same after it, and a
    second call prints every line of the first once more. *)
Theorem footer_keeps_records (w : World) :
  in_footer w = false ->
  exists w1 w2,
    footer w = (inr tt, w1) /\ footer w1 = (inr tt, w2) /\
    inherit_relations w1 = inherit_relations w /\
    class_in_module w1 = class_in_module w /\
    footer_dest w2 =
      footer_dest w ++
      (map (relation_line (class_in_module w)) (inherit_relations w) ++ epilog_chunks w) ++
      (map (relation_line (class_in_module w)) (inherit_relations w) ++ epilog_chunks w).
Proof.
  intros Hf.
  assert (Hframe : inherit_relations (snd (footer w)) = inherit_relations w /\
                   class_in_module (snd (footer w)) = class_in_module w /\
                   config (snd (footer w)) = config w).
  { assert (Hb : forall w0,
      inherit_relations (snd (PUML_Generator_footer w0)) = inherit_relations w0 /\
      class_in_module (snd (PUML_Generator_footer w0)) = class_in_module w0 /\
      config (snd (PUML_Generator_footer w0)) = config w0).
    { intros w0. repeat split; apply keeps_base_footer;
        try (split; intros; reflexivity); intros; reflexivity. }
    unfold footer. destruct (klass w) eqn:Hk; [apply Hb |].
    destruct (close_namespaces_run (S (depth w)) w Hk Hf) as (w0 & E0 & _ & _ & _ & S0).
    { unfold depth. destruct (namespaces w); simpl;
        [right; split; [lia | reflexivity] | left; lia]. }
    assert (Ens : PUML_Generator_NS_footer w = PUML_Generator_footer w0).
    { unfold PUML_Generator_NS_footer.
      rewrite bind_run. unfold gets at 1. cbv beta iota.
      rewrite bind_run, E0. reflexivity. }
    rewrite Ens. destruct (Hb w0) as (R & C & G).
    rewrite R, C, G. destruct S0. repeat split; assumption. }
  destruct Hframe as (R1 & C1 & G1).
  destruct (footer_run w Hf) as (w1 & E1 & F1 & I1 & _).
  rewrite E1 in R1, C1, G1. simpl in R1, C1, G1.
  destruct (footer_run w1 I1) as (w2 & E2 & F2 & _).
  exists w1, w2. split; [exact E1 |]. split; [exact E2 |].
  split; [exact R1 |]. split; [exact C1 |].
  rewrite F2, F1, R1, C1. unfold epilog_chunks. rewrite G1.
  rewrite <- !app_assoc. reflexivity.
Qed.

(** ** [arglist], the whole outcome *)

(** When the options resolve and the pop, if any, finds a parameter,
    [arglist] returns the text of the rendered node, adds that node to
    the store and logs the warning about the dropped parameter. *)
Lemma arglist_eval_world (fdef : FunctionDef) (ism : bool) (a : ast_arguments)
    (w : World) (wa os od : pyval) :
  heap w !! fd_args fdef = Some a ->
  fst (opt_write_arglist (section_of ism) w) = inr wa -> truthy wa = true ->
  (if ism then fst (opt_omit_self w) else inr PyNone) = inr os ->
  fst (opt_omit_defaults (section_of ism) w) = inr od ->
  (omit_self_applies fdef ism os = true -> args a <> []) ->
  arglist fdef ism w =
    (inr (Py.rstrip (to_source_arguments
            (rendered_node a (omit_self_applies fdef ism os) (truthy od)))),
     set_log (log w ++ self_warning fdef a (omit_self_applies fdef ism os))
       (set_heap (heap w ++ [rendered_node a (omit_self_applies fdef ism os) (truthy od)])
          w)).
Proof.
  intros Hl Hwa Ht Hos Hod Hne. unfold arglist. fold (section_of ism).
  rewrite bind_run, opt_write_arglist_reads, Hwa, Ht. simpl.
  rewrite bind_run, (deepcopy_run _ a w Hl).
  set (w1 := set_heap (heap w ++ [a]) w).
  assert (E1 : heap w1 = heap w ++ [a]) by reflexivity.
  rewrite bind_run.
  assert (Eomit :
    (if ism
     then os <- opt_omit_self;; ret (truthy os && negb (is_static_method fdef))
     else ret false) w1 = (inr (omit_self_applies fdef ism os), w1)).
  { unfold omit_self_applies. destruct ism; simpl.
    - rewrite bind_run, opt_omit_self_reads.
      rewrite (opt_omit_self_config w1 w eq_refl), Hos. reflexivity.
    - reflexivity. }
  rewrite Eomit. clear Eomit.
  rewrite bind_run.
  set (omit := omit_self_applies fdef ism os) in *.
  set (w2 := set_log (log w ++ self_warning fdef a omit)
               (set_heap (heap w ++ [if omit then drop_first a else a]) w)).
  assert (Epop :
    (if omit
     then self_arg <- args_pop0 (length (heap w)) ;;
          if String.eqb (arg self_arg) "self" then ret tt
          else logger_warning "Unexpected name %r for method 'self' parameter in %s()"
                 [arg self_arg; fd_name fdef]
     else ret tt) w1 = (inr tt, w2)).
  { unfold w2, self_warning. destruct omit.
    - rewrite bind_run, (args_pop0_new (heap w) a w1 E1).
      destruct (args a) as [| x rest]; [exfalso; apply Hne; reflexivity |].
      destruct (String.eqb (arg x) "self").
      + rewrite app_nil_r. destruct w; reflexivity.
      + destruct w; reflexivity.
    - rewrite app_nil_r. destruct w; reflexivity. }
  rewrite Epop. clear Epop.
  assert (Ec2 : config w2 = config w) by reflexivity.
  assert (Eh2 : heap w2 = heap w ++ [if omit then drop_first a else a]) by reflexivity.
  rewrite bind_run, opt_omit_defaults_reads.
  rewrite (opt_omit_defaults_config _ w2 w Ec2), Hod.
  rewrite bind_run. unfold rendered_node. cbv zeta.
  destruct (truthy od).
  - rewrite (clear_defaults_new (heap w) _ w2 Eh2).
    rewrite bind_run. erewrite load_new by reflexivity.
    unfold ret, w2. destruct w; reflexivity.
  - unfold ret. cbv beta iota. rewrite bind_run, (load_new (heap w) _ w2 Eh2).
    unfold w2. destruct w; reflexivity.
Qed.

(** X10: for a module function ([ismethod] false) the omit-self
    option is not even read: whatever it holds, every parameter is
    rendered, nothing is logged, and the store only gains the rendered
    copy. *)
Theorem arglist_function_keeps_parameters (fdef : FunctionDef) (a : ast_arguments)
    (w : World) (wa od : pyval) :
  heap w !! fd_args fdef = Some a ->
  fst (opt_write_arglist "module" w) = inr wa -> truthy wa = true ->
  fst (opt_omit_defaults "module" w) = inr od ->
  exists node,
    arglist fdef false w =
      (inr (Py.rstrip (to_source_arguments node)), set_heap (heap w ++ [node]) w) /\
    node = (if truthy od then clear_defaults a else a) /\
    args node = args a.
Proof.
  intros Hl Hwa Ht Hod.
  exists (rendered_node a false (truthy od)).
  split; [| split; [reflexivity | destruct (truthy od); reflexivity]].
  rewrite (arglist_eval_world fdef false a w wa PyNone od Hl Hwa Ht eq_refl Hod);
    [| discriminate].
  simpl. rewrite app_nil_r. destruct w; reflexivity.
Qed.

(** X11: under omit-self, with argument lists written, a method that
    is not static and whose [args.args] list is not empty loses exactly
    the first entry of that list, whatever its name.  The parameters of
    every other kind, positional-only, starred and keyword-only, are
    kept, so the entry dropped is not the first parameter of a method
    that has positional-only ones.  A warning is logged if and only if
    the name dropped is not [self], and the text is still returned.  The
    default expressions are not touched by the drop. *)
Theorem arglist_omit_self_drops_first (fdef : FunctionDef) (a : ast_arguments)
    (x : ast_arg) (rest : list ast_arg) (w : World) (wa os od : pyval) :
  heap w !! fd_args fdef = Some a -> args a = x :: rest ->
  ~ In (Name "staticmethod") (decorator_list fdef) ->
  fst (opt_omit_self w) = inr os -> truthy os = true ->
  fst (opt_write_arglist "methods" w) = inr wa -> truthy wa = true ->
  fst (opt_omit_defaults "methods" w) = inr od ->
  exists node,
    fst (arglist fdef true w) = inr (Py.rstrip (to_source_arguments node)) /\
    args node = rest /\
    (posonlyargs node = posonlyargs a /\ vararg node = vararg a /\
     kwonlyargs node = kwonlyargs a /\ kwarg node = kwarg a) /\
    defaults node = (if truthy od then [] else defaults a) /\
    kw_defaults node = (if truthy od then [] else kw_defaults a) /\
    log (snd (arglist fdef true w)) =
      log w ++
      (if String.eqb (arg x) "self" then []
       else [(WARNING, "Unexpected name %r for method 'self' parameter in %s()",
              [arg x; fd_name fdef])]).
Proof.
  intros Hl Ha Hdec Hos Hto Hwa Htw Hod.
  assert (Hst : is_static_method fdef = false).
  { destruct (is_static_method fdef) eqn:Est; [| reflexivity].
    exfalso. apply Hdec, is_static_method_spec. exact Est. }
  assert (Eomit : omit_self_applies fdef true os = true).
  { unfold omit_self_applies. rewrite Hst, Hto. reflexivity. }
  rewrite (arglist_eval_world fdef true a w wa os od Hl Hwa Htw Hos Hod);
    [| rewrite Ha; discriminate].
  rewrite Eomit. exists (rendered_node a true (truthy od)).
  split; [reflexivity |]. split; [| split; [| split; [| split]]].
  - unfold rendered_node, drop_first. destruct (truthy od); simpl; rewrite Ha; reflexivity.
  - unfold rendered_node. destruct (truthy od); repeat split.
  - unfold rendered_node. destruct (truthy od); reflexivity.
  - unfold rendered_node. destruct (truthy od); reflexivity.
  - simpl. unfold self_warning. rewrite Ha. reflexivity.
Qed.

(** ** The namespace stack at its bounds *)

Lemma repeat_n_add (a b : nat) (body : M unit) (w : World) :
  repeat_n (a + b) body w = (repeat_n a body ;;; repeat_n b body) w.
Proof.
  revert w. induction a as [| a IH]; intros w; [reflexivity |].
  simpl. unfold bind. destruct (body w) as [[e | u] w1]; [reflexivity |].
  rewrite IH. reflexivity.
Qed.

Lemma common_prefix_length_refl (l : list string) :
  common_prefix_length l l = length l.
Proof.
  induction l as [| x l IH]; simpl; [reflexivity |].
  rewrite String.eqb_refl, IH. reflexivity.
Qed.

(** X12: [pop_ns] is bounded by the stack: asked for more namespaces
    than are open, it closes all of them, printing their markers, and
    then raises [IndexError]; asked for none or for a negative count it
    does nothing. *)
Theorem pop_ns_beyond_depth (k : nat) (w : World) :
  klass w = PUML_Generator_NS -> in_footer w = false -> depth w < k ->
  (exists w',
     pop_ns (Z.of_nat k) w = (inl IndexError, w') /\
     namespaces w' = [] /\
     dest w' = dest w ++ close_chunks (depth w) (depth w)) /\
  (forall count, (count <= 0)%Z -> pop_ns count w = (inr tt, w)).
Proof.
  intros Hk Hf Hlt. split.
  - destruct (pop_ns_run (depth w) w Hk Hf (le_n _)) as (w1 & E1 & N1 & D1 & _).
    rewrite Nat.sub_diag, take_0 in N1. rewrite pop_ns_nat in E1.
    exists w1. split; [| split; assumption].
    replace k with (depth w + S (k - depth w - 1)) by lia.
    rewrite pop_ns_nat, repeat_n_add, bind_run, E1. simpl repeat_n.
    rewrite bind_run, bind_run. unfold gets at 1. cbv beta iota. rewrite N1.
    reflexivity.
  - intros count Hc. unfold pop_ns.
    replace (Z.to_nat count) with 0 by lia. reflexivity.
Qed.

(** X13: entering the same file again prints nothing: the stack is
    already its path, so no namespace is closed or opened. *)
Theorem start_file_same_file_again (sourcename_ : string) (w : World) :
  klass w = PUML_Generator_NS -> in_footer w = false ->
  exists w1 w2,
    start_file sourcename_ w = (inr tt, w1) /\
    start_file sourcename_ w1 = (inr tt, w2) /\
    namespaces w2 = namespaces w1 /\
    dest w2 = dest w1 /\ footer_dest w2 = footer_dest w1.
Proof.
  intros Hk Hf.
  destruct (ns_start_file_run sourcename_ w _ _ Hk Hf eq_refl eq_refl)
    as (w1 & E1 & N1 & _ & _ & S1).
  assert (Hk1 : klass w1 = PUML_Generator_NS) by (rewrite (tstep_klass _ _ S1); exact Hk).
  assert (Hf1 : in_footer w1 = false) by (rewrite (tstep_in_footer _ _ S1); exact Hf).
  destruct (ns_start_file_run sourcename_ w1 _ _ Hk1 Hf1 eq_refl eq_refl)
    as (w2 & E2 & N2 & D2 & F2 & _).
  exists w1, w2. unfold start_file. rewrite Hk, Hk1.
  split; [exact E1 |]. split; [exact E2 |].
  rewrite (tstep_root _ _ S1) in N2, D2. rewrite <- N1 in N2, D2.
  split; [exact N2 |]. split; [| exact F2].
  rewrite D2, common_prefix_length_refl. unfold depth.
  rewrite Nat.sub_diag, drop_all. simpl. apply app_nil_r.
Qed.

(** ** The lines of a block *)

Lemma printed_lines_app (w : World) (l1 l2 : list string) :
  printed_lines w (l1 ++ l2) = printed_lines w l1 ++ printed_lines w l2.
Proof. unfold printed_lines. apply flat_map_app. Qed.

Lemma printed_lines_step (w w' : World) (lines : list string) :
  body_step w w' -> printed_lines w' lines = printed_lines w lines.
Proof.
  intros S. unfold printed_lines. rewrite (body_step_indent _ _ S). reflexivity.
Qed.

Lemma prints_weaken {A} (Q Q' : list string -> Prop) (m : M A) :
  (forall lines, Q lines -> Q' lines) -> prints Q m -> prints Q' m.
Proof.
  intros HQ Hm w. destruct (Hm w) as (S & lines & E & Hl).
  split; [exact S |]. exists lines. split; [exact E |].
  intros a Ha. apply HQ, (Hl a Ha).
Qed.

Lemma prints_bind {A B} (Q1 Q2 : list string -> Prop) (m : M A) (k : A -> M B) :
  prints Q1 m -> (forall a, prints Q2 (k a)) -> prints (lines_then Q1 Q2) (bind m k).
Proof.
  intros Hm Hk w. unfold bind. destruct (Hm w) as (S1 & l1 & E1 & H1).
  destruct (m w) as [[e | a] w1]; simpl in *.
  - split; [exact S1 |]. exists l1. split; [exact E1 | discriminate].
  - destruct (Hk a w1) as (S2 & l2 & E2 & H2).
    split; [eapply body_step_trans; eassumption |].
    exists (l1 ++ l2). split.
    + rewrite E2, E1, (printed_lines_step _ _ l2 S1), printed_lines_app, <- app_assoc.
      reflexivity.
    + intros b Hb. exists l1, l2. split; [reflexivity |].
      split; [exact (H1 a eq_refl) | exact (H2 b Hb)].
Qed.

Lemma prints_output (args_ : list string) :
  prints (fun lines => lines = [Py.print_text args_ NL]) (output args_).
Proof.
  intros w. split; [apply steps_output |].
  exists [Py.print_text args_ NL]. split; [| reflexivity].
  destruct (output_out_stream args_ w) as [_ E]. rewrite E.
  unfold printed_lines. simpl. rewrite app_nil_r. reflexivity.
Qed.

(** An action that prints nothing. *)
Lemma prints_quiet {A} (m : M A) :
  steps m -> keeps dest m -> keeps footer_dest m -> prints (fun lines => lines = []) m.
Proof.
  intros S D F w. split; [apply S |]. exists []. split; [| reflexivity].
  unfold printed_lines, out_stream. simpl.
  rewrite (step_in_footer _ _ (S w)), D, F, app_nil_r. reflexivity.
Qed.

(** A loop whose body prints one line that depends on the element only. *)
Lemma prints_for_each_map {A} (g : A -> string) (body : A -> M unit) (xs : list A) :
  (forall a, prints (fun lines => lines = [g a]) (body a)) ->
  prints (fun lines => lines = map g xs) (for_each xs body).
Proof.
  intros Hbody. induction xs as [| x rest IH]; simpl.
  - apply prints_quiet; [apply steps_ret | apply keeps_ret | apply keeps_ret].
  - eapply prints_weaken; [| apply prints_bind; [apply Hbody | intros _; apply IH]].
    intros lines (l1 & l2 & -> & -> & ->). reflexivity.
Qed.

(** A loop whose body prints one line. *)
Lemma prints_for_each_count {A} (body : A -> M unit) (xs : list A) :
  (forall a, prints (fun lines => length lines = 1) (body a)) ->
  prints (fun lines => length lines = length xs) (for_each xs body).
Proof.
  intros Hbody. induction xs as [| x rest IH]; simpl.
  - eapply prints_weaken;
      [| apply prints_quiet; [apply steps_ret | apply keeps_ret | apply keeps_ret]].
    intros lines ->. reflexivity.
  - eapply prints_weaken; [| apply prints_bind; [apply Hbody | intros _; apply IH]].
    intros lines (l1 & l2 & -> & E1 & E2). rewrite length_app, E1, E2. reflexivity.
Qed.

(** A loop whose body prints lines. *)
Lemma prints_for_each {A} (body : A -> M unit) (xs : list A) :
  (forall a, prints (fun _ => True) (body a)) ->
  prints (fun _ => True) (for_each xs body).
Proof.
  intros Hbody. induction xs as [| x rest IH]; simpl.
  - eapply prints_weaken;
      [| apply prints_quiet; [apply steps_ret | apply keeps_ret | apply keeps_ret]].
    intros; exact I.
  - eapply prints_weaken; [| apply prints_bind; [apply Hbody | intros _; apply IH]].
    intros; exact I.
Qed.

Lemma prints_arglist (fdef : FunctionDef) (ism : bool) :
  prints (fun lines => lines = []) (arglist fdef ism).
Proof.
  apply prints_quiet; [apply steps_arglist | |]; apply keeps_arglist.
  - apply store_blind_dest.
  - apply store_blind_footer_dest.
Qed.

Lemma prints_property_field (m : FunctionDef) : prints (fun _ => True) (property_field m).
Proof.
  unfold property_field. destruct (has_decorator m "property").
  - eapply prints_weaken; [| apply prints_bind].
    + intros; exact I.
    + apply prints_quiet;
        [apply steps_opt_builtin_types | apply keeps_opt_builtin_types
        | apply keeps_opt_builtin_types].
    + intros bt. eapply prints_weaken; [| apply prints_bind].
      * intros; exact I.
      * apply prints_quiet; [apply steps_lift | apply keeps_lift | apply keeps_lift].
      * intros [|]; [eapply prints_weaken; [| apply prints_output]; intros; exact I |].
        eapply prints_weaken;
          [| apply prints_quiet; [apply steps_ret | apply keeps_ret | apply keeps_ret]].
        intros; exact I.
  - eapply prints_weaken;
      [| apply prints_quiet; [apply steps_ret | apply keeps_ret | apply keeps_ret]].
    intros; exact I.
Qed.

Lemma prints_method_line (cn : string) (m : FunctionDef) :
  prints (fun _ => True) (method_line cn m).
Proof.
  assert (Hret : prints (fun _ => True) (ret tt)).
  { eapply prints_weaken;
      [| apply prints_quiet; [apply steps_ret | apply keeps_ret | apply keeps_ret]].
    intros; exact I. }
  assert (Hout : forall args_, prints (fun _ => True) (output args_)).
  { intros args_. eapply prints_weaken; [| apply prints_output]. intros; exact I. }
  unfold method_line.
  destruct (has_decorator m "property" || has_decorator m "setter"); [exact Hret |].
  destruct (String.eqb (fd_name m) "__init__").
  - apply (prints_weaken (lines_then (fun lines => lines = []) (fun _ => True)));
      [intros; exact I |].
    apply prints_bind; [apply prints_arglist | intros al; apply Hout].
  - apply (prints_weaken (lines_then (fun lines => lines = []) (fun _ => True)));
      [intros; exact I |].
    apply prints_bind; [apply prints_arglist | intros al].
    apply (prints_weaken (lines_then (fun lines => lines = []) (fun _ => True)));
      [intros; exact I |].
    apply prints_bind; [| intros mks; apply Hout].
    apply prints_quiet; [apply steps_lift | apply keeps_lift | apply keeps_lift].
Qed.

Lemma prints_bases_loop (cn : string) (bs : list expr) (prefix : string) :
  prints (fun lines => lines = []) (bases_loop cn bs prefix).
Proof.
  apply prints_quiet; [apply steps_bases_loop | |]; intros w;
    destruct (bases_loop_run cn bs prefix w) as (w1 & E & _ & D & F); rewrite E;
    assumption.
Qed.

Lemma prints_raise {A} (Q : list string -> Prop) (e : exn) : prints Q (@raise A e).
Proof.
  intros w. split; [apply body_step_refl |]. exists []. split; [| discriminate].
  unfold printed_lines. simpl. symmetry. apply app_nil_r.
Qed.

Lemma repeat_tab_length (d : nat) : String.length (Py.repeat TAB d) = 2 * d.
Proof.
  induction d as [| d IH]; [reflexivity |].
  change (Py.repeat TAB (S d)) with (String " " (String " " (Py.repeat TAB d))).
  simpl String.length. rewrite IH. lia.
Qed.

(** The indentation: nothing, or one text of two spaces for each open
    namespace. *)
Lemma indent_chunks_spec (w : World) :
  indent_chunks w = [] \/
  exists s, indent_chunks w = [s] /\ String.length s = 2 * depth w.
Proof.
  unfold indent_chunks. destruct (klass w); [left; reflexivity |].
  destruct (namespaces w) eqn:En; [left; reflexivity |].
  destruct (in_footer w); [left; reflexivity |].
  right. eexists. split; [reflexivity |].
  unfold Py.print_text. simpl Py.join. rewrite append_nil_r. apply repeat_tab_length.
Qed.

Lemma prints_base_print_classinfo (classinfo : ClassInfo) :
  prints
    (fun lines => exists prefix rest,
       lines = Py.print_text [prefix; classname classinfo; "{"] NL
               :: map static_line (classvars classinfo)
               ++ map member_line (members classinfo) ++ rest ++ [block_end])
    (PUML_Generator_print_classinfo classinfo).
Proof.
  unfold PUML_Generator_print_classinfo.
  eapply prints_weaken; [| apply prints_bind; [apply prints_bases_loop |]];
    [intros lines (l1 & l2 & -> & -> & Hl2); exact Hl2 |].
  intros prefix0.
  eapply prints_weaken;
    [| apply (prints_bind (fun lines => lines = []))];
    [intros lines (l1 & l2 & -> & -> & Hl2); exact Hl2 | |].
  { destruct (classname classinfo) as [| c rest]; [apply prints_raise |].
    destruct (Ascii.eqb c "I");
      (apply prints_quiet; [apply steps_ret | apply keeps_ret | apply keeps_ret]). }
  intros prefix.
  eapply prints_weaken.
  2:{ apply prints_bind; [apply prints_output | intros _].
      apply prints_bind;
        [apply (prints_for_each_map static_line); intros m; apply prints_output | intros _].
      apply prints_bind;
        [apply (prints_for_each_map member_line); intros m; apply prints_output | intros _].
      apply prints_bind;
        [apply prints_for_each; intros m; apply prints_property_field | intros _].
      apply prints_bind;
        [apply prints_for_each; intros m; apply prints_method_line | intros _].
      apply prints_output. }
  intros lines (l1 & l2 & -> & -> & l3 & l4 & -> & -> & l5 & l6 & -> & -> &
                l7 & l8 & -> & _ & l9 & l10 & -> & _ & ->).
  exists prefix, (l7 ++ l9). simpl. rewrite <- !app_assoc. reflexivity.
Qed.

(** X14: a class block is printed line by line, every line at the
    indentation of the open namespaces (two spaces for each), and
    nothing else reaches the stream.  When the rendering returns, the
    block is the opening line, one line for each static member, then one
    for each instance member, then the fields and methods, and the
    closing line. *)
Theorem class_block_lines (classinfo : ClassInfo) (w : World) :
  (exists lines,
     out_stream (snd (print_classinfo classinfo w)) = out_stream w ++ printed_lines w lines /\
     (fst (print_classinfo classinfo w) = inr tt ->
      exists prefix rest,
        lines = Py.print_text [prefix; classname classinfo; "{"] NL
                :: map static_line (classvars classinfo)
                ++ map member_line (members classinfo) ++ rest ++ [block_end])) /\
  (indent_chunks w = [] \/
   exists s, indent_chunks w = [s] /\ String.length s = 2 * depth w).
Proof.
  split; [| apply indent_chunks_spec].
  assert (Hbase : forall w0,
    out_stream w0 = out_stream w -> indent_chunks w0 = indent_chunks w ->
    exists lines,
      out_stream (snd (PUML_Generator_print_classinfo classinfo w0)) =
        out_stream w ++ printed_lines w lines /\
      (fst (PUML_Generator_print_classinfo classinfo w0) = inr tt ->
       exists prefix rest,
         lines = Py.print_text [prefix; classname classinfo; "{"] NL
                 :: map static_line (classvars classinfo)
                 ++ map member_line (members classinfo) ++ rest ++ [block_end])).
  { intros w0 Eo Ei.
    destruct (prints_base_print_classinfo classinfo w0) as (_ & lines & E & Hl).
    exists lines. split; [| apply Hl].
    rewrite E, Eo. unfold printed_lines. rewrite Ei. reflexivity. }
  unfold print_classinfo. destruct (klass w) eqn:Hk.
  - apply Hbase; reflexivity.
  - unfold PUML_Generator_NS_print_classinfo.
    rewrite bind_run. unfold gets at 1. cbv beta iota.
    rewrite bind_run. unfold modify at 1. cbv beta iota.
    apply Hbase; reflexivity.
Qed.

(** X15: the module block, when [print_codeinfo] returns: the opening
    line, one line for each variable, in order, with its visibility
    marker, one line for each function, and the closing line, each line
    at the indentation of the open namespaces. *)
Theorem module_block_lines (codeinfo : CodeInfo) (w : World) :
  exists lines,
    out_stream (snd (print_codeinfo codeinfo w)) = out_stream w ++ printed_lines w lines /\
    (fst (print_codeinfo codeinfo w) = inr tt ->
     exists fs,
       lines = Py.print_text ["class"; "__module__"; "{"] NL
               :: map variable_line (variables codeinfo) ++ fs ++ [block_end] /\
       length fs = length (functions codeinfo)).
Proof.
  assert (Hp : prints
    (fun lines => exists fs,
       lines = Py.print_text ["class"; "__module__"; "{"] NL
               :: map variable_line (variables codeinfo) ++ fs ++ [block_end] /\
       length fs = length (functions codeinfo))
    (print_codeinfo codeinfo)).
  { unfold print_codeinfo.
    eapply prints_weaken;
      [| apply (prints_bind (fun lines => lines = []))];
      [intros lines (l1 & l2 & -> & -> & Hl2); exact Hl2 | |].
    { apply prints_quiet; [apply steps_opt_globals | |]; apply keeps_reads, opt_globals_reads. }
    intros g. destruct (negb (truthy g)); [apply prints_raise |].
    eapply prints_weaken.
    2:{ apply prints_bind; [apply prints_output | intros _].
        apply prints_bind;
          [apply (prints_for_each_map variable_line); intros m; apply prints_output
          | intros _].
        apply prints_bind; [| intros _; apply prints_output].
        apply prints_for_each_count. intros fdef.
        eapply prints_weaken; [| apply prints_bind; [apply prints_arglist |]].
        - intros lines (l1 & l2 & -> & -> & Hl2). exact Hl2.
        - intros al. eapply prints_weaken; [| apply prints_output].
          intros lines ->. reflexivity. }
    intros lines (l1 & l2 & -> & -> & l3 & l4 & -> & -> & l5 & l6 & -> & E5 & ->).
    exists l5. split; [reflexivity | exact E5]. }
  destruct (Hp w) as (_ & lines & E & Hl). exists lines. split; [exact E | apply Hl].
Qed.

(** ** The header, and a run without classes *)

Lemma output_body_footer_dest (args_ : list string) (w : World) :
  in_footer w = false -> footer_dest (snd (output args_ w)) = footer_dest w.
Proof.
  destruct w as [k d fd f c sn cim ir r ns h lg]. simpl. intros ->.
  unfold output, PUML_Generator_NS_output, PUML_Generator_output. unfold_monad.
  destruct k, ns; reflexivity.
Qed.

Lemma header_run (w : World) :
  in_footer w = false ->
  exists w',
    header w = (inr tt, w') /\
    dest w' =
      dest w ++
      match prolog_text (config w) with
      | [] => []
      | text => indent_chunks w ++ text
      end /\
    footer_dest w' = footer_dest w /\
    inherit_relations w' = inherit_relations w /\
    body_step w w'.
Proof.
  intros Hf.
  assert (Hnone : exists w',
    ret tt w = (inr tt, w') /\ dest w' = dest w ++ [] /\
    footer_dest w' = footer_dest w /\ inherit_relations w' = inherit_relations w /\
    body_step w w').
  { exists w. rewrite app_nil_r. repeat (split; [reflexivity |]). apply body_step_refl. }
  unfold header, prolog_text, cfg_get. rewrite bind_run. unfold gets at 1. cbv beta iota.
  destruct (config w) as [c |]; [| exact Hnone].
  destruct (c !! ("puml", "prolog")) as [prolog |]; [| exact Hnone].
  unfold truthy. destruct (String.eqb prolog ""); simpl; [exact Hnone |].
  destruct (output_out_stream [prolog +:+ NL] w) as [Er Eo].
  pose proof (steps_output [prolog +:+ NL] w) as S.
  pose proof (output_body_footer_dest [prolog +:+ NL] w Hf) as F.
  pose proof (keeps_output inherit_relations [prolog +:+ NL] stream_blind_relations w) as R.
  destruct (output [prolog +:+ NL] w) as [r w']. simpl in *. subst r.
  exists w'. split; [reflexivity |].
  unfold out_stream in Eo. rewrite (step_in_footer _ _ S), Hf in Eo.
  repeat (split; [assumption |]). exact S.
Qed.

(** X16: a run that renders no class prints only what is configured:
    the header puts the prolog, followed by an empty line, on the body
    stream, the footer puts the epilog on the footer stream, and a text
    that is absent or empty prints nothing at all.  This holds for both
    generators, from their construction. *)
Theorem empty_run_prints_prolog_and_epilog (root_ : string)
    (cfg : option (gmap (string * string) string)) (h : list ast_arguments) :
  (exists w',
     (header ;;; footer) (PUML_Generator_init cfg h) = (inr tt, w') /\
     dest w' = prolog_text cfg /\ footer_dest w' = epilog_text cfg) /\
  (exists w',
     (header ;;; footer) (PUML_Generator_NS_init root_ cfg h) = (inr tt, w') /\
     dest w' = prolog_text cfg /\ footer_dest w' = epilog_text cfg).
Proof.
  assert (Hrun : forall w0,
    in_footer w0 = false -> namespaces w0 = [] -> dest w0 = [] -> footer_dest w0 = [] ->
    inherit_relations w0 = [] -> config w0 = cfg ->
    exists w',
      (header ;;; footer) w0 = (inr tt, w') /\
      dest w' = prolog_text cfg /\ footer_dest w' = epilog_text cfg).
  { intros w0 Hf Hn Hd Hfd Hr Hc.
    destruct (header_run w0 Hf) as (w1 & E1 & D1 & F1 & R1 & S1).
    assert (Hi : indent_chunks w0 = []).
    { unfold indent_chunks. rewrite Hn. destruct (klass w0); reflexivity. }
    rewrite Hd, Hi, Hc in D1. simpl in D1.
    assert (D1' : dest w1 = prolog_text cfg) by (rewrite D1; destruct (prolog_text cfg); reflexivity).
    assert (Hf1 : in_footer w1 = false) by (rewrite (step_in_footer _ _ S1); exact Hf).
    assert (Hn1 : namespaces w1 = []) by (rewrite (step_namespaces _ _ S1); exact Hn).
    assert (Hc1 : config w1 = cfg) by (rewrite (step_config _ _ S1); exact Hc).
    rewrite bind_run, E1.
    destruct (footer_run w1 Hf1) as (w2 & E2 & F2 & _ & Hns).
    exists w2. split; [exact E2 |]. split.
    - unfold footer in E2. destruct (klass w1) eqn:Hk1.
      + destruct (base_footer_run w1) as (w2' & E2' & _ & _ & _ & D2' & _).
        rewrite E2 in E2'. injection E2' as <-. rewrite (D2' Hn1). exact D1'.
      + destruct (Hns eq_refl) as [_ D2]. rewrite D2. unfold depth. rewrite Hn1.
        simpl. rewrite app_nil_r. exact D1'.
    - rewrite F2, F1, Hfd, R1, Hr. unfold epilog_chunks, epilog_text. rewrite Hc1.
      reflexivity. }
  split; apply Hrun; reflexivity.
Qed.

(** X17: a namespace that is opened and closed at once is closed at the
    indentation it was opened at, and the stack is as before. *)
Theorem push_then_pop_restores (name : string) (w : World) :
  klass w = PUML_Generator_NS -> in_footer w = false ->
  exists w',
    (push_ns name ;;; pop_ns 1) w = (inr tt, w') /\
    namespaces w' = namespaces w /\
    dest w' =
      dest w ++ indent_at (depth w) ++ [open_marker name] ++
      indent_at (depth w) ++ [close_marker].
Proof.
  intros Hk Hf.
  destruct (push_ns_run name w Hk Hf) as (w1 & E1 & N1 & D1 & _ & S1).
  assert (Hk1 : klass w1 = PUML_Generator_NS) by (rewrite (tstep_klass _ _ S1); exact Hk).
  assert (Hf1 : in_footer w1 = false) by (rewrite (tstep_in_footer _ _ S1); exact Hf).
  assert (Ed1 : depth w1 = S (depth w)).
  { unfold depth. rewrite N1, length_app. simpl. lia. }
  destruct (pop_ns_run 1 w1 Hk1 Hf1) as (w2 & E2 & N2 & D2 & _); [rewrite Ed1; lia |].
  exists w2. rewrite bind_run, E1. split; [exact E2 |]. split.
  - rewrite N2, Ed1, N1. replace (S (depth w) - 1) with (length (namespaces w))
      by (unfold depth; lia).
    apply take_app_length.
  - rewrite D2, D1, Ed1. simpl close_chunks. rewrite Nat.sub_0_r.
    rewrite <- !app_assoc. reflexivity.
Qed.

(** ** Properties and the constructor in a class block *)

(** X18: with a configuration whose built-in types evaluate to a list, a
    property is shown as a field, [+name : type], exactly when the text
    of its return annotation (the no-type literal when it has none) is
    in that list, on a line of its own at the current indentation; it is
    never shown as a method. *)
Theorem property_shown_as_field (cn : string) (m : FunctionDef) (w : World)
    (c : gmap (string * string) string) (types : list string) :
  config w = Some c ->
  has_decorator m "property" = true ->
  py_eval (default "[]" (c !! ("methods", "built-in-types"))) = inr (PyList types) ->
  exists w1,
    property_field m w = (inr tt, w1) /\
    out_stream w1 =
      out_stream w ++
      (if bool_decide (returns_text m ∈ types)
       then indent_chunks w ++
            [Py.print_text [TAB +:+ "+" +:+ fd_name m +:+ " : " +:+ returns_text m] NL]
       else []) /\
    method_line cn m w1 = (inr tt, w1).
Proof.
  intros Hc Hp He.
  assert (Hm : forall w', method_line cn m w' = (inr tt, w')).
  { intros w'. unfold method_line. rewrite Hp. reflexivity. }
  assert (Hbt : opt_builtin_types "methods" w = (inr (PyList types), w)).
  { unfold opt_builtin_types. rewrite bind_run. unfold gets. cbv beta iota.
    rewrite Hc. unfold cfg_get, lift. rewrite <- He.
    destruct (c !! ("methods", "built-in-types")); reflexivity. }
  unfold property_field. rewrite Hp, bind_run, Hbt. cbv beta iota.
  rewrite bind_run. unfold lift, py_in. cbv beta iota.
  destruct (bool_decide (returns_text m ∈ types)).
  - destruct (output_out_stream
                [TAB +:+ "+" +:+ fd_name m +:+ " : " +:+ returns_text m] w) as [Ef Eo].
    destruct (output [TAB +:+ "+" +:+ fd_name m +:+ " : " +:+ returns_text m] w)
      as [r w1] eqn:E.
    simpl in Ef, Eo. subst r. exists w1.
    split; [reflexivity |]. split; [exact Eo | apply Hm].
  - exists w. split; [reflexivity |]. split; [rewrite app_nil_r; reflexivity | apply Hm].
Qed.

(** X19: the constructor is rendered under the name of the class, always
    public, without decorator markers and without a return type: when
    [arglist] returns, the line is [+Class(arguments)] at the current
    indentation.  Its decorators are not rendered, so a decorator that is
    a call does not make the line raise. *)
Theorem constructor_line (cn : string) (m : FunctionDef) (w w1 : World) (al : string) :
  has_decorator m "property" = false -> has_decorator m "setter" = false ->
  fd_name m = "__init__" ->
  arglist m true w = (inr al, w1) ->
  exists w2,
    method_line cn m w = (inr tt, w2) /\
    out_stream w2 =
      out_stream w ++ indent_chunks w ++
      [Py.print_text [TAB +:+ "+" +:+ cn +:+ "(" +:+ al +:+ ")"] NL].
Proof.
  intros Hp Hs Hn Ha.
  destruct (prints_arglist m true w) as (S & lines & Eo & Hl).
  rewrite Ha in S, Eo, Hl. simpl in S, Eo, Hl.
  rewrite (Hl al eq_refl) in Eo. unfold printed_lines in Eo. simpl in Eo.
  rewrite app_nil_r in Eo.
  unfold method_line. rewrite Hp, Hs, Hn. simpl.
  rewrite bind_run, Ha. cbv beta iota.
  destruct (output_out_stream [TAB +:+ "+" +:+ cn +:+ "(" +:+ al +:+ ")"] w1) as [Ef E].
  destruct (output [TAB +:+ "+" +:+ cn +:+ "(" +:+ al +:+ ")"] w1) as [r w2] eqn:Eout.
  simpl in Ef, E. subst r. exists w2. split; [reflexivity |].
  rewrite E, Eo, (body_step_indent _ _ S). reflexivity.
Qed.

End Generator.

(** * The properties on the sample inputs *)

#[local] Existing Instance sample_externals.

(** A class [Foo(ABC, Enum)] has a base that renders to [ABC], and its
    block opens with [enum]: the later marker wins. *)
Lemma print_classinfo_abc_then_enum :
  In (Name "ABC") (bases sample_class) /\
  render (Name "ABC") = "ABC" /\
  dest (snd (print_classinfo sample_class sample_world)) =
    [Py.print_text ["enum"; "Foo"; "{"] NL; Py.print_text ["}" +:+ NL] NL] /\
  Py.print_text ["enum"; "Foo"; "{"] NL <> Py.print_text ["abstract class"; "Foo"; "{"] NL.
Proof.
  split; [left; reflexivity |]. split; [reflexivity |]. split; [reflexivity |].
  discriminate.
Qed.

(** [class IShape(ABC)] opens with [interface]. *)
Lemma print_classinfo_prefix_witness :
  exists prefix tail,
    out_stream (snd (print_classinfo sample_interface sample_world)) =
      out_stream sample_world ++ indent_chunks sample_world ++
      [Py.print_text [prefix; classname sample_interface; "{"] NL] ++ tail /\
    prefix = "interface".
Proof.
  destruct (@print_classinfo_prefix sample_externals sample_interface sample_world "I" "Shape" eq_refl)
    as (prefix & tail & E & HI & _).
  exists prefix, tail. split; [exact E | apply HI; reflexivity].
Defined.

(** The footer of the tracker that recorded [Bar(Foo)]. *)
Lemma footer_qualifies_relations_witness :
  exists w',
    footer sample_world_late = (inr tt, w') /\
    footer_dest w' =
      footer_dest sample_world_late ++
      map (relation_line (class_in_module sample_world_late))
        (inherit_relations sample_world_late) ++
      epilog_chunks sample_world_late.
Proof.
  destruct (@footer_qualifies_relations sample_externals sample_world_late eq_refl) as (w' & E & F & _).
  exists w'. split; [exact E | exact F].
Defined.

(** The relation recorded for [Bar(Foo)] before [Foo] was rendered is
    printed with the namespace of both classes. *)
Lemma footer_late_class_example :
  footer_dest (snd ((print_classinfo (mk_classinfo "Foo" [] [] [] []) ;;; footer)
                      sample_world_late)) =
    ["pkg.Foo <|-- pkg.Bar" +:+ NL].
Proof. reflexivity. Qed.

(** From [a/b/c] to [a/b/d]: two shared segments, one closing, one
    opening. *)
Lemma start_file_keeps_common_prefix_witness :
  exists w',
    start_file "a/b/d.py" sample_world_abc = (inr tt, w') /\
    namespaces w' = ["a"; "b"; "d"] /\
    dest w' = dest sample_world_abc ++ close_chunks 3 1 ++ open_chunks 2 ["d"].
Proof.
  destruct (@start_file_keeps_common_prefix sample_externals "a/b/d.py" sample_world_abc ["a"; "b"; "d"] 2
              eq_refl eq_refl eq_refl eq_refl) as (w' & E & N & _ & D & _).
  exists w'. split; [exact E |]. split; [exact N | exact D].
Defined.

(** After [a/b/c.py], the file [a/b/d.py] closes [c] and opens [d]:
    nothing is printed for [a] or [b]. *)
Lemma start_file_sibling_example :
  sample_world_abc = snd (start_file "a/b/c.py" sample_world_ns) /\
  dest (snd (start_file "a/b/d.py" sample_world_abc)) =
    dest sample_world_abc ++
    ["    "; "}" +:+ NL; "    "; "namespace d {" +:+ NL].
Proof. split; reflexivity. Qed.

(** The static [make(x, y=zero)] keeps [x] and [y] under omit-self. *)
Lemma arglist_static_keeps_parameters_witness :
  exists a',
    args a' = [mk_arg "x" None; mk_arg "y" None] /\
    fst (arglist sample_static true sample_world_omit) =
      inr (Py.rstrip (to_source_arguments a')).
Proof.
  destruct (@arglist_static_keeps_parameters sample_externals sample_static
              (mk_arguments [] [mk_arg "x" None; mk_arg "y" None] None [] [] None [Name "zero"])
              sample_world_omit (PyBool true) (PyBool true) (PyBool true)
              eq_refl (or_introl eq_refl) eq_refl eq_refl eq_refl eq_refl)
    as (a' & _ & Ea & _ & _ & _ & Er & _).
  exists a'. split; [exact Ea | exact Er].
Defined.

(** With argument lists switched off, the static [make(x, y=zero)] is
    rendered, under omit-self, as the empty text: none of its parameters
    is in it, and no copy of the descriptor is made. *)
Lemma arglist_static_suppressed_is_empty :
  In (Name "staticmethod") (decorator_list sample_static) /\
  fst (opt_omit_self sample_world_quiet) = inr (PyBool true) /\
  heap sample_world_quiet !! fd_args sample_static =
    Some (mk_arguments [] [mk_arg "x" None; mk_arg "y" None] None [] [] None
            [Name "zero"]) /\
  arglist sample_static true sample_world_quiet = (inr "", sample_world_quiet).
Proof. split; [left; reflexivity |]. repeat split. Qed.

(** [area(self, x=None)] under omit-defaults is rendered without
    defaults. *)
Lemma arglist_omit_defaults_witness :
  exists a',
    defaults a' = [] /\ kw_defaults a' = [] /\
    fst (arglist sample_method true sample_world_omit) =
      inr (Py.rstrip (to_source_arguments a')).
Proof.
  destruct (@arglist_omit_defaults sample_externals sample_method true
              (mk_arguments [] [mk_arg "self" None; mk_arg "x" None] None [] [] None [Name "None"])
              sample_world_omit (PyBool true) (PyBool true) (PyBool true)
              eq_refl eq_refl eq_refl eq_refl eq_refl)
    as (a' & Ed & Ek & _ & Er).
  - discriminate.
  - exists a'. split; [exact Ed |]. split; [exact Ek | exact Er].
Defined.

(** With argument lists switched off, a method without parameters and
    without [staticmethod], under omit-self, returns the empty text: no
    pop takes place. *)
Lemma arglist_suppressed_does_not_pop :
  heap sample_world_quiet !! fd_args sample_noargs =
    Some (mk_arguments [] [] None [] [] None []) /\
  decorator_list sample_noargs = [] /\
  fst (opt_omit_self sample_world_quiet) = inr (PyBool true) /\
  arglist sample_noargs true sample_world_quiet = (inr "", sample_world_quiet).
Proof. repeat split. Qed.

(** [run()], without parameters, under omit-self: the pop fails. *)
Lemma arglist_pop_needs_parameter_witness :
  fst (arglist sample_noargs true sample_world_omit) = inl IndexError.
Proof.
  refine (proj1 (@arglist_pop_needs_parameter sample_externals sample_noargs
            (mk_arguments [] [] None [] [] None []) sample_world_omit
            (PyBool true) (PyBool true) eq_refl _ eq_refl eq_refl eq_refl eq_refl) eq_refl).
  simpl. intros [].
Defined.

(** [gather], whose only parameter is starred, has a parameter, yet its
    [args.args] list is empty and the pop fails all the same. *)
Lemma arglist_starred_only_example :
  heap sample_world_kinds !! fd_args sample_gather =
    Some (mk_arguments [] [] (Some (mk_arg "rest" None)) [] [] None []) /\
  fst (arglist sample_gather true sample_world_kinds) = inl IndexError.
Proof. split; reflexivity. Qed.

(** Without a configuration [opt_prolog] and [opt_epilog] do not return
    the empty string: what they return is [self.config] itself. *)
Lemma options_without_config_prolog_not_empty :
  config sample_world = None /\
  fst (opt_prolog sample_world) = inr PyNone /\
  fst (opt_epilog sample_world) = inr PyNone /\
  PyNone <> PyStr "".
Proof. repeat split; discriminate. Qed.

(** The accessors of a generator built without configuration. *)
Lemma options_without_config_witness :
  opt_write_arglist "methods" sample_world = (inr (PyBool true), sample_world) /\
  opt_builtin_types "methods" sample_world = (inr (PyList []), sample_world) /\
  exists p,
    opt_prolog sample_world = (inr p, sample_world) /\ truthy p = false /\ p <> PyStr "".
Proof.
  destruct (@options_without_config sample_externals sample_world "methods" eq_refl)
    as (Ew & Eb & _ & p & e & Ep & _ & Tp & _ & Np & _).
  split; [exact Ew |]. split; [exact Eb |].
  exists p. split; [exact Ep |]. split; [exact Tp | exact (Np "")].
Defined.

(** [print_codeinfo] without a configuration, and with the globals on. *)
Lemma print_codeinfo_examples :
  print_codeinfo (mk_codeinfo ["x"] []) sample_world = (inl AssertionError, sample_world) /\
  dest (snd (print_codeinfo (mk_codeinfo ["_x"] [sample_static])
               (PUML_Generator_init (Some sample_config_globals) sample_store))) =
    ["class __module__ {" +:+ NL; "  #_x" +:+ NL; "  +make(x, y)" +:+ NL; "}" +:+ NL +:+ NL].
Proof. split; reflexivity. Qed.

(** * The further properties on the sample inputs *)

(** The markers of the static [make]. *)
Lemma static_marker_iff_static_method_witness :
  In "{static}" ["{static}"] <-> is_static_method sample_static = true.
Proof.
  exact (@static_marker_iff_static_method sample_externals sample_static ["{static}"] eq_refl).
Defined.

(** [View], whose method [index] is decorated by a call, is not rendered. *)
Lemma call_decorator_breaks_rendering_witness :
  exists e, fst (print_classinfo sample_view sample_world) = inl e.
Proof.
  refine (proj1 (@call_decorator_breaks_rendering sample_externals sample_view sample_route 0
                   sample_world (or_introl eq_refl) eq_refl eq_refl _ (or_introl eq_refl))).
  discriminate.
Defined.

(** What happens to [View]: the block is opened, then the line of
    [index] raises [AttributeError] and the block stays open. *)
Lemma call_decorator_example :
  fst (print_classinfo sample_view sample_world) = inl AttributeError /\
  dest (snd (print_classinfo sample_view sample_world)) = ["class View {" +:+ NL].
Proof. split; reflexivity. Qed.

(** The property [size] without a configuration. *)
Lemma property_without_config_is_hidden_witness :
  property_field sample_property sample_world = (inr tt, sample_world) /\
  method_line "Shape" sample_property sample_world = (inr tt, sample_world).
Proof.
  exact (@property_without_config_is_hidden sample_externals "Shape" sample_property
           sample_world eq_refl (or_introl eq_refl)).
Defined.

(** A class of the file [pkg/shapes.py] is recorded as [pkg.shapes.]. *)
Lemma class_prefix_is_dotted_path_witness :
  exists w1 r w2,
    start_file "pkg/shapes.py" sample_world_ns = (inr tt, w1) /\
    print_classinfo sample_derived w1 = (r, w2) /\
    class_in_module w2 !! "Bar" = Some "pkg.shapes.".
Proof.
  destruct (@class_prefix_is_dotted_path sample_externals "pkg/shapes.py" sample_derived
              sample_world_ns eq_refl eq_refl) as (w1 & r & w2 & E1 & E2 & C & _).
  exists w1, r, w2. split; [exact E1 |]. split; [exact E2 | exact C].
Defined.


(** The footer of the tracker that recorded [Bar(Foo)], twice. *)
Lemma footer_keeps_records_witness :
  exists w1 w2,
    footer sample_world_late = (inr tt, w1) /\ footer w1 = (inr tt, w2) /\
    inherit_relations w1 = [("Foo", "Bar")].
Proof.
  destruct (footer_keeps_records sample_world_late eq_refl) as (w1 & w2 & E1 & E2 & R & _).
  exists w1, w2. split; [exact E1 |]. split; [exact E2 | exact R].
Defined.

(** The function [make(x, y=zero)] of a module, without configuration. *)
Lemma arglist_function_keeps_parameters_witness :
  exists node,
    fst (arglist sample_static false sample_world) = inr (Py.rstrip (to_source_arguments node)) /\
    args node = [mk_arg "x" None; mk_arg "y" None].
Proof.
  destruct (@arglist_function_keeps_parameters sample_externals sample_static
              (mk_arguments [] [mk_arg "x" None; mk_arg "y" None] None [] [] None [Name "zero"])
              sample_world (PyBool true) PyNone eq_refl eq_refl eq_refl eq_refl)
    as (node & E & _ & A).
  exists node. split; [rewrite E; reflexivity | exact A].
Defined.

(** [move], whose [self] is positional-only, under omit-self: it is
    [x], the first entry of [args.args], that is dropped and reported;
    [self] stays. *)
Lemma arglist_omit_self_drops_first_witness :
  exists node,
    fst (arglist sample_move true sample_world_kinds) =
      inr (Py.rstrip (to_source_arguments node)) /\
    args node = [] /\ posonlyargs node = [mk_arg "self" None] /\
    log (snd (arglist sample_move true sample_world_kinds)) =
      [(WARNING, "Unexpected name %r for method 'self' parameter in %s()", ["x"; "move"])].
Proof.
  destruct (@arglist_omit_self_drops_first sample_externals sample_move
              (mk_arguments [mk_arg "self" None] [mk_arg "x" None] None [] [] None [])
              (mk_arg "x" None) [] sample_world_kinds
              (PyBool true) (PyBool true) (PyBool true) eq_refl eq_refl)
    as (node & E & A & (P & _) & _ & _ & L); try reflexivity.
  - simpl. intros [].
  - exists node. split; [exact E |]. split; [exact A |]. split; [exact P | exact L].
Defined.

(** The class method [build(x, y=zero)] under omit-self: [x] is dropped
    and reported. *)
Lemma arglist_classmethod_example :
  fst (arglist sample_classmethod true sample_world_omit) = inr "y" /\
  log (snd (arglist sample_classmethod true sample_world_omit)) =
    [(WARNING, "Unexpected name %r for method 'self' parameter in %s()", ["x"; "build"])].
Proof. split; reflexivity. Qed.

(** Four namespaces asked of a stack of three. *)
Lemma pop_ns_beyond_depth_witness :
  exists w',
    pop_ns 4 sample_world_abc = (inl IndexError, w') /\ namespaces w' = [].
Proof.
  destruct (proj1 (pop_ns_beyond_depth 4 sample_world_abc eq_refl eq_refl
                     (le_n 4))) as (w' & E & N & _).
  exists w'. split; [exact E | exact N].
Defined.

(** [a/b/c.py] entered again. *)
Lemma start_file_same_file_again_witness :
  exists w1 w2,
    start_file "a/b/c.py" sample_world_abc = (inr tt, w1) /\
    start_file "a/b/c.py" w1 = (inr tt, w2) /\
    dest w2 = dest w1.
Proof.
  destruct (@start_file_same_file_again sample_externals "a/b/c.py" sample_world_abc
              eq_refl eq_refl) as (w1 & w2 & E1 & E2 & _ & D & _).
  exists w1, w2. split; [exact E1 |]. split; [exact E2 | exact D].
Defined.

(** A namespace [d] opened and closed under [a/b/c]. *)
Lemma push_then_pop_restores_witness :
  exists w',
    (push_ns "d" ;;; pop_ns 1) sample_world_abc = (inr tt, w') /\
    namespaces w' = namespaces sample_world_abc.
Proof.
  destruct (push_then_pop_restores "d" sample_world_abc eq_refl eq_refl) as (w' & E & N & _).
  exists w'. split; [exact E | exact N].
Defined.

(** The property [size], of type [int], where [int] is a built-in type. *)
Lemma property_shown_as_field_witness :
  exists w1,
    @property_field sample_externals_types sample_property sample_world_types = (inr tt, w1) /\
    out_stream w1 = ["  +size : int" +:+ NL].
Proof.
  destruct (@property_shown_as_field sample_externals_types "Shape" sample_property
              sample_world_types sample_config_types ["int"] eq_refl eq_refl eq_refl)
    as (w1 & E & O & _).
  exists w1. split; [exact E | exact O].
Defined.

(** The constructor of [Shape], decorated by a call. *)
Lemma constructor_line_witness :
  exists w2,
    method_line "Shape" sample_constructor sample_world = (inr tt, w2) /\
    out_stream w2 = ["  +Shape(self, x)" +:+ NL].
Proof.
  destruct (@constructor_line sample_externals "Shape" sample_constructor sample_world
              (snd (arglist sample_constructor true sample_world)) "self, x"
              eq_refl eq_refl eq_refl eq_refl) as (w2 & E & O).
  exists w2. split; [exact E | exact O].
Defined.
